(** * ShortCircuitCalc: the typed configuration engine and the connection resolver

    A shallow embedding of [tools/tools.py]:
    - [_TypesHandler] / [TypesManager], the value codec;
    - [config_manager], the single-parameter reader and writer of the
      configuration file;
    - [db_access], the memoised connection resolver (the variant of
      [ShortCircuitCalc/tools/tools.py], in module [Legacy]);
    - [session_scope], the transaction scope.

    Python objects are modelled by the inductive type [value], exceptions by
    [exn], and a computation that may raise by [result].  The functions of
    the host that the code calls ([str], [ast.literal_eval], [Decimal],
    [re.search], [str.replace]) are modelled on the fragment described next
    to each of them. *)

From Stdlib Require Import Bool List String Ascii ZArith NArith Lia.
From Stdlib Require Import Decimal DecimalString DecimalN DecimalZ DecimalFacts.
Import ListNotations.

#[local] Open Scope string_scope.
#[local] Open Scope Z_scope.

(** ** Exceptions and results *)

Inductive exn : Type :=
| ValueError
| SyntaxError
| TypeError
| KeyError
| AttributeError
| InvalidOperation
| FileNotFoundError
| OperationalError
| RecursionError
| HostUnmodelled
| OtherError (name : string).

Inductive result (A : Type) : Type :=
| Ok (a : A)
| Raise (e : exn).

Arguments Ok {A} a.
Arguments Raise {A} e.

Definition bind {A B : Type} (r : result A) (k : A -> result B) : result B :=
  match r with
  | Ok a => k a
  | Raise e => Raise e
  end.

Notation "x <- r ;; k" := (bind r (fun x => k))
  (at level 61, r at next level, right associativity).

(** ** Strings *)

Definition ch_quote : ascii := "'"%char.
Definition ch_dquote : ascii := Ascii.ascii_of_nat 34.
Definition ch_newline : ascii := Ascii.ascii_of_nat 10.
Definition ch_tab : ascii := Ascii.ascii_of_nat 9.
Definition ch_backslash : ascii := Ascii.ascii_of_nat 92.

Definition str1 (c : ascii) : string := String c EmptyString.

(** [strip_prefix p s] is the rest of [s] after its prefix [p], when [s]
    starts with [p]. *)
Fixpoint strip_prefix (p s : string) : option string :=
  match p, s with
  | EmptyString, _ => Some s
  | String a p', String b s' => if Ascii.eqb a b then strip_prefix p' s' else None
  | String _ _, EmptyString => None
  end.

(** [span f s]: the longest prefix of [s] whose characters satisfy [f], and
    the rest. *)
Fixpoint span (f : ascii -> bool) (s : string) : string * string :=
  match s with
  | EmptyString => (EmptyString, EmptyString)
  | String c s' =>
      if f c then let (a, b) := span f s' in (String c a, b)
      else (EmptyString, s)
  end.

Definition is_empty (s : string) : bool :=
  match s with EmptyString => true | _ => false end.

(** [c in s] for a one-character needle. *)
Fixpoint contains_char (c : ascii) (s : string) : bool :=
  match s with
  | EmptyString => false
  | String a s' => Ascii.eqb a c || contains_char c s'
  end.

Fixpoint string_forallb (f : ascii -> bool) (s : string) : bool :=
  match s with
  | EmptyString => true
  | String c s' => f c && string_forallb f s'
  end.

(** *** [re.search] on the two patterns of the module

    Both regular expressions of the module have the shape
    [PREFIX (group: one or more characters other than STOP) SUFFIX], where
    SUFFIX starts with STOP:
    - ["Decimal\('([^']+)'\)"]: prefix [Decimal('], stop ['], suffix ['\)];
    - [(?P<name>{param}) = (?P<value>.+)\n]: prefix [param ++ " = "], stop
      the newline (the dot matches everything else), suffix the newline.
    The group is greedy, and a shorter group cannot match because the
    character after it would have to be STOP: at a given position the only
    possible group is the whole run up to the next STOP.  [re.search] returns
    the match at the leftmost position. *)

Definition match_here (prefix : string) (stop : ascii) (suffix : string)
    (s : string) : option (string * string) :=
  match strip_prefix prefix s with
  | None => None
  | Some r =>
      let (g, t) := span (fun c => negb (Ascii.eqb c stop)) r in
      if is_empty g then None
      else match strip_prefix suffix t with
           | Some post => Some (g, post)
           | None => None
           end
  end.

(** The result is [(pre, group, post)]: the text before the match, the
    group, and the text after the match. *)
Fixpoint re_search (prefix : string) (stop : ascii) (suffix : string)
    (s : string) : option (string * string * string) :=
  match match_here prefix stop suffix s with
  | Some (g, post) => Some (EmptyString, g, post)
  | None =>
      match s with
      | EmptyString => None
      | String c s' =>
          match re_search prefix stop suffix s' with
          | Some (pre, g, post) => Some (String c pre, g, post)
          | None => None
          end
      end
  end.

(** [s.replace(old, new, 1)] for a non-empty [old]: the first occurrence of
    [old] is replaced, and [s] is returned as it is when there is none. *)
Fixpoint replace_first (old new s : string) : string :=
  match strip_prefix old s with
  | Some rest => new ++ rest
  | None =>
      match s with
      | EmptyString => EmptyString
      | String c s' => String c (replace_first old new s')
      end
  end.

(** ** The data model: TypedValue

    [decimal] is Python's [decimal.Decimal]: a sign, a coefficient and an
    exponent, or one of the special values.  [pyfloat] stands for a binary64
    float through the shortest decimal [m * 10^e] that [repr] prints for it
    ([m] without trailing zero digits), which identifies the float;
    [float_of_binary], further down, gives it for a binary64 number. *)

Inductive decimal : Type :=
| DFin (neg : bool) (coef : N) (exp : Z)
| DInf (neg : bool)
| DNaN (neg : bool) (signaling : bool) (payload : N).

Inductive pyfloat : Type :=
| FFin (neg : bool) (m : N) (e : Z)
| FInf (neg : bool)
| FNaN.

Inductive value : Type :=
| VNone
| VBool (b : bool)
| VInt (z : Z)
| VFloat (f : pyfloat)
| VDecimal (d : decimal)
| VStr (s : string).

Inductive pytype : Type := TNoneType | Tbool | Tint | Tfloat | TDecimal | Tstr.

Definition type_of (v : value) : pytype :=
  match v with
  | VNone => TNoneType
  | VBool _ => Tbool
  | VInt _ => Tint
  | VFloat _ => Tfloat
  | VDecimal _ => TDecimal
  | VStr _ => Tstr
  end.

Definition isinstance_str (v : value) : bool :=
  match v with VStr _ => true | _ => false end.

(** ** Host functions: [str] *)

Definition is_digit (c : ascii) : bool :=
  let n := nat_of_ascii c in (48 <=? n)%nat && (n <=? 57)%nat.

Definition is_alpha (c : ascii) : bool :=
  let n := nat_of_ascii c in
  ((65 <=? n)%nat && (n <=? 90)%nat) || ((97 <=? n)%nat && (n <=? 122)%nat).

Definition is_ident_start (c : ascii) : bool := is_alpha c || Ascii.eqb c "_"%char.
Definition is_ident_char (c : ascii) : bool := is_ident_start c || is_digit c.

Definition digits_of_N (n : N) : string := NilZero.string_of_uint (N.to_uint n).

(** [int(s)] for a string of decimal digits (leading zeros allowed). *)
Definition N_of_digits (s : string) : option N :=
  match s with
  | EmptyString => None
  | _ => option_map N.of_uint (NilEmpty.uint_of_string s)
  end.

Definition str_int (z : Z) : string := NilZero.string_of_int (Z.to_int z).

Fixpoint zeros (n : nat) : string :=
  match n with
  | O => EmptyString
  | S n' => String "0" (zeros n')
  end.

Fixpoint take (n : nat) (s : string) : string :=
  match n, s with
  | S n', String c s' => String c (take n' s')
  | _, _ => EmptyString
  end.

Fixpoint drop (n : nat) (s : string) : string :=
  match n, s with
  | S n', String _ s' => drop n' s'
  | _, _ => s
  end.

Definition sign_str (neg : bool) : string := if neg then "-" else "".

(** ["%+d" % z] *)
Definition str_signed (z : Z) : string :=
  if z <? 0 then str_int z else "+" ++ str_int z.

(** [Decimal.__str__] (scientific string, default context). *)
Definition str_decimal (d : decimal) : string :=
  match d with
  | DInf neg => sign_str neg ++ "Infinity"
  | DNaN neg sig p =>
      sign_str neg ++ (if sig then "sNaN" else "NaN") ++
      (if (p =? 0)%N then "" else digits_of_N p)
  | DFin neg coef exp =>
      let digits := digits_of_N coef in
      let len := Z.of_nat (String.length digits) in
      let leftdigits := exp + len in
      let dotplace :=
        if (exp <=? 0) && (-6 <? leftdigits) then leftdigits else 1 in
      let intpart :=
        if dotplace <=? 0 then "0"
        else if len <=? dotplace then digits ++ zeros (Z.to_nat (dotplace - len))
        else take (Z.to_nat dotplace) digits in
      let fracpart :=
        if dotplace <=? 0 then "." ++ zeros (Z.to_nat (- dotplace)) ++ digits
        else if len <=? dotplace then ""
        else "." ++ drop (Z.to_nat dotplace) digits in
      let exp_s :=
        if leftdigits =? dotplace then ""
        else "E" ++ str_signed (leftdigits - dotplace) in
      sign_str neg ++ intpart ++ fracpart ++ exp_s
  end.

(** The exponent of [repr(float)]: a sign and at least two digits. *)
Definition str_float_exp (z : Z) : string :=
  let a := digits_of_N (Z.abs_N z) in
  (if z <? 0 then "-" else "+") ++
  (if (String.length a <? 2)%nat then "0" ++ a else a).

(** [repr(float)], which is also [str(float)]. *)
Definition str_float (f : pyfloat) : string :=
  match f with
  | FInf neg => sign_str neg ++ "inf"
  | FNaN => "nan"
  | FFin neg m e =>
      let digits := digits_of_N m in
      let n := Z.of_nat (String.length digits) in
      let decpt := n + e in
      sign_str neg ++
      (if (-4 <? decpt) && (decpt <=? 16) then
         if decpt <=? 0 then "0." ++ zeros (Z.to_nat (- decpt)) ++ digits
         else if n <=? decpt then digits ++ zeros (Z.to_nat (decpt - n)) ++ ".0"
         else take (Z.to_nat decpt) digits ++ "." ++ drop (Z.to_nat decpt) digits
       else
         take 1 digits ++
         (if 1 <? n then "." ++ drop 1 digits else "") ++
         "e" ++ str_float_exp (decpt - 1))
  end.

(** [str(v)], which is also what an f-string prints for [v]. *)
Definition py_str (v : value) : string :=
  match v with
  | VNone => "None"
  | VBool true => "True"
  | VBool false => "False"
  | VInt z => str_int z
  | VFloat f => str_float f
  | VDecimal d => str_decimal d
  | VStr s => s
  end.

(** ** Host functions: [Decimal(str)] and [ast.literal_eval] *)

Definition to_lower (c : ascii) : ascii :=
  let n := nat_of_ascii c in
  if (65 <=? n)%nat && (n <=? 90)%nat then ascii_of_nat (n + 32) else c.

Fixpoint string_map (f : ascii -> ascii) (s : string) : string :=
  match s with
  | EmptyString => EmptyString
  | String c s' => String (f c) (string_map f s')
  end.

Fixpoint remove_char (c : ascii) (s : string) : string :=
  match s with
  | EmptyString => EmptyString
  | String a s' => if Ascii.eqb a c then remove_char c s' else String a (remove_char c s')
  end.

(** The ASCII characters that [str.strip()] removes. *)
Definition is_space (c : ascii) : bool :=
  let n := nat_of_ascii c in
  ((9 <=? n)%nat && (n <=? 13)%nat) || ((28 <=? n)%nat && (n <=? 32)%nat).

(** A text of ASCII characters. *)
Definition ascii_text (s : string) : bool :=
  string_forallb (fun c => (nat_of_ascii c <? 128)%nat) s.

Definition lstrip (f : ascii -> bool) (s : string) : string := snd (span f s).

Fixpoint rstrip (f : ascii -> bool) (s : string) : string :=
  match s with
  | EmptyString => EmptyString
  | String c s' =>
      let r := rstrip f s' in
      if is_empty r && f c then EmptyString else String c r
  end.

Definition strip (s : string) : string := rstrip is_space (lstrip is_space s).

(** An optional sign. *)
Definition parse_sign (s : string) : bool * string :=
  match s with
  | String c r =>
      if Ascii.eqb c "-" then (true, r)
      else if Ascii.eqb c "+" then (false, r)
      else (false, s)
  | EmptyString => (false, s)
  end.

(** [int(s)] for an optional sign followed by digits. *)
Definition Z_of_signed_digits (s : string) : option Z :=
  let (neg, r) := parse_sign s in
  match N_of_digits r with
  | Some n => Some (if neg then - Z.of_N n else Z.of_N n)
  | None => None
  end.

(** The diagnostic digits of a NaN, read as a number ([0] when there is
    none). *)
Definition nan_payload (s : string) : option N :=
  match s with
  | EmptyString => Some 0%N
  | _ => N_of_digits s
  end.

(** [Decimal(s)] for a string [s] of ASCII characters (the constructor
    also strips the white space of Unicode and reads its decimal digits,
    which a string of this model does not hold; the largest exponent that
    the host accepts is not modelled); [None] stands for the
    [InvalidOperation] that the constructor raises on a string that is not a
    numeric string.  The constructor strips the string, removes the
    underscores and matches the result ([parse_decimal], on the text in
    lower case because the match ignores case) against: an optional sign,
    then either a number (digits with an optional fractional part after a
    dot, at least one digit in all, and an optional exponent [E] with an
    optional sign and digits), or [Inf] or [Infinity], or [NaN] or [sNaN]
    followed by optional diagnostic digits; nothing may follow. *)
Definition parse_decimal (t : string) : option decimal :=
  let (neg, r) := parse_sign t in
  if String.eqb r "inf" || String.eqb r "infinity" then Some (DInf neg)
  else
    match strip_prefix "nan" r, strip_prefix "snan" r with
    | Some d, _ => option_map (DNaN neg false) (nan_payload d)
    | None, Some d => option_map (DNaN neg true) (nan_payload d)
    | None, None =>
        let (ip, r1) := span is_digit r in
        let (fp, r2) :=
          match r1 with
          | String c r' => if Ascii.eqb c "." then span is_digit r' else (EmptyString, r1)
          | EmptyString => (EmptyString, r1)
          end in
        match N_of_digits (ip ++ fp) with
        | None => None
        | Some coef =>
            let frac_len := Z.of_nat (String.length fp) in
            match r2 with
            | EmptyString => Some (DFin neg coef (- frac_len))
            | String c r3 =>
                if Ascii.eqb c "e" then
                  match Z_of_signed_digits r3 with
                  | Some e => Some (DFin neg coef (e - frac_len))
                  | None => None
                  end
                else None
            end
        end
    end.

Definition Decimal_of_string (s : string) : option decimal :=
  parse_decimal (string_map to_lower (remove_char "_" (strip s))).

(** *** [ast.literal_eval]

    The model covers the literals that a configuration value can be: the
    names [None], [True] and [False], decimal integers and floats with an
    optional sign, and strings between single or double quotes without
    escapes.  It also tells apart the two ways in which the host rejects a
    text that is not a literal: a text that is an expression but not a
    literal (a name, a dotted name) makes [literal_eval] raise [ValueError],
    and a text that is not an expression at all (two names or numbers side
    by side, a string that is not closed, a keyword) makes it raise [SyntaxError].
    On every other text (containers, parentheses, bytes, complex numbers,
    operators, escapes, prefixed or triple-quoted strings, digit separators,
    leading blanks) the model answers [HostUnmodelled]: the text is outside
    the fragment, and a statement about such a text says nothing about the
    code.  The host's limit on the number
    of digits of an integer is not modelled. *)

Inductive lit_result : Type :=
| LitOk (v : value)
| LitValueError
| LitRaise (e : exn).

Inductive token : Type :=
| TName (s : string)
| TInt (n : N)
| TFloat (f : pyfloat)
| TStr (s : string)
| TOp (c : ascii).

Inductive lex_step_result : Type :=
| Tok (t : token) (rest : string)
| StepRaise (e : exn).

Inductive lexed : Type :=
| LexOk (ts : list token)
| LexRaise (e : exn).

Definition starts_with (f : ascii -> bool) (s : string) : bool :=
  match s with
  | String c _ => f c
  | EmptyString => false
  end.

Definition is_quote_char (c : ascii) : bool :=
  Ascii.eqb c ch_quote || Ascii.eqb c ch_dquote.

Definition is_control (c : ascii) : bool :=
  let n := nat_of_ascii c in
  ((n <? 32)%nat && negb (n =? 9)%nat) || (n =? 127)%nat.

(** The body of a string literal opened by [q]: [Some (body, rest)] when the
    literal is closed on the same line, [None] when it is not. *)
Definition scan_string_body (q : ascii) (s : string) : option (string * string) :=
  let (body, rest) := span (fun c => negb (Ascii.eqb c q || Ascii.eqb c ch_newline)) s in
  match rest with
  | String c rest' => if Ascii.eqb c q then Some (body, rest') else None
  | EmptyString => None
  end.

Definition lex_string (q : ascii) (s : string) : lex_step_result :=
  match scan_string_body q s with
  | None => StepRaise SyntaxError
  | Some (body, rest) =>
      if contains_char ch_backslash body
         || negb (string_forallb (fun c => negb (is_control c)) body)
         || (is_empty body && starts_with (Ascii.eqb q) rest)
      then StepRaise HostUnmodelled
      else Tok (TStr body) rest
  end.

Fixpoint strip_trailing_zeros (fuel : nat) (m : N) (e : Z) : N * Z :=
  match fuel with
  | O => (m, e)
  | S k =>
      if (m =? 0)%N then (0%N, 0)
      else if (m mod 10 =? 0)%N then strip_trailing_zeros k (m / 10)%N (e + 1)
      else (m, e)
  end.

(** *** Binary64 floats: [float(literal)] and [repr(float)]

    A finite float is [mant * 2^exp] with a sign; it is canonical when
    [mant < 2^53], [-1074 <= exp <= 971], and either [2^52 <= mant] (a normal
    number) or [exp = -1074] (zero and the subnormal numbers).  A decimal
    literal denotes the float nearest to its value, ties going to the even
    mantissa, or an infinity when that float would be too large
    ([round_decimal]).  [repr] prints the shortest decimal that reads as the
    float and, among the decimals of that length, the nearest to the float
    ([shortest_decimal]); seventeen digits are always enough, and the exact
    expansion that ends the search only makes the function total. *)

Record binary64 : Type := B64 { b_neg : bool; b_mant : N; b_exp : Z }.

Definition canonical (b : binary64) : bool :=
  (Z.of_N (b_mant b) <? 2 ^ 53) && (-1074 <=? b_exp b) && (b_exp b <=? 971)
  && ((2 ^ 52 <=? Z.of_N (b_mant b)) || (b_exp b =? -1074)).

(** [floor (log2 (num / den))] for positive [num] and [den]. *)
Definition floor_log2 (num den : Z) : Z :=
  if den <=? num then Z.log2 (num / den)
  else - Z.log2_up (- ((- den) / num)).

(** The float nearest to [num / den], ties to the even mantissa; [None]
    stands for the overflow to infinity. *)
Definition round_fraction (num den : Z) : option (N * Z) :=
  if num =? 0 then Some (0%N, -1074)
  else
    let e := Z.max (floor_log2 num den - 52) (-1074) in
    let a := if 0 <=? e then num else num * 2 ^ (- e) in
    let b := if 0 <=? e then den * 2 ^ e else den in
    let q := a / b in
    let r := a mod b in
    let q' := if (b <? 2 * r) || ((b =? 2 * r) && Z.odd q) then q + 1 else q in
    let m := if q' =? 2 ^ 53 then 2 ^ 52 else q' in
    let e' := if q' =? 2 ^ 53 then e + 1 else e in
    if 971 <? e' then None else Some (Z.to_N m, e').

(** [m * 10^e] as a fraction. *)
Definition decimal_fraction (m : N) (e : Z) : Z * Z :=
  if 0 <=? e then (Z.of_N m * 10 ^ e, 1) else (Z.of_N m, 10 ^ (- e)).

Definition round_decimal (m : N) (e : Z) : option (N * Z) :=
  round_fraction (fst (decimal_fraction m e)) (snd (decimal_fraction m e)).

Definition binary_fraction (mant : N) (exp : Z) : Z * Z :=
  if 0 <=? exp then (Z.of_N mant * 2 ^ exp, 1) else (Z.of_N mant, 2 ^ (- exp)).

(** [num / den < 10^k] *)
Definition below_pow10 (num den k : Z) : bool :=
  if 0 <=? k then num <? den * 10 ^ k else num * 10 ^ (- k) <? den.

(** [floor (log10 (num / den))] *)
Definition floor_log10 (num den : Z) : Z :=
  let k := floor_log2 num den * 1233 / 4096 in
  if below_pow10 num den k then k - 1
  else if below_pow10 num den (k + 1) then k
  else k + 1.

(** [floor (num / den / 10^s)] *)
Definition floor_scaled (num den s : Z) : Z :=
  if 0 <=? s then num / (den * 10 ^ s) else num * 10 ^ (- s) / den.

(** [num / den <= (2 * lo + 1) * 10^s / 2]: [lo * 10^s] is at least as near
    to [num / den] as [(lo + 1) * 10^s]. *)
Definition nearer_low (num den lo s : Z) : bool :=
  if 0 <=? s then 2 * num <=? (2 * lo + 1) * 10 ^ s * den
  else 2 * num * 10 ^ (- s) <=? (2 * lo + 1) * den.

Definition reads_as (mant : N) (exp : Z) (c : N * Z) : bool :=
  match round_decimal (fst c) (snd c) with
  | Some (m, e) => (m =? mant)%N && (e =? exp)
  | None => false
  end.

(** The exact decimal expansion of [mant * 2^exp]. *)
Definition exact_decimal (mant : N) (exp : Z) : N * Z :=
  if 0 <=? exp then ((mant * 2 ^ Z.to_N exp)%N, 0)
  else ((mant * 5 ^ Z.to_N (- exp))%N, exp).

(** The decimals of [n], [n + 1], ... digits nearest to [mant * 2^exp], until
    one of them reads as the float. *)
Fixpoint shortest_from (fuel : nat) (mant : N) (exp : Z) (k n : Z) : N * Z :=
  match fuel with
  | O => exact_decimal mant exp
  | S fuel' =>
      let (num, den) := binary_fraction mant exp in
      let s := k - n + 1 in
      let lo := floor_scaled num den s in
      let c_lo := strip_trailing_zeros 20 (Z.to_N lo) s in
      let c_hi := strip_trailing_zeros 20 (Z.to_N (lo + 1)) s in
      let ok_lo := reads_as mant exp c_lo in
      let ok_hi := reads_as mant exp c_hi in
      if ok_lo && (negb ok_hi || nearer_low num den lo s) then c_lo
      else if ok_hi then c_hi
      else shortest_from fuel' mant exp k (n + 1)
  end.

(** The digits and the exponent that [repr] prints: the shortest decimal
    that reads as the float, and the nearest to it among those. *)
Definition shortest_decimal (mant : N) (exp : Z) : N * Z :=
  if (mant =? 0)%N then (0%N, 0)
  else
    let (num, den) := binary_fraction mant exp in
    shortest_from 17 mant exp (floor_log10 num den) 1.

Definition float_of_binary (b : binary64) : pyfloat :=
  let (m, e) := shortest_decimal (b_mant b) (b_exp b) in FFin (b_neg b) m e.

Definition float_of_decimal (m : N) (e : Z) : pyfloat :=
  match round_decimal m e with
  | Some (mant, exp) => float_of_binary (B64 false mant exp)
  | None => FInf false
  end.

(** The float that a decimal literal denotes. *)
Definition float_of_literal (ip fp : string) (ex : Z) : option pyfloat :=
  match N_of_digits (ip ++ fp) with
  | None => None
  | Some m => Some (float_of_decimal m (ex - Z.of_nat (String.length fp)))
  end.

Definition lex_number (s : string) : lex_step_result :=
  let (ip, r1) := span is_digit s in
  let '(has_dot, fp, r2) :=
    match r1 with
    | String c r' =>
        if Ascii.eqb c "." then let (fp, r2) := span is_digit r' in (true, fp, r2)
        else (false, EmptyString, r1)
    | EmptyString => (false, EmptyString, r1)
    end in
  let '(has_exp, ex, r3) :=
    match r2 with
    | String c r' =>
        if Ascii.eqb (to_lower c) "e" then
          let (neg, r'') := parse_sign r' in
          let (ed, r3) := span is_digit r'' in
          match N_of_digits ed with
          | Some n => (true, if neg then - Z.of_N n else Z.of_N n, r3)
          | None => (false, 0, r2)
          end
        else (false, 0, r2)
    | EmptyString => (false, 0, r2)
    end in
  if starts_with is_ident_char r3 then StepRaise HostUnmodelled
  else if has_dot || has_exp then
    match float_of_literal ip fp ex with
    | Some f => Tok (TFloat f) r3
    | None => StepRaise HostUnmodelled
    end
  else
    match N_of_digits ip with
    | None => StepRaise HostUnmodelled
    | Some n =>
        if (n =? 0)%N then Tok (TInt 0%N) r3
        else if starts_with (Ascii.eqb "0") ip then StepRaise SyntaxError
        else Tok (TInt n) r3
    end.

Definition op_chars : string := "+-*/%()[]{},:.;=<>!&|^~@".

(** One token at the head of [s], which is not empty and does not start with
    a blank. *)
Definition lex_step (s : string) : lex_step_result :=
  match s with
  | EmptyString => StepRaise HostUnmodelled
  | String c s' =>
      if is_ident_start c then
        let (name, rest) := span is_ident_char s in
        match rest with
        | String q rest' =>
            if is_quote_char q then
              match scan_string_body q rest' with
              | None => StepRaise SyntaxError
              | Some _ => StepRaise HostUnmodelled
              end
            else Tok (TName name) rest
        | EmptyString => Tok (TName name) rest
        end
      else if is_digit c || (Ascii.eqb c "." && starts_with is_digit s') then lex_number s
      else if is_quote_char c then lex_string c s'
      else if contains_char c op_chars then Tok (TOp c) s'
      else StepRaise HostUnmodelled
  end.

Definition is_blank (c : ascii) : bool :=
  Ascii.eqb c " " || Ascii.eqb c ch_tab.

Fixpoint lex (fuel : nat) (s : string) : lexed :=
  match fuel with
  | O => LexRaise HostUnmodelled
  | S k =>
      match lstrip is_blank s with
      | EmptyString => LexOk []
      | s' =>
          match lex_step s' with
          | StepRaise e => LexRaise e
          | Tok t rest =>
              match lex k rest with
              | LexOk ts => LexOk (t :: ts)
              | LexRaise e => LexRaise e
              end
          end
      end
  end.

Definition keywords : list string :=
  [ "False"; "None"; "True"; "and"; "as"; "assert"; "async"; "await"; "break";
    "class"; "continue"; "def"; "del"; "elif"; "else"; "except"; "finally";
    "for"; "from"; "global"; "if"; "import"; "in"; "is"; "lambda"; "nonlocal";
    "not"; "or"; "pass"; "raise"; "return"; "try"; "while"; "with"; "yield" ].

Definition is_keyword (n : string) : bool := existsb (String.eqb n) keywords.

Definition name_value (n : string) : lit_result :=
  if String.eqb n "None" then LitOk VNone
  else if String.eqb n "True" then LitOk (VBool true)
  else if String.eqb n "False" then LitOk (VBool false)
  else if is_keyword n then LitRaise SyntaxError
  else LitValueError.

Definition is_atom (t : token) : bool :=
  match t with
  | TName n => negb (is_keyword n)
  | TInt _ | TFloat _ => true
  | TStr _ | TOp _ => false
  end.

(** Two names or numbers side by side, with nothing between them: no
    expression has them. *)
Fixpoint adjacent_atoms (ts : list token) : bool :=
  match ts with
  | [] => false
  | t :: r => (is_atom t && match r with t' :: _ => is_atom t' | [] => false end)
              || adjacent_atoms r
  end.

Fixpoint dotted_tail (ts : list token) : bool :=
  match ts with
  | [] => true
  | TOp c :: TName n :: r => Ascii.eqb c "." && negb (is_keyword n) && dotted_tail r
  | _ => false
  end.

Definition float_neg (f : pyfloat) : pyfloat :=
  match f with
  | FFin neg m e => FFin (negb neg) m e
  | FInf neg => FInf (negb neg)
  | FNaN => FNaN
  end.

Definition signed_number (c : ascii) (t : token) : lit_result :=
  match t with
  | TInt n =>
      if Ascii.eqb c "-" then LitOk (VInt (- Z.of_N n))
      else if Ascii.eqb c "+" then LitOk (VInt (Z.of_N n))
      else LitRaise HostUnmodelled
  | TFloat f =>
      if Ascii.eqb c "-" then LitOk (VFloat (float_neg f))
      else if Ascii.eqb c "+" then LitOk (VFloat f)
      else LitRaise HostUnmodelled
  | _ => LitRaise HostUnmodelled
  end.

Definition parse_literal (ts : list token) : lit_result :=
  match ts with
  | [] => LitRaise SyntaxError
  | [TName n] => name_value n
  | [TInt n] => LitOk (VInt (Z.of_N n))
  | [TFloat f] => LitOk (VFloat f)
  | [TStr s] => LitOk (VStr s)
  | [TOp c; t] => signed_number c t
  | TName n :: TOp c :: r =>
      if negb (is_keyword n) && dotted_tail (TOp c :: r) then LitValueError
      else LitRaise HostUnmodelled
  | _ =>
      if adjacent_atoms ts then LitRaise SyntaxError
      else LitRaise HostUnmodelled
  end.

Definition literal_eval (s : string) : lit_result :=
  if starts_with is_space s then LitRaise HostUnmodelled
  else
    match lex (S (String.length s)) s with
    | LexOk ts => parse_literal ts
    | LexRaise e => LitRaise e
    end.

(** ** [_TypesHandler]: the value codec

    The handler keeps one mutable field, [__value]; every method updates it
    and returns the handler.  A method is modelled by a function from the
    field's value to its new value, or to the exception raised; the error
    records that three of the methods write before they raise are added
    further down ([quote_logged] and the like). *)

(** ["Decimal\('([^']+)'\)"] searched in [s]: the captured group. *)
Definition search_decimal_literal (s : string) : option string :=
  match re_search "Decimal('" ch_quote "')" s with
  | Some (_, g, _) => Some g
  | None => None
  end.

(** [_TypesHandler.__type_parser].  A group of the decimal literal that
    [Decimal_of_string] does not read and that holds a character outside
    ASCII is outside the modelled fragment. *)
Definition type_parser (v : value) : result value :=
  match v with
  | VStr s =>
      match search_decimal_literal s with
      | Some g =>
          match Decimal_of_string g with
          | Some d => Ok (VDecimal d)
          | None =>
              if ascii_text g then Raise InvalidOperation else Raise HostUnmodelled
          end
      | None =>
          match literal_eval s with
          | LitOk x => Ok x
          | LitValueError => Ok (VStr s)
          | LitRaise e => Raise e
          end
      end
  | _ => Raise TypeError
  end.

Definition Decimal_of_Z (z : Z) : decimal := DFin (z <? 0) (Z.abs_N z) 0.

(** [_TypesHandler.__to_decimal]: [Decimal(str(value))] for a float,
    [Decimal(value)] otherwise; [InvalidOperation] becomes [TypeError], and
    [Decimal(None)] raises [TypeError] by itself. *)
Definition to_decimal (v : value) : result value :=
  match v with
  | VFloat f =>
      match Decimal_of_string (str_float f) with
      | Some d => Ok (VDecimal d)
      | None => Raise TypeError
      end
  | VStr s =>
      match Decimal_of_string s with
      | Some d => Ok (VDecimal d)
      | None => Raise TypeError
      end
  | VInt z => Ok (VDecimal (Decimal_of_Z z))
  | VBool b => Ok (VDecimal (Decimal_of_Z (if b then 1 else 0)))
  | VDecimal d => Ok (VDecimal d)
  | VNone => Raise TypeError
  end.

(** [_TypesHandler.__to_string]: the table has the keys [str] and [Decimal];
    a [KeyError] on any other type falls back to [str(value)]. *)
Definition to_string (v : value) : result value :=
  match type_of v with
  | Tstr => Ok v
  | TDecimal => Ok (VStr ("Decimal('" ++ py_str v ++ "')"))
  | _ => Ok (VStr (py_str v))
  end.

(** [_TypesHandler.__quote]: the test ["'" in value] raises [TypeError] on a
    value that is not a string. *)
Definition quote (v : value) : result value :=
  match v with
  | VStr s =>
      if contains_char ch_quote s
      then Ok (VStr (str1 ch_dquote ++ s ++ str1 ch_dquote))
      else Ok (VStr (str1 ch_quote ++ s ++ str1 ch_quote))
  | _ => Raise TypeError
  end.

(** [_TypesHandler.__types_converting]: a string is parsed first, then the
    entry of the table of conversions for the three flags is run. *)
Definition types_converting (v : value) (as_decimal as_string quoting : bool)
    : result value :=
  v0 <- (if isinstance_str v then type_parser v else Ok v) ;;
  match as_decimal, as_string, quoting with
  | false, false, false => Ok v0
  | true, false, false => to_decimal v0
  | false, true, false => to_string v0
  | false, false, true => quote v0
  | true, true, false => v1 <- to_decimal v0 ;; to_string v1
  | false, true, true => v1 <- to_string v0 ;; quote v1
  | true, false, true => v1 <- to_decimal v0 ;; quote v1
  | true, true, true => v1 <- to_decimal v0 ;; v2 <- to_string v1 ;; quote v2
  end.

(** [type(x)(x)] for a value that is not [None]: [bool(b)], [int(z)],
    [float(f)], [Decimal(d)] and [str(s)] each return their argument. *)
Definition retype (v : value) : value := v.

(** [TypesManager.__new__] *)
Definition TypesManager (v : value) (as_decimal as_string quoting : bool)
    : result value :=
  new_val <- types_converting v as_decimal as_string quoting ;;
  match new_val with
  | VNone => Ok VNone
  | _ => Ok (retype new_val)
  end.

(** The two operations of the specification's ValueCodec. *)
Definition decode (text : value) : result value := type_parser text.

Definition encode (v : value) (as_decimal as_string quote : bool) : result value :=
  TypesManager v as_decimal as_string quote.

(** *** The error records of the handlers

    [__type_parser], [__to_decimal] and [__quote] call [logger.error] with a
    message before they raise their own [TypeError].  The functions above
    give the value or the exception of a method; the functions below also
    give the messages that it writes, in order.  [Decimal(None)] raises
    [TypeError] by itself, without a record. *)

(** [str(type(v))] *)
Definition type_repr (v : value) : string :=
  match type_of v with
  | TNoneType => "<class 'NoneType'>"
  | Tbool => "<class 'bool'>"
  | Tint => "<class 'int'>"
  | Tfloat => "<class 'float'>"
  | TDecimal => "<class 'decimal.Decimal'>"
  | Tstr => "<class 'str'>"
  end.

(** The messages written, and the outcome. *)
Definition logged (A : Type) : Type := (list string * result A)%type.

Definition silent {A : Type} (r : result A) : logged A := ([], r).

Definition lbind {A B : Type} (m : logged A) (k : A -> logged B) : logged B :=
  match m with
  | (l, Ok a) => (l ++ fst (k a), snd (k a))%list
  | (l, Raise e) => (l, Raise e)
  end.

Definition type_parser_logged (v : value) : logged value :=
  match v with
  | VStr _ => silent (type_parser v)
  | _ =>
      (["Cannot parse non-string (" ++ py_str v ++ ", " ++ type_repr v ++ ")."],
       Raise TypeError)
  end.

Definition to_decimal_logged (v : value) : logged value :=
  match v, to_decimal v with
  | (VFloat _ | VStr _), Raise _ =>
      (["Cannot convert (" ++ py_str v ++ ", " ++ type_repr v ++ ") to Decimal."],
       Raise TypeError)
  | _, r => silent r
  end.

Definition quote_logged (v : value) : logged value :=
  match v with
  | VStr _ => silent (quote v)
  | _ =>
      (["Cannot quoting (" ++ py_str v ++ ", " ++ type_repr v
          ++ "), use also 'to_string' option."],
       Raise TypeError)
  end.

Definition types_converting_logged (v : value) (as_decimal as_string quoting : bool)
    : logged value :=
  lbind (if isinstance_str v then type_parser_logged v else silent (Ok v))
    (fun v0 =>
       match as_decimal, as_string, quoting with
       | false, false, false => silent (Ok v0)
       | true, false, false => to_decimal_logged v0
       | false, true, false => silent (to_string v0)
       | false, false, true => quote_logged v0
       | true, true, false =>
           lbind (to_decimal_logged v0) (fun v1 => silent (to_string v1))
       | false, true, true =>
           lbind (silent (to_string v0)) quote_logged
       | true, false, true =>
           lbind (to_decimal_logged v0) quote_logged
       | true, true, true =>
           lbind (to_decimal_logged v0)
             (fun v1 => lbind (silent (to_string v1)) quote_logged)
       end).

Definition TypesManager_logged (v : value) (as_decimal as_string quoting : bool)
    : logged value :=
  lbind (types_converting_logged v as_decimal as_string quoting)
    (fun new_val =>
       match new_val with
       | VNone => silent (Ok VNone)
       | _ => silent (Ok (retype new_val))
       end).

(** A handler writes a record only when it raises. *)
Definition quiet_unless_raised {A : Type} (c : logged A) : Prop :=
  (exists e, snd c = Raise e) \/ fst c = [].

(** ** The world: files, the memo of [db_access], and what was done

    [config_file] is the text of the file at [CONFIG_DIR] ([None]: no such
    file); [credentials_file] is the file at [CREDENTIALS_DIR], through the
    outcome of loading the three fields from it; [sqlite_db_file] tells
    whether the SQLite database file exists; [engine_string] is the
    attribute that [db_access] sets on itself.  [events] records every
    access to a file or to the session, and every log record, in order. *)

Inductive level : Type := INFO | WARNING | ERROR.

Inductive event : Type :=
| EvConfigOpen
| EvConfigWrite (data : string)
| EvCredIsFile
| EvCredOpen
| EvSqliteIsFile
| EvSqliteUnlink
| EvSession
| EvExecutePragma
| EvCommit
| EvRollback
| EvClose
| EvLog (lvl : level) (msg : string).

Record credentials : Type := {
  login : string;
  password : string;
  db_name : string
}.

Record world : Type := {
  config_file : option string;
  credentials_file : option (result credentials);
  sqlite_db_file : bool;
  engine_string : option string;
  events : list event
}.

Definition M (A : Type) : Type := world -> result A * world.

Definition ret {A : Type} (a : A) : M A := fun w => (Ok a, w).

Definition raise {A : Type} (e : exn) : M A := fun w => (Raise e, w).

Definition lift {A : Type} (r : result A) : M A := fun w => (r, w).

Definition mbind {A B : Type} (m : M A) (k : A -> M B) : M B :=
  fun w =>
    match m w with
    | (Ok a, w') => k a w'
    | (Raise e, w') => (Raise e, w')
    end.

Notation "x <~ m ;; k" := (mbind m (fun x => k))
  (at level 61, m at next level, right associativity).
Notation "m ;;; k" := (mbind m (fun _ => k))
  (at level 61, right associativity).

(** [try: m  except <the exceptions that catches accepts> as e: h e] *)
Definition try_except {A : Type} (m : M A) (catches : exn -> bool)
    (h : exn -> M A) : M A :=
  fun w =>
    match m w with
    | (Ok a, w') => (Ok a, w')
    | (Raise e, w') => if catches e then h e w' else (Raise e, w')
    end.

(** [try: m  finally: f]: [f] runs on every path; an exception of [f]
    replaces the outcome of [m]. *)
Definition try_finally {A : Type} (m : M A) (f : M unit) : M A :=
  fun w =>
    let (r, w') := m w in
    match f w' with
    | (Ok _, w'') => (r, w'')
    | (Raise e, w'') => (Raise e, w'')
    end.

Definition emit (ev : event) : M unit :=
  fun w =>
    (Ok tt,
     {| config_file := config_file w;
        credentials_file := credentials_file w;
        sqlite_db_file := sqlite_db_file w;
        engine_string := engine_string w;
        events := (events w ++ [ev])%list |}).

Definition log (lvl : level) (msg : string) : M unit := emit (EvLog lvl msg).

(** A call of the codec from a function that runs in the world: the
    messages of the handlers are written to the log at the level [ERROR]. *)
Fixpoint log_errors (msgs : list string) : M unit :=
  match msgs with
  | [] => ret tt
  | msg :: msgs' => log ERROR msg ;;; log_errors msgs'
  end.

Definition call {A : Type} (c : logged A) : M A :=
  log_errors (fst c) ;;; lift (snd c).

Definition is_FileNotFoundError (e : exn) : bool :=
  match e with FileNotFoundError => true | _ => false end.

Definition is_OperationalError (e : exn) : bool :=
  match e with OperationalError => true | _ => false end.

(** [v == s] and [v != s] for a string [s]. *)
Definition eq_str (v : value) (s : string) : bool :=
  match v with
  | VStr t => String.eqb t s
  | _ => false
  end.

(** [open(CONFIG_DIR, 'r+')] followed by [read()]. *)
Definition read_config : M string :=
  emit EvConfigOpen ;;;
  fun w =>
    match config_file w with
    | Some data => (Ok data, w)
    | None => (Raise FileNotFoundError, w)
    end.

(** [seek(0)], [truncate()], [write(data)], [close()]. *)
Definition write_config (data : string) : M unit :=
  emit (EvConfigWrite data) ;;;
  fun w =>
    (Ok tt,
     {| config_file := Some data;
        credentials_file := credentials_file w;
        sqlite_db_file := sqlite_db_file w;
        engine_string := engine_string w;
        events := events w |}).

(** The pattern [(?P<name>{param}) = (?P<value>.+)\n] searched in the text
    of the file, for a [param] without any character that is special in a
    regular expression: [(pre, value, post)]. *)
Definition search_param (param data : string) : option (string * string * string) :=
  re_search (param ++ " = ") ch_newline (str1 ch_newline) data.

(** The characters that are special in a pattern. *)
Definition regex_special : string := ".^$*+?{}[]\|()".

Definition plain_name (param : string) : bool :=
  string_forallb (fun c => negb (contains_char c regex_special)) param.

(** ** [config_manager] ([shortcircuitcalc/tools/tools.py]) *)

(** The text written for a new value: the value goes through [TypesManager]
    first; a string is then quoted, and the lookup of any other type in the
    table of formats raises [KeyError], whose handler renders the value as
    a string. *)
Definition render (new_val : value) : result string :=
  v1 <- TypesManager new_val false false false ;;
  v2 <- match type_of v1 with
        | Tstr => TypesManager v1 false false true
        | _ => TypesManager v1 false true false
        end ;;
  Ok (py_str v2).

(** The same, with the error records of the handlers. *)
Definition render_logged (new_val : value) : logged string :=
  lbind (TypesManager_logged new_val false false false)
    (fun v1 =>
       lbind (match type_of v1 with
              | Tstr => TypesManager_logged v1 false false true
              | _ => TypesManager_logged v1 false true false
              end)
         (fun v2 => silent (Ok (py_str v2)))).

Definition config_manager (param : string) (new_val : value) : M value :=
  current_config_data <~ read_config ;;
  match search_param param current_config_data, new_val with
  | Some (_, value, _), VNone =>
      call (TypesManager_logged (VStr value) false false false)
  | None, _ => ret VNone
  | Some (_, value, _), _ =>
      txt <~ call (render_logged new_val) ;;
      write_config (replace_first (param ++ " = " ++ value)
                                  (param ++ " = " ++ txt)
                                  current_config_data) ;;;
      log WARNING ("Config params changed: now " ++ param ++ " = " ++ txt ++ "!") ;;;
      ret VNone
  end.

(** The two operations of the specification's ConfigStore. *)
Definition config_get (name : string) : M value := config_manager name VNone.
Definition config_set (name : string) (v : value) : M value := config_manager name v.

(** ** The transaction scope ([shortcircuitcalc/tools/tools.py])

    [session_behaviour] says which of the operations of the session raise,
    and what: [Session()], [execute], [commit], [rollback] and [close]. *)

Record session_behaviour : Type := {
  on_session : option exn;
  on_execute : option exn;
  on_commit : option exn;
  on_rollback : option exn;
  on_close : option exn
}.

Definition session_op (ev : event) (outcome : option exn) : M unit :=
  emit ev ;;;
  match outcome with
  | None => ret tt
  | Some e => raise e
  end.

Definition exn_name (e : exn) : string :=
  match e with
  | ValueError => "ValueError"
  | SyntaxError => "SyntaxError"
  | TypeError => "TypeError"
  | KeyError => "KeyError"
  | AttributeError => "AttributeError"
  | InvalidOperation => "InvalidOperation"
  | FileNotFoundError => "FileNotFoundError"
  | OperationalError => "OperationalError"
  | RecursionError => "RecursionError"
  | HostUnmodelled => "HostUnmodelled"
  | OtherError name => name
  end.

(** What the scope does inside its [try] before the [yield]. *)
Definition scope_prologue (sb : session_behaviour) : M unit :=
  v <~ config_manager "DB_EXISTING_CONNECTION" VNone ;;
  if eq_str v "SQLite"
  then session_op EvExecutePragma (on_execute sb)
  else ret tt.

(** [session_scope(logs)] around the unit of work [body], which runs at the
    [yield]: an exception of the body is raised at the [yield]. *)
Definition session_scope (sb : session_behaviour) (logs : bool) (body : M unit)
    : M unit :=
  session_op EvSession (on_session sb) ;;;
  try_finally
    (try_except
       (scope_prologue sb ;;;
        body ;;;
        session_op EvCommit (on_commit sb))
       is_OperationalError
       (fun err =>
          session_op EvRollback (on_rollback sb) ;;;
          (if logs then log ERROR (exn_name err) else ret tt) ;;;
          raise err))
    (session_op EvClose (on_close sb)).

(** ** The connection resolver ([ShortCircuitCalc/tools/tools.py])

    This older variant of the module has its own [config_manager], which
    differs in how the new value is rendered, and the [db_access] with the
    fallback and the retry. *)

Module Legacy.

(** The table of formats has the keys [str] and [Decimal]; a value of any
    other type is written by the f-string as it is. *)
Definition render (new_val : value) : result string :=
  v <- match type_of new_val with
       | Tstr => TypesManager new_val false false true
       | TDecimal => TypesManager new_val false true false
       | _ => Ok new_val
       end ;;
  Ok (py_str v).

(** The same, with the error records of the handlers. *)
Definition render_logged (new_val : value) : logged string :=
  lbind (match type_of new_val with
         | Tstr => TypesManager_logged new_val false false true
         | TDecimal => TypesManager_logged new_val false true false
         | _ => silent (Ok new_val)
         end)
    (fun v => silent (Ok (py_str v))).

Definition config_manager (param : string) (new_val : value) : M value :=
  current_config_data <~ read_config ;;
  match search_param param current_config_data, new_val with
  | Some (_, value, _), VNone =>
      call (TypesManager_logged (VStr value) false false false)
  | None, _ => ret VNone
  | Some (_, value, _), _ =>
      txt <~ call (render_logged new_val) ;;
      write_config (replace_first (param ++ " = " ++ value)
                                  (param ++ " = " ++ txt)
                                  current_config_data) ;;;
      log WARNING ("Config params changed: now " ++ param ++ " = " ++ txt ++ "!") ;;;
      ret VNone
  end.

(** The three entries of [connection_types]. *)
Inductive access : Type := no_db_access | mysql_access | sqlite_access.

(** [v == False], as the lookup of a key in a dictionary decides it: the
    numbers equal to zero are equal to [False]. *)
Definition eq_False (v : value) : bool :=
  match v with
  | VBool b => negb b
  | VInt z => z =? 0
  | VFloat (FFin _ m _) => (m =? 0)%N
  | VDecimal (DFin _ c _) => (c =? 0)%N
  | _ => false
  end.

(** [connection_types[key]]: the keys are [False], ['MySQL'] and ['SQLite'];
    a signaling NaN cannot be hashed. *)
Definition connection_types (key : value) : result access :=
  match key with
  | VDecimal (DNaN _ true _) => Raise TypeError
  | _ =>
      if eq_False key then Ok no_db_access
      else if eq_str key "MySQL" then Ok mysql_access
      else if eq_str key "SQLite" then Ok sqlite_access
      else Raise KeyError
  end.

Definition set_sqlite_db_file (b : bool) : M unit :=
  fun w =>
    (Ok tt,
     {| config_file := config_file w;
        credentials_file := credentials_file w;
        sqlite_db_file := b;
        engine_string := engine_string w;
        events := events w |}).

Definition set_engine_string (s : string) : M unit :=
  fun w =>
    (Ok tt,
     {| config_file := config_file w;
        credentials_file := credentials_file w;
        sqlite_db_file := sqlite_db_file w;
        engine_string := Some s;
        events := events w |}).

(** [CREDENTIALS_DIR.is_file()] *)
Definition credentials_is_file : M bool :=
  emit EvCredIsFile ;;;
  fun w =>
    (Ok (match credentials_file w with Some _ => true | None => false end), w).

(** [open(CREDENTIALS_DIR)] and the three fields of
    [json.load(file)['db_access']]. *)
Definition load_credentials : M credentials :=
  emit EvCredOpen ;;;
  fun w =>
    match credentials_file w with
    | Some r => (r, w)
    | None => (Raise FileNotFoundError, w)
    end.

(** [path_link.is_file()] and [path_link.unlink()] for the SQLite file. *)
Definition sqlite_is_file : M bool :=
  emit EvSqliteIsFile ;;; fun w => (Ok (sqlite_db_file w), w).

Definition sqlite_unlink : M unit :=
  emit EvSqliteUnlink ;;; set_sqlite_db_file false.

Section Resolver.

(** The constants of [ShortCircuitCalc.config], which is not part of the
    sources at hand. *)
Variable ROOT_DIR : string.
Variable SQLITE_DB_NAME : string.

Definition run_mysql_access : M string :=
  c <~ load_credentials ;;
  let engine_string :=
    "mysql+pymysql://" ++ login c ++ ":" ++ password c ++ "@localhost/"
      ++ db_name c ++ "?charset=utf8mb4" in
  present <~ sqlite_is_file ;;
  (if present
   then sqlite_unlink ;;;
        log WARNING ("Existing SQLite database '" ++ SQLITE_DB_NAME ++ "' deleted!")
   else ret tt) ;;;
  log INFO "Connected to MySQL database." ;;;
  v <~ config_manager "DB_EXISTING_CONNECTION" VNone ;;
  (if negb (eq_str v "MySQL")
   then config_manager "DB_EXISTING_CONNECTION" (VStr "MySQL") ;;; ret tt
   else ret tt) ;;;
  ret engine_string.

Definition run_sqlite_access : M string :=
  log INFO "Connected to SQLite database." ;;;
  v <~ config_manager "DB_EXISTING_CONNECTION" VNone ;;
  (if negb (eq_str v "SQLite")
   then config_manager "DB_EXISTING_CONNECTION" (VStr "SQLite") ;;; ret tt
   else ret tt) ;;;
  ret ("sqlite:///" ++ ROOT_DIR ++ "/" ++ SQLITE_DB_NAME).

Definition run_no_db_access : M string :=
  log WARNING "Existing connection not found!" ;;;
  try_except
    (log INFO "Accessing MySQL database..." ;;;
     log INFO "Credentials initializing..." ;;;
     run_mysql_access)
    is_FileNotFoundError
    (fun _ =>
       log WARNING "Credentials file for MySQL database not found!" ;;;
       log INFO "Accessing SQLite database..." ;;;
       run_sqlite_access).

Definition run_access (a : access) : M string :=
  match a with
  | no_db_access => run_no_db_access
  | mysql_access => run_mysql_access
  | sqlite_access => run_sqlite_access
  end.

(** [db_access.engine_string], read: [AttributeError] when it is not set. *)
Definition get_engine_string : M string :=
  fun w =>
    match engine_string w with
    | Some s => (Ok s, w)
    | None => (Raise AttributeError, w)
    end.

(** [db_access()].  The function calls itself in the handler of
    [FileNotFoundError]; [fuel] bounds the depth of these calls, as the
    interpreter's recursion limit does. *)
Fixpoint db_access (fuel : nat) : M string :=
  fun w =>
    match engine_string w with
    | Some s => (Ok s, w)
    | None =>
        match fuel with
        | O => (Raise RecursionError, w)
        | S fuel' =>
            (try_except
               (is_file <~ credentials_is_file ;;
                s <~ (if is_file then run_access mysql_access
                      else v <~ config_manager "DB_EXISTING_CONNECTION" VNone ;;
                           a <~ lift (connection_types v) ;;
                           run_access a) ;;
                set_engine_string s)
               is_FileNotFoundError
               (fun _ =>
                  config_manager "DB_EXISTING_CONNECTION" (VBool false) ;;;
                  log WARNING
                    ("The config 'DB_EXISTING_CONNECTION' parameter has been reset. "
                       ++ "Retrying database connection...") ;;;
                  db_access fuel' ;;;
                  ret tt) ;;;
             get_engine_string) w
        end
    end.

End Resolver.

End Legacy.

(** ** Worlds used in the statements *)

(** [w] after the events [l]. *)
Definition add_events (w : world) (l : list event) : world :=
  {| config_file := config_file w;
     credentials_file := credentials_file w;
     sqlite_db_file := sqlite_db_file w;
     engine_string := engine_string w;
     events := (events w ++ l)%list |}.

(** [w] with the text [data] in the configuration file. *)
Definition with_config (w : world) (data : string) : world :=
  {| config_file := Some data;
     credentials_file := credentials_file w;
     sqlite_db_file := sqlite_db_file w;
     engine_string := engine_string w;
     events := events w |}.

(** A fresh process: a configuration file, no credentials, no SQLite file,
    nothing memoised, nothing done yet. *)
Definition world_of_config (data : string) : world :=
  {| config_file := Some data;
     credentials_file := None;
     sqlite_db_file := false;
     engine_string := None;
     events := [] |}.

Definition line (name value : string) : string :=
  name ++ " = " ++ value ++ str1 ch_newline.

(** ** The configuration file as the specification describes it

    The specification reads the file as lines of the shape [NAME = VALUE],
    and looks a parameter up by the exact name of a line.  These definitions
    follow the specification's words; they are compared below with what the
    search of [config_manager] finds. *)

(** The lines of a text that end with a newline. *)
Fixpoint lines_from (cur : string) (s : string) : list string :=
  match s with
  | EmptyString => []
  | String c s' =>
      if Ascii.eqb c ch_newline then cur :: lines_from EmptyString s'
      else lines_from (cur ++ str1 c) s'
  end.

Definition lines (s : string) : list string := lines_from EmptyString s.

(** The value of a line whose name is exactly [name]. *)
Definition line_value (name l : string) : option string :=
  match strip_prefix (name ++ " = ") l with
  | Some v => if is_empty v then None else Some v
  | None => None
  end.

(** The value of the first line named [name]. *)
Fixpoint first_value (name : string) (ls : list string) : option string :=
  match ls with
  | [] => None
  | l :: ls' =>
      match line_value name l with
      | Some v => Some v
      | None => first_value name ls'
      end
  end.

Definition spec_lookup (name data : string) : option string :=
  first_value name (lines data).

(** ** The shape of a numeric string

    A sign, the digits of the integer part, an optional fraction after a
    dot, and an optional exponent after the marker [E].  [str_decimal]
    prints a finite decimal in this shape, and [parse_decimal] reads it. *)
Definition num_string (E : string) (neg : bool) (ip fd : string) (has_frac : bool)
    (ex : option Z) : string :=
  sign_str neg ++ ip ++ (if has_frac then "." ++ fd else "")
    ++ match ex with
       | None => ""
       | Some e => E ++ str_signed e
       end.

(** The characters that are neither removed by the cleaning of
    [Decimal_of_string] nor changed by its lowering of the case. *)
Definition plain_char (c : ascii) : bool :=
  negb (is_space c) && negb (Ascii.eqb c "_").

Definition sign_digit_char (c : ascii) : bool :=
  is_digit c || Ascii.eqb c "." || Ascii.eqb c "-" || Ascii.eqb c "+".

(** The characters of the strings that [str] prints for a number. *)
Definition number_char (c : ascii) : bool := sign_digit_char c || is_alpha c.

(** ** The round trip of the codec *)

(** [decode(encode(v, as_string=True))] *)
Definition round_trip (v : value) : result value :=
  x <- encode v false true false ;; decode x.

(** The exponent part of a float literal, as [repr] prints it. *)
Definition exp_part (ex : option Z) : string :=
  match ex with
  | None => ""
  | Some z => "e" ++ str_float_exp z
  end.

(** The finite floats: [f] is the float of a canonical binary64 number. *)
Definition is_float (f : pyfloat) : Prop :=
  exists b : binary64, canonical b = true /\ f = float_of_binary b.

(** The values for which the round trip is stated: a text that [decode]
    retains as it is, every finite float, and every boolean, integer,
    decimal and [None]. *)
Definition reads_back (v : value) : Prop :=
  match v with
  | VStr s => decode (VStr s) = Ok (VStr s)
  | VFloat f => is_float f
  | VNone | VBool _ | VInt _ | VDecimal _ => True
  end.

(** ** [db_access] ([shortcircuitcalc/tools/tools.py])

    The current variant has no fallback: it looks the stored backend up in a
    table of two entries, and any exception makes it log an error and return
    [None].  The attribute [db_access.engine_string] can hold [None] here
    (what [__mysql_access] returns without a credentials file), so it is
    passed explicitly: [None] when the attribute is not set, [Some s] when it
    holds [s]. *)

Module Current.

Inductive access : Type := mysql_access | sqlite_access.

(** [connection_types[key]]: the keys are ['MySQL'] and ['SQLite']; a
    signaling NaN cannot be hashed. *)
Definition connection_types (key : value) : result access :=
  match key with
  | VDecimal (DNaN _ true _) => Raise TypeError
  | _ =>
      if eq_str key "MySQL" then Ok mysql_access
      else if eq_str key "SQLite" then Ok sqlite_access
      else Raise KeyError
  end.

(** [except (Exception,)]: every exception of the model is an
    [Exception]. *)
Definition is_Exception (e : exn) : bool := true.

Section Resolver.

(** The constant of [shortcircuitcalc.config], which is not part of the
    sources at hand. *)
Variable ROOT_DIR : string.

Definition run_mysql_access : M (option string) :=
  log INFO "Accessing MySQL database..." ;;;
  log INFO "Credentials initializing..." ;;;
  try_except
    (c <~ Legacy.load_credentials ;;
     let engine_string :=
       "mysql+pymysql://" ++ login c ++ ":" ++ password c ++ "@localhost/"
         ++ db_name c ++ "?charset=utf8mb4" in
     log INFO "Connected to MySQL database." ;;;
     v <~ config_manager "DB_EXISTING_CONNECTION" VNone ;;
     (if negb (eq_str v "MySQL")
      then config_manager "DB_EXISTING_CONNECTION" (VStr "MySQL") ;;; ret tt
      else ret tt) ;;;
     ret (Some engine_string))
    is_FileNotFoundError
    (fun _ =>
       log ERROR ("Credentials file for MySQL database not found! "
                    ++ "Try to choose another connection.") ;;;
       ret None).

Definition run_sqlite_access : M (option string) :=
  log INFO "Connected to SQLite database." ;;;
  v <~ config_manager "DB_EXISTING_CONNECTION" VNone ;;
  (if negb (eq_str v "SQLite")
   then config_manager "DB_EXISTING_CONNECTION" (VStr "SQLite") ;;; ret tt
   else ret tt) ;;;
  name <~ config_manager "SQLITE_DB_NAME" VNone ;;
  ret (Some ("sqlite:///" ++ ROOT_DIR ++ "/" ++ py_str name)).

Definition run_access (a : access) : M (option string) :=
  match a with
  | mysql_access => run_mysql_access
  | sqlite_access => run_sqlite_access
  end.

(** [db_access()]: the result and the attribute after the call. *)
Definition db_access (attr : option (option string))
    : M (option string * option (option string)) :=
  match attr with
  | Some s => ret (s, attr)
  | None =>
      try_except
        (v <~ config_manager "DB_EXISTING_CONNECTION" VNone ;;
         a <~ lift (connection_types v) ;;
         s <~ run_access a ;;
         ret (s, Some s))
        is_Exception
        (fun _ =>
           log ERROR ("Something wrong with access to current database. "
                        ++ "Try to choose another connection and restart program.") ;;;
           ret (None, None))
  end.

End Resolver.

(** [logging_error(func)]: the wrapper calls [func], logs any exception and
    returns [None] in every case. *)
Definition logging_error {A : Type} (func : M A) : M unit :=
  try_except (func ;;; ret tt) is_Exception (fun err => log ERROR (exn_name err)).

End Current.

(** ** [session_scope] ([ShortCircuitCalc/tools/tools.py])

    The older variant of the scope does not look at the stored backend. *)

Module LegacyScope.

Definition session_scope (sb : session_behaviour) (logs : bool) (body : M unit)
    : M unit :=
  session_op EvSession (on_session sb) ;;;
  try_finally
    (try_except
       (body ;;;
        session_op EvCommit (on_commit sb))
       is_OperationalError
       (fun err =>
          session_op EvRollback (on_rollback sb) ;;;
          (if logs then log ERROR (exn_name err) else ret tt) ;;;
          raise err))
    (session_op EvClose (on_close sb)).

End LegacyScope.

(** ** Notions used in the further properties of [config_manager] *)

(** [p in s] for two strings. *)
Fixpoint occurs (p s : string) : bool :=
  match strip_prefix p s with
  | Some _ => true
  | None =>
      match s with
      | EmptyString => false
      | String _ s' => occurs p s'
      end
  end.

(** [p] occurs in [s] somewhere else than at the start of a line;
    [at_start] tells whether [s] begins at the start of a line. *)
Fixpoint occurs_off_start (p : string) (at_start : bool) (s : string) : bool :=
  match s with
  | EmptyString => false
  | String c s' =>
      (negb at_start && match strip_prefix p s with Some _ => true | None => false end)
      || occurs_off_start p (Ascii.eqb c ch_newline) s'
  end.

(** The group of a match. *)
Definition found_value (r : option (string * string * string)) : option string :=
  match r with
  | Some (_, value, _) => Some value
  | None => None
  end.

(** A boolean, an integer or a decimal. *)
Definition scalar_kind (v : value) : bool :=
  match v with
  | VBool _ | VInt _ | VDecimal _ => true
  | VNone | VFloat _ | VStr _ => false
  end.

(** A text that can stand between single quotes in a literal without an
    escape: no single quote, no backslash, no control character. *)
Definition quotable (s : string) : bool :=
  negb (contains_char ch_quote s) && negb (contains_char ch_backslash s)
  && string_forallb (fun c => negb (is_control c)) s.

(** * Properties *)

(** ** Strings *)

Lemma bind_Ok_inv {A B : Type} (r : result A) (k : A -> result B) (b : B) :
  bind r k = Ok b -> exists a, r = Ok a /\ k a = Ok b.
Proof.
  destruct r as [a|e]; simpl; intros H; [exists a; auto | discriminate].
Qed.

Lemma append_nil_r (s : string) : s ++ "" = s.
Proof. induction s; simpl; congruence. Qed.

Lemma append_assoc (a b c : string) : (a ++ b) ++ c = a ++ b ++ c.
Proof. induction a; simpl; congruence. Qed.

Lemma length_append (a b : string) :
  String.length (a ++ b) = (String.length a + String.length b)%nat.
Proof. induction a; simpl; congruence. Qed.

Lemma strip_prefix_app (p s : string) : strip_prefix p (p ++ s) = Some s.
Proof.
  induction p as [|c p IH]; simpl; [reflexivity|].
  now rewrite Ascii.eqb_refl.
Qed.

Lemma strip_prefix_Some (p s r : string) :
  strip_prefix p s = Some r -> s = p ++ r.
Proof.
  revert s; induction p as [|c p IH]; intros s; simpl.
  - now intros [= ->].
  - destruct s as [|d s]; [discriminate|].
    destruct (Ascii.eqb_spec c d) as [->|]; [|discriminate].
    intros H; simpl; f_equal; auto.
Qed.

(** Two ways of cutting one string: the shorter first part is a prefix of
    the longer. *)
Lemma append_eq_append (u v w z : string) :
  u ++ v = w ++ z -> (String.length u <= String.length w)%nat ->
  exists x, w = u ++ x /\ v = x ++ z.
Proof.
  revert w; induction u as [|c u IH]; intros w H L; simpl in *.
  - exists w; auto.
  - destruct w as [|d w]; simpl in *; [lia|].
    injection H as -> H.
    destruct (IH w H ltac:(lia)) as (x & -> & ->).
    exists x; auto.
Qed.

Lemma span_eq (f : ascii -> bool) (s a b : string) :
  span f s = (a, b) ->
  s = a ++ b /\ string_forallb f a = true /\ starts_with f b = false.
Proof.
  revert a b; induction s as [|c s IH]; intros a b; simpl.
  - intros [= <- <-]; auto.
  - destruct (f c) eqn:E.
    + destruct (span f s) as [a' b'] eqn:Es.
      intros [= <- <-].
      destruct (IH a' b' eq_refl) as (-> & Ha & Hb).
      simpl; rewrite E; auto.
    + intros [= <- <-]; simpl; rewrite E; auto.
Qed.

Lemma span_app (f : ascii -> bool) (a b : string) :
  string_forallb f a = true -> starts_with f b = false ->
  span f (a ++ b) = (a, b).
Proof.
  intros Ha Hb; induction a as [|c a IH]; simpl in *.
  - destruct b as [|d b]; simpl in *; [reflexivity|now rewrite Hb].
  - apply andb_prop in Ha as [-> Ha]. now rewrite IH.
Qed.

(** [span] over a concatenation: it stops inside the first part, or runs
    through it into the second. *)
Lemma span_append (f : ascii -> bool) (x y : string) :
  span f (x ++ y) =
    match snd (span f x) with
    | EmptyString => (x ++ fst (span f y), snd (span f y))
    | r => (fst (span f x), r ++ y)
    end.
Proof.
  induction x as [|c x IH]; simpl.
  - now destruct (span f y).
  - destruct (f c) eqn:E; [|reflexivity].
    rewrite IH. destruct (span f x) as [a b]; simpl.
    now destruct b.
Qed.

Lemma string_forallb_app (f : ascii -> bool) (a b : string) :
  string_forallb f (a ++ b) = string_forallb f a && string_forallb f b.
Proof.
  induction a as [|c a IH]; simpl; [reflexivity|].
  now rewrite IH, andb_assoc.
Qed.

Lemma string_forallb_impl (f g : ascii -> bool) (s : string) :
  (forall c, f c = true -> g c = true) ->
  string_forallb f s = true -> string_forallb g s = true.
Proof.
  intros H; induction s as [|c s IH]; simpl; [reflexivity|].
  intros [Hc Hs]%andb_prop. now rewrite (H c Hc), IH.
Qed.

Lemma contains_char_app (c : ascii) (a b : string) :
  contains_char c (a ++ b) = contains_char c a || contains_char c b.
Proof.
  induction a as [|d a IH]; simpl; [reflexivity|].
  now rewrite IH, orb_assoc.
Qed.

(** A string without the character [c], said with [string_forallb]. *)
Lemma contains_char_false (c : ascii) (s : string) :
  contains_char c s = false <->
  string_forallb (fun a => negb (Ascii.eqb a c)) s = true.
Proof.
  induction s as [|d s IH]; simpl; [tauto|].
  destruct (Ascii.eqb d c); simpl; [split; discriminate|exact IH].
Qed.

(** ** The search of a pattern and the replacement of its first match *)

Section Search.

Variables (prefix : string) (stop : ascii) (suffix : string).

Lemma match_here_Some (s g post : string) :
  match_here prefix stop suffix s = Some (g, post) ->
  s = prefix ++ g ++ suffix ++ post /\ g <> "" /\ contains_char stop g = false.
Proof.
  unfold match_here.
  destruct (strip_prefix prefix s) as [r|] eqn:Hp; [|discriminate].
  destruct (span _ r) as [g0 t] eqn:Hs.
  destruct (is_empty g0) eqn:He; [discriminate|].
  destruct (strip_prefix suffix t) as [post0|] eqn:Ht; [|discriminate].
  intros [= <- <-].
  apply strip_prefix_Some in Hp, Ht. apply span_eq in Hs as (-> & Hg & _).
  subst. repeat split.
  - intros ->; discriminate.
  - now apply contains_char_false.
Qed.

Lemma re_search_Some (s pre g post : string) :
  re_search prefix stop suffix s = Some (pre, g, post) ->
  s = pre ++ prefix ++ g ++ suffix ++ post /\ g <> "" /\ contains_char stop g = false.
Proof.
  revert pre; induction s as [|c s IH]; intros pre; simpl.
  - destruct (match_here prefix stop suffix "") as [[g0 p0]|] eqn:Hm; [|discriminate].
    intros [= <- <- <-]. now apply match_here_Some.
  - destruct (match_here prefix stop suffix (String c s)) as [[g0 p0]|] eqn:Hm.
    + intros [= <- <- <-]. now apply match_here_Some.
    + destruct (re_search prefix stop suffix s) as [[[pre0 g0] p0]|]; [|discriminate].
      intros [= <- <- <-].
      destruct (IH pre0 eq_refl) as (-> & Hg); auto.
Qed.

(** The match that [re_search] returns is the leftmost one: the pattern
    matches at no position before it. *)
Lemma re_search_leftmost (s pre g post : string) :
  re_search prefix stop suffix s = Some (pre, g, post) ->
  forall a b, pre = a ++ b -> b <> "" ->
  match_here prefix stop suffix (b ++ prefix ++ g ++ suffix ++ post) = None.
Proof.
  revert pre; induction s as [|c s IH]; intros pre; simpl.
  - destruct (match_here prefix stop suffix "") as [[g0 p0]|]; [|discriminate].
    intros [= <- <- <-] a b Hab Hb.
    destruct a; destruct b; simpl in Hab; congruence.
  - destruct (match_here prefix stop suffix (String c s)) as [[g0 p0]|] eqn:Hm.
    + intros [= <- <- <-] a b Hab Hb.
      destruct a; destruct b; simpl in Hab; congruence.
    + destruct (re_search prefix stop suffix s) as [[[pre0 g0] p0]|] eqn:Hr; [|discriminate].
      intros [= <- <- <-] a b Hab Hb.
      destruct (re_search_Some _ _ _ _ Hr) as (Hs & _).
      destruct a as [|d a]; simpl in Hab.
      * subst b. simpl. now rewrite <- Hs.
      * injection Hab as -> ->. now apply (IH _ eq_refl a b).
Qed.

Lemma re_search_intro (pre rest g post : string) :
  (forall a b, pre = a ++ b -> b <> "" ->
     match_here prefix stop suffix (b ++ rest) = None) ->
  match_here prefix stop suffix rest = Some (g, post) ->
  re_search prefix stop suffix (pre ++ rest) = Some (pre, g, post).
Proof.
  intros Hleft Hm; induction pre as [|c pre IH]; simpl.
  - destruct rest; simpl; now rewrite Hm.
  - assert (H0 := Hleft "" (String c pre) eq_refl ltac:(discriminate)).
    simpl in H0. rewrite H0.
    rewrite IH; [reflexivity|].
    intros a b -> Hb. now apply (Hleft (String c a) b).
Qed.

Lemma re_search_None_here (s : string) :
  re_search prefix stop suffix s = None ->
  match_here prefix stop suffix s = None.
Proof.
  destruct s; simpl; destruct (match_here _ _ _ _) as [[? ?]|]; auto; discriminate.
Qed.

End Search.

Lemma match_here_intro (prefix : string) (stop : ascii) (suf g post : string) :
  g <> "" -> contains_char stop g = false ->
  match_here prefix stop (String stop suf) (prefix ++ g ++ String stop suf ++ post)
    = Some (g, post).
Proof.
  intros Hg Hc. unfold match_here. rewrite strip_prefix_app.
  rewrite span_app.
  - destruct g; [congruence|]. simpl. rewrite Ascii.eqb_refl.
    now rewrite strip_prefix_app.
  - now apply contains_char_false.
  - simpl. now rewrite Ascii.eqb_refl.
Qed.

Lemma replace_first_hit (old new s rest : string) :
  strip_prefix old s = Some rest -> replace_first old new s = new ++ rest.
Proof. destruct s; simpl; now intros ->. Qed.

(** *** A pattern that ends with its stop character

    This is the pattern of [config_manager]: the group runs to the end of
    the line. *)

Section SearchLine.

Variables (prefix : string) (stop : ascii).

Lemma span_reaches_stop (y z : string) :
  exists a t,
    span (fun c => negb (Ascii.eqb c stop)) (y ++ String stop z) = (a, String stop t).
Proof.
  induction y as [|c y (a & t & IH)]; simpl.
  - rewrite Ascii.eqb_refl; simpl. now exists "", z.
  - destruct (Ascii.eqb_spec c stop) as [->|]; simpl.
    + now exists "", (y ++ String stop z).
    + rewrite IH. now exists (String c a), t.
Qed.

(** The text after a prefix that occurs again, shifted by [b]. *)
Lemma shifted_prefix (b rest r : string) :
  strip_prefix prefix (b ++ prefix ++ rest) = Some r ->
  exists x, b ++ prefix = prefix ++ x /\ r = x ++ rest
            /\ String.length x = String.length b.
Proof.
  intros H%strip_prefix_Some.
  rewrite <- append_assoc in H. symmetry in H.
  apply append_eq_append in H as (x & Hx & ->).
  - exists x; repeat split; auto.
    apply (f_equal String.length) in Hx. rewrite !length_append in Hx. lia.
  - rewrite length_append; lia.
Qed.

(** Changing the group of the leftmost match creates no match before it. *)
Lemma match_here_before_update (b g g' post : string) :
  b <> "" ->
  match_here prefix stop (str1 stop) (b ++ prefix ++ g ++ str1 stop ++ post) = None ->
  match_here prefix stop (str1 stop) (b ++ prefix ++ g' ++ str1 stop ++ post) = None.
Proof.
  intros Hb Hold. unfold match_here in *.
  destruct (strip_prefix prefix (b ++ prefix ++ g' ++ str1 stop ++ post))
    as [r|] eqn:Hp; [|reflexivity].
  apply shifted_prefix in Hp as (x & Hx & -> & Lx).
  assert (Hpo : strip_prefix prefix (b ++ prefix ++ g ++ str1 stop ++ post)
                = Some (x ++ g ++ str1 stop ++ post)).
  { rewrite <- append_assoc, Hx, append_assoc. apply strip_prefix_app. }
  rewrite Hpo in Hold. rewrite span_append in Hold |- *.
  destruct (span (fun c => negb (Ascii.eqb c stop)) x) as [x1 x2] eqn:Hsx.
  simpl in Hold |- *.
  destruct x2 as [|d x2].
  - exfalso.
    destruct (span_reaches_stop g post) as (a & t & Ha).
    simpl in Hold. rewrite Ha in Hold. simpl in Hold.
    rewrite Ascii.eqb_refl in Hold.
    destruct x; simpl in *; [|discriminate].
    destruct b; simpl in *; [congruence|lia].
  - simpl in Hold |- *.
    destruct (is_empty x1); [reflexivity|].
    destruct (Ascii.eqb stop d); [discriminate|reflexivity].
Qed.

(** After the group of the leftmost match is replaced by a text without the
    stop character, the search finds the new group at the same place. *)
Lemma re_search_update (s pre g post g' : string) :
  re_search prefix stop (str1 stop) s = Some (pre, g, post) ->
  g' <> "" -> contains_char stop g' = false ->
  re_search prefix stop (str1 stop) (pre ++ prefix ++ g' ++ str1 stop ++ post)
    = Some (pre, g', post).
Proof.
  intros Hs Hg Hc.
  apply re_search_intro.
  - intros a b Hab Hb.
    apply match_here_before_update with (g := g); auto.
    now apply (re_search_leftmost _ _ _ _ _ _ _ Hs a b).
  - now apply match_here_intro.
Qed.

(** The text ["prefix ++ group"] of the leftmost match does not occur
    before the match. *)
Lemma old_text_is_match (b g post rest : string) :
  g <> "" -> contains_char stop g = false ->
  strip_prefix (prefix ++ g) (b ++ prefix ++ g ++ str1 stop ++ post) = Some rest ->
  match_here prefix stop (str1 stop) (b ++ prefix ++ g ++ str1 stop ++ post) <> None.
Proof.
  intros Hg Hc H%strip_prefix_Some.
  assert (H' : (b ++ prefix ++ g) ++ str1 stop ++ post = (prefix ++ g) ++ rest).
  { rewrite <- H. now rewrite !append_assoc. }
  symmetry in H'. apply append_eq_append in H' as (x & Hx & ->).
  2:{ rewrite !length_append; lia. }
  unfold match_here.
  replace (b ++ prefix ++ g ++ str1 stop ++ post)
    with (prefix ++ g ++ x ++ str1 stop ++ post).
  2:{ rewrite <- (append_assoc b), <- (append_assoc (b ++ prefix)), (append_assoc b), Hx.
      now rewrite !append_assoc. }
  rewrite strip_prefix_app, span_append.
  apply contains_char_false in Hc.
  assert (Sg : span (fun c => negb (Ascii.eqb c stop)) g = (g, "")).
  { rewrite <- (append_nil_r g) at 1. now apply span_app. }
  rewrite Sg. simpl.
  destruct (span_reaches_stop x post) as (a & t & Ha).
  simpl in Ha. rewrite Ha. simpl.
  destruct g; [congruence|]. simpl. now rewrite Ascii.eqb_refl.
Qed.

Lemma replace_first_at_match (s pre g post new : string) :
  re_search prefix stop (str1 stop) s = Some (pre, g, post) ->
  replace_first (prefix ++ g) new s = pre ++ new ++ str1 stop ++ post.
Proof.
  intros Hs.
  destruct (re_search_Some _ _ _ _ _ _ _ Hs) as (-> & Hg & Hc).
  assert (Hleft := re_search_leftmost _ _ _ _ _ _ _ Hs). clear Hs.
  induction pre as [|c pre IH].
  - simpl (EmptyString ++ _).
    assert (E : strip_prefix (prefix ++ g) (prefix ++ g ++ str1 stop ++ post)
                = Some (str1 stop ++ post)).
    { rewrite <- append_assoc. apply strip_prefix_app. }
    now apply replace_first_hit.
  - assert (E : strip_prefix (prefix ++ g)
                  (String c pre ++ prefix ++ g ++ str1 stop ++ post) = None).
    { destruct (strip_prefix _ _) as [rest|] eqn:E; [|reflexivity].
      exfalso. eapply old_text_is_match; eauto.
      apply (Hleft "" (String c pre)); [reflexivity|discriminate]. }
    simpl in E |- *. rewrite E. f_equal. apply IH.
    intros a b -> Hb. now apply (Hleft (String c a) b).
Qed.

End SearchLine.

(** ** The codec *)

Arguments type_parser : simpl never.
Arguments literal_eval : simpl never.
Arguments Decimal_of_string : simpl never.

Lemma TypesManager_no_flags (v : value) :
  TypesManager v false false false
  = if isinstance_str v then type_parser v else Ok v.
Proof.
  unfold TypesManager, types_converting.
  destruct v; simpl; try reflexivity.
  destruct (type_parser (VStr s)) as [x|e]; simpl; [now destruct x|reflexivity].
Qed.

(** The text that [decode] retains is a text that is neither a decimal
    literal nor an expression. *)
Lemma decode_retains (s : string) :
  search_decimal_literal s = None -> literal_eval s = LitValueError ->
  decode (VStr s) = Ok (VStr s).
Proof. unfold decode, type_parser. now intros -> ->. Qed.

(** Any exception of the literal parser other than [ValueError] leaves
    [decode]. *)
Lemma decode_raises (s : string) (e : exn) :
  search_decimal_literal s = None -> literal_eval s = LitRaise e ->
  decode (VStr s) = Raise e.
Proof. unfold decode, type_parser. now intros -> ->. Qed.

(** C4, as stated, fails on a string: with all flags false the text [1]
    comes back as the integer [1]. *)
Lemma C4_counterexample :
  encode (VStr "1") false false false = Ok (VInt 1)
  /\ encode (VStr "1") false false false <> Ok (VStr "1").
Proof. split; [reflexivity|discriminate]. Qed.

(** C4, amended: with all three flags false, [encode] returns every value
    that is not a string unchanged, and returns [decode v] for a string [v]
    (the entry point parses a string before it looks at the flags). *)
Theorem C4_encode_no_flags (v : value) :
  encode v false false false = if isinstance_str v then decode v else Ok v.
Proof. apply TypesManager_no_flags. Qed.

(** C5: a text that is not a decimal literal and that the literal parser
    rejects with [SyntaxError] is not retained: [decode] raises.  The
    handler of [__type_parser] catches [ValueError] only. *)
Theorem C5_decode_raises_SyntaxError :
  search_decimal_literal "hello world" = None
  /\ literal_eval "hello world" = LitRaise SyntaxError
  /\ decode (VStr "hello world") = Raise SyntaxError.
Proof. repeat split; reflexivity. Qed.

(** C8, as stated, fails on a string that [decode] reads as a number:
    quoting the text [1] through the entry point raises [TypeError]. *)
Lemma C8_counterexample :
  encode (VStr "1") false false true = Raise TypeError
  /\ encode (VStr "1") false false true <> Ok (VStr "'1'").
Proof. split; [reflexivity|discriminate]. Qed.

(** C8, amended: quoting through the entry point acts on the decoded input.
    When [decode] returns a text [t], the result is [t] between single
    quotes, or between double quotes when [t] contains a single quote; when
    [decode] returns a value that is not a text, quoting raises
    [TypeError]. *)
Theorem C8_quote_decoded (s : string) :
  (forall t, decode (VStr s) = Ok (VStr t) ->
     encode (VStr s) false false true
     = Ok (VStr (if contains_char ch_quote t
                 then str1 ch_dquote ++ t ++ str1 ch_dquote
                 else str1 ch_quote ++ t ++ str1 ch_quote)))
  /\ (forall v, decode (VStr s) = Ok v -> isinstance_str v = false ->
        encode (VStr s) false false true = Raise TypeError).
Proof.
  unfold encode, decode, TypesManager, types_converting; simpl.
  split.
  - intros t ->. simpl. now destruct (contains_char ch_quote t).
  - intros v -> Hv. now destruct v.
Qed.

(** The text [plain] comes back as ['plain'], the double-quoted literal of
    a text that holds a single quote comes back between double quotes, and
    the text [1] cannot be quoted. *)
Lemma C8_quote_decoded_witness :
  encode (VStr "plain") false false true = Ok (VStr "'plain'")
  /\ encode (VStr (str1 ch_dquote ++ "It's" ++ str1 ch_dquote)) false false true
     = Ok (VStr (str1 ch_dquote ++ "It's" ++ str1 ch_dquote))
  /\ encode (VStr "1") false false true = Raise TypeError.
Proof.
  split; [|split].
  - exact (proj1 (C8_quote_decoded "plain") "plain" eq_refl).
  - exact (proj1 (C8_quote_decoded (str1 ch_dquote ++ "It's" ++ str1 ch_dquote))
             "It's" eq_refl).
  - exact (proj2 (C8_quote_decoded "1") (VInt 1) eq_refl eq_refl).
Defined.

(** ** The configuration file *)

Arguments replace_first : simpl never.
Arguments search_param : simpl never.
Arguments render : simpl never.

(** *** The error records of the codec *)

Lemma lbind_snd {A B : Type} (m : logged A) (k : A -> logged B) :
  snd (lbind m k) = bind (snd m) (fun a => snd (k a)).
Proof. destruct m as [l [a|e]]; reflexivity. Qed.

Lemma lbind_quiet {A B : Type} (m : logged A) (k : A -> logged B) :
  quiet_unless_raised m -> (forall a, quiet_unless_raised (k a)) ->
  quiet_unless_raised (lbind m k).
Proof.
  destruct m as [l [a|e]]; intros [[e' H]|H] Hk; cbn in *; try discriminate.
  - subst l. destruct (Hk a) as [[e' He]|He]; [left; now exists e'|now right].
  - left. now exists e.
  - left. now exists e.
Qed.

Lemma silent_quiet {A : Type} (r : result A) : quiet_unless_raised (silent r).
Proof. now right. Qed.

Lemma quiet_Ok {A : Type} (c : logged A) (a : A) :
  quiet_unless_raised c -> snd c = Ok a -> c = ([], Ok a).
Proof.
  destruct c as [l r]. intros [[e H]|H] E; cbn in *; subst; [discriminate|reflexivity].
Qed.

Lemma to_decimal_logged_snd (v : value) : snd (to_decimal_logged v) = to_decimal v.
Proof.
  unfold to_decimal_logged.
  destruct v; try reflexivity; unfold to_decimal;
    match goal with |- context [Decimal_of_string ?x] =>
      destruct (Decimal_of_string x) end; reflexivity.
Qed.

Lemma to_decimal_logged_quiet (v : value) : quiet_unless_raised (to_decimal_logged v).
Proof.
  unfold to_decimal_logged.
  destruct v; try apply silent_quiet; destruct (to_decimal _);
    try apply silent_quiet; left; now eexists.
Qed.

Lemma quote_logged_snd (v : value) : snd (quote_logged v) = quote v.
Proof. now destruct v. Qed.

Lemma quote_logged_quiet (v : value) : quiet_unless_raised (quote_logged v).
Proof. destruct v; try apply silent_quiet; left; now eexists. Qed.

Lemma type_parser_logged_snd (v : value) : snd (type_parser_logged v) = type_parser v.
Proof. now destruct v. Qed.

Lemma type_parser_logged_quiet (v : value) :
  quiet_unless_raised (type_parser_logged v).
Proof. destruct v; try apply silent_quiet; left; now eexists. Qed.

Create HintDb codec.

#[local] Hint Resolve silent_quiet to_decimal_logged_quiet quote_logged_quiet
  type_parser_logged_quiet : codec.

Ltac codec_snd :=
  repeat (rewrite ?lbind_snd, ?to_decimal_logged_snd, ?quote_logged_snd;
          cbn [snd silent bind];
          try match goal with
              | |- context [bind ?r _] => destruct r; cbn [bind]
              end);
  try reflexivity.

Lemma types_converting_logged_snd (v : value) (d s q : bool) :
  snd (types_converting_logged v d s q) = types_converting v d s q.
Proof.
  unfold types_converting_logged, types_converting. rewrite lbind_snd.
  destruct (isinstance_str v); [rewrite type_parser_logged_snd|cbn [snd silent]].
  - destruct (type_parser v) as [v0|e]; [|reflexivity].
    cbn [bind]. destruct d, s, q; codec_snd.
  - cbn [bind]. destruct d, s, q; codec_snd.
Qed.

Lemma TypesManager_logged_snd (v : value) (d s q : bool) :
  snd (TypesManager_logged v d s q) = TypesManager v d s q.
Proof.
  unfold TypesManager_logged, TypesManager.
  rewrite lbind_snd, types_converting_logged_snd.
  destruct (types_converting v d s q) as [x|e]; [|reflexivity]. now destruct x.
Qed.

Lemma TypesManager_logged_quiet (v : value) (d s q : bool) :
  quiet_unless_raised (TypesManager_logged v d s q).
Proof.
  unfold TypesManager_logged, types_converting_logged.
  apply lbind_quiet; [|intros []; apply silent_quiet].
  apply lbind_quiet; [destruct (isinstance_str v); auto with codec|].
  intros v0. destruct d, s, q; auto with codec;
    repeat (apply lbind_quiet; [auto with codec|intros ?]); auto with codec.
Qed.

(** A call of [TypesManager] that returns writes no record. *)
Lemma TypesManager_logged_Ok (v r : value) (d s q : bool) :
  TypesManager v d s q = Ok r -> TypesManager_logged v d s q = ([], Ok r).
Proof.
  intros H. apply quiet_Ok; [apply TypesManager_logged_quiet|].
  now rewrite TypesManager_logged_snd.
Qed.

(** Without a flag, [TypesManager] writes no record. *)
Lemma TypesManager_logged_no_flags (v : value) :
  TypesManager_logged v false false false = ([], TypesManager v false false false).
Proof.
  rewrite <- TypesManager_logged_snd.
  unfold TypesManager_logged, types_converting_logged.
  destruct v; cbn; try reflexivity.
  destruct (type_parser (VStr s)) as [x|e]; cbn; [now destruct x|reflexivity].
Qed.

Lemma render_logged_snd (v : value) : snd (render_logged v) = render v.
Proof.
  unfold render_logged, render. rewrite !lbind_snd, TypesManager_logged_snd.
  destruct (TypesManager v false false false) as [v1|e]; [|reflexivity]. cbn [bind].
  rewrite lbind_snd.
  destruct (type_of v1); rewrite TypesManager_logged_snd; reflexivity.
Qed.

Lemma render_logged_quiet (v : value) : quiet_unless_raised (render_logged v).
Proof.
  unfold render_logged.
  apply lbind_quiet; [apply TypesManager_logged_quiet|]. intros v1.
  apply lbind_quiet; [|intros; apply silent_quiet].
  destruct (type_of v1); apply TypesManager_logged_quiet.
Qed.

Lemma render_logged_Ok (v : value) (txt : string) :
  render v = Ok txt -> render_logged v = ([], Ok txt).
Proof.
  intros H. apply quiet_Ok; [apply render_logged_quiet|].
  now rewrite render_logged_snd.
Qed.

Lemma legacy_render_logged_snd (v : value) :
  snd (Legacy.render_logged v) = Legacy.render v.
Proof.
  unfold Legacy.render_logged, Legacy.render. rewrite lbind_snd.
  destruct (type_of v); rewrite ?TypesManager_logged_snd; reflexivity.
Qed.

Lemma legacy_render_logged_quiet (v : value) :
  quiet_unless_raised (Legacy.render_logged v).
Proof.
  unfold Legacy.render_logged.
  apply lbind_quiet; [|intros; apply silent_quiet].
  destruct (type_of v); try apply TypesManager_logged_quiet; apply silent_quiet.
Qed.

Lemma legacy_render_logged_Ok (v : value) (txt : string) :
  Legacy.render v = Ok txt -> Legacy.render_logged v = ([], Ok txt).
Proof.
  intros H. apply quiet_Ok; [apply legacy_render_logged_quiet|].
  now rewrite legacy_render_logged_snd.
Qed.

Lemma add_events_nil (w : world) : add_events w [] = w.
Proof. destruct w. unfold add_events. cbn. now rewrite List.app_nil_r. Qed.

Lemma log_errors_run (msgs : list string) (w : world) :
  log_errors msgs w = (Ok tt, add_events w (map (EvLog ERROR) msgs)).
Proof.
  revert w. induction msgs as [|msg msgs IH]; intros w.
  - cbn. now rewrite add_events_nil.
  - cbn [log_errors map]. unfold mbind, log, emit. rewrite IH.
    unfold add_events. cbn. now rewrite <- app_assoc.
Qed.

(** A call of the codec gives its outcome and adds its records to the
    log. *)
Lemma call_run {A : Type} (c : logged A) (w : world) :
  call c w = (snd c, add_events w (map (EvLog ERROR) (fst c))).
Proof.
  unfold call, mbind. rewrite log_errors_run. reflexivity.
Qed.

Lemma call_silent {A : Type} (r : result A) (w : world) : call ([], r) w = (r, w).
Proof. reflexivity. Qed.

Arguments call : simpl never.
Arguments render_logged : simpl never.
Arguments Legacy.render_logged : simpl never.
Arguments TypesManager_logged : simpl never.

Ltac run_config :=
  unfold read_config, write_config, log, emit, mbind, lift, ret, add_events,
    with_config; cbn -[String.append].

(** A call without a new value opens the file, reads it, and returns the
    decoded group of the leftmost match. *)
Lemma config_manager_get (name : string) (w : world) :
  config_manager name VNone w
  = (match config_file w with
     | None => Raise FileNotFoundError
     | Some data =>
         match search_param name data with
         | Some (_, value, _) => decode (VStr value)
         | None => Ok VNone
         end
     end,
     add_events w [EvConfigOpen]).
Proof.
  unfold config_manager; run_config.
  destruct (config_file w) as [data|]; [|reflexivity].
  destruct (search_param name data) as [[[pre value] post]|]; [|reflexivity].
  rewrite TypesManager_logged_no_flags, call_silent.
  now rewrite TypesManager_no_flags.
Qed.

Lemma search_param_Some (name data pre value post : string) :
  search_param name data = Some (pre, value, post) ->
  data = pre ++ line name value ++ post
  /\ value <> "" /\ contains_char ch_newline value = false.
Proof.
  intros H. apply re_search_Some in H as (-> & Hv & Hc).
  unfold line. now rewrite !append_assoc.
Qed.

(** The text that a call with a new value writes: the file with the group
    of the leftmost match replaced, and nothing else changed. *)
Lemma replace_value (name data pre value post txt : string) :
  search_param name data = Some (pre, value, post) ->
  replace_first (name ++ " = " ++ value) (name ++ " = " ++ txt) data
  = pre ++ line name txt ++ post.
Proof.
  intros H. unfold search_param in H.
  rewrite <- (append_assoc name " = " value).
  rewrite (replace_first_at_match _ _ _ _ _ _ _ H).
  unfold line. now rewrite !append_assoc.
Qed.

Ltac prove_config_set name data H Hr :=
  run_config;
  match goal with Hc : config_file _ = Some _ |- _ => rewrite Hc end;
  rewrite H;
  match goal with |- context [match ?v with VNone => _ | _ => _ end] =>
    destruct v; try congruence end;
  first [ rewrite (render_logged_Ok _ _ Hr)
        | rewrite (legacy_render_logged_Ok _ _ Hr) ];
  rewrite call_silent; cbn -[String.append];
  rewrite (replace_value _ _ _ _ _ _ H);
  now rewrite <- !app_assoc.

Lemma config_manager_set (name : string) (v : value) (w : world)
    (data pre value post txt : string) :
  config_file w = Some data ->
  search_param name data = Some (pre, value, post) ->
  v <> VNone -> render v = Ok txt ->
  config_manager name v w
  = (Ok VNone,
     add_events (with_config w (pre ++ line name txt ++ post))
       [EvConfigOpen; EvConfigWrite (pre ++ line name txt ++ post);
        EvLog WARNING ("Config params changed: now " ++ name ++ " = " ++ txt ++ "!")]).
Proof.
  intros Hc H Hv Hr. unfold config_manager. prove_config_set name data H Hr.
Qed.

(** When the pattern matches nowhere, a call neither writes nor raises. *)
Lemma config_manager_no_match (name : string) (v : value) (w : world) (data : string) :
  config_file w = Some data -> search_param name data = None ->
  config_manager name v w = (Ok VNone, add_events w [EvConfigOpen]).
Proof.
  intros Hc H. unfold config_manager; run_config. rewrite Hc, H. now destruct v.
Qed.

(** After a value is set, the search finds the new text at the same
    place. *)
Lemma search_param_after_set (name data pre value post txt : string) :
  search_param name data = Some (pre, value, post) ->
  txt <> "" -> contains_char ch_newline txt = false ->
  search_param name (pre ++ line name txt ++ post) = Some (pre, txt, post).
Proof.
  intros H Ht Hc. unfold search_param, line in *.
  replace (pre ++ (name ++ " = " ++ txt ++ str1 ch_newline) ++ post)
    with (pre ++ (name ++ " = ") ++ txt ++ str1 ch_newline ++ post)
    by now rewrite !append_assoc.
  now apply re_search_update with (s := data) (g := value).
Qed.


(** ** The search of [config_manager] and the lines of the file *)

Lemma re_search_unfold (prefix : string) (stop : ascii) (suffix s : string) :
  re_search prefix stop suffix s
  = match match_here prefix stop suffix s with
    | Some (g, post) => Some ("", g, post)
    | None =>
        match s with
        | EmptyString => None
        | String c s' =>
            match re_search prefix stop suffix s' with
            | Some (pre, g, post) => Some (String c pre, g, post)
            | None => None
            end
        end
    end.
Proof. destruct s; reflexivity. Qed.

Lemma lines_from_line (cur l rest : string) :
  contains_char ch_newline l = false ->
  lines_from cur (l ++ str1 ch_newline ++ rest) = (cur ++ l) :: lines_from "" rest.
Proof.
  revert cur. induction l as [|c l IH]; intros cur H.
  - cbn. now rewrite append_nil_r.
  - cbn [contains_char] in H. apply orb_false_elim in H as [Hc Hl].
    cbn [String.append lines_from]. rewrite Hc, (IH _ Hl).
    now rewrite append_assoc.
Qed.

Lemma lines_from_inv (cur s l : string) (ls : list string) :
  lines_from cur s = l :: ls ->
  exists l' rest, s = l' ++ str1 ch_newline ++ rest /\ l = cur ++ l'
                  /\ contains_char ch_newline l' = false.
Proof.
  revert cur. induction s as [|c s IH]; intros cur H; [discriminate|].
  cbn [lines_from] in H. destruct (Ascii.eqb_spec c ch_newline) as [->|Hc].
  - injection H as <- _. exists "", s. now rewrite append_nil_r.
  - apply IH in H as (l' & rest & -> & -> & Hl).
    exists (String c l'), rest. split; [reflexivity|]. split.
    + now rewrite append_assoc.
    + cbn [contains_char]. rewrite Hl, orb_false_r. now apply Ascii.eqb_neq.
Qed.

Section Lookup.

Variables name P : string.
Hypothesis name_line : contains_char ch_newline name = false.
Hypothesis P_def : P = name ++ " = ".

Lemma P_no_newline : contains_char ch_newline P = false.
Proof. rewrite P_def. now rewrite contains_char_app, name_line. Qed.

Lemma P_nonempty : strip_prefix P "" = None.
Proof. rewrite P_def. destruct name; reflexivity. Qed.

(** A match at the start of a line is the value of that line. *)
Lemma match_here_line (s g post : string) :
  match_here P ch_newline (str1 ch_newline) s = Some (g, post) ->
  exists ls, lines_from "" s = (P ++ g) :: ls /\ line_value name (P ++ g) = Some g.
Proof.
  intros H. apply match_here_Some in H as (-> & Hg & Hn).
  exists (lines_from "" post). split.
  - rewrite <- append_assoc.
    rewrite (lines_from_line "" (P ++ g) post); [reflexivity|].
    now rewrite contains_char_app, P_no_newline, Hn.
  - unfold line_value. rewrite <- P_def, strip_prefix_app. now destruct g.
Qed.

(** A line with a value is a match at its start. *)
Lemma line_match_here (l rest v : string) :
  contains_char ch_newline l = false -> line_value name l = Some v ->
  match_here P ch_newline (str1 ch_newline) (l ++ str1 ch_newline ++ rest)
  = Some (v, rest).
Proof.
  unfold line_value. rewrite <- P_def. intros Hl H.
  destruct (strip_prefix P l) as [v'|] eqn:E; [|discriminate].
  destruct v' as [|c v']; [discriminate|]. injection H as <-.
  apply strip_prefix_Some in E. subst l.
  rewrite contains_char_app in Hl. apply orb_false_elim in Hl as [_ Hv].
  rewrite append_assoc.
  now apply (match_here_intro P ch_newline "" (String c v') rest).
Qed.

Lemma lookup_lines (s : string) :
  (occurs_off_start P true s = false ->
   found_value (re_search P ch_newline (str1 ch_newline) s)
   = first_value name (lines_from "" s))
  /\ (forall cur, occurs_off_start P false s = false ->
      found_value (re_search P ch_newline (str1 ch_newline) s)
      = first_value name (tl (lines_from cur s))).
Proof.
  induction s as [|c s [IHA IHB]].
  - split; [intros _|intros cur _]; rewrite re_search_unfold;
      unfold match_here; now rewrite P_nonempty.
  - split.
    + intros H. cbn [occurs_off_start negb andb orb] in H.
      rewrite re_search_unfold.
      destruct (match_here P ch_newline (str1 ch_newline) (String c s))
        as [[g post]|] eqn:E.
      * apply match_here_line in E as (ls & -> & Hv).
        cbn [found_value first_value]. now rewrite Hv.
      * assert (Hhead : first_value name (lines_from "" (String c s))
                        = first_value name (tl (lines_from "" (String c s)))).
        { destruct (lines_from "" (String c s)) as [|l ls] eqn:EL; [reflexivity|].
          apply lines_from_inv in EL as (l' & rest & Es & -> & Hl).
          cbn [first_value tl String.append].
          destruct (line_value name l') as [v|] eqn:Ev; [|reflexivity].
          rewrite Es, (line_match_here l' rest v Hl Ev) in E. discriminate. }
        rewrite Hhead. cbn [lines_from].
        destruct (Ascii.eqb_spec c ch_newline) as [->|Hc].
        -- cbn [tl]. rewrite <- (IHA H).
           now destruct (re_search P ch_newline (str1 ch_newline) s) as [[[? ?] ?]|].
        -- rewrite <- (IHB _ H).
           now destruct (re_search P ch_newline (str1 ch_newline) s) as [[[? ?] ?]|].
    + intros cur H. cbn [occurs_off_start negb andb] in H.
      apply orb_false_elim in H as [H1 H2].
      rewrite re_search_unfold. unfold match_here at 1.
      destruct (strip_prefix P (String c s)); [discriminate|].
      cbn [lines_from]. destruct (Ascii.eqb_spec c ch_newline) as [->|Hc].
      * cbn [tl]. rewrite <- (IHA H2).
        now destruct (re_search P ch_newline (str1 ch_newline) s) as [[[? ?] ?]|].
      * rewrite <- (IHB _ H2).
        now destruct (re_search P ch_newline (str1 ch_newline) s) as [[[? ?] ?]|].
Qed.

End Lookup.

(** When the text [name = ] occurs in the file at the start of lines only,
    the search finds the value of the first line named [name]. *)
Lemma search_param_spec_lookup (name data : string) :
  contains_char ch_newline name = false ->
  occurs_off_start (name ++ " = ") true data = false ->
  found_value (search_param name data) = spec_lookup name data.
Proof.
  intros Hn H. exact (proj1 (lookup_lines name _ Hn eq_refl data) H).
Qed.

(** C10, as stated, fails: the value [None] is written when it is passed as
    the text [None], which the codec reads as [None] (the stored name of the
    database is replaced by [None] and reads back as [None]); and a read
    does not always return the value of the parameter of that name: in a
    file whose only line is [ENGINE_ECHO = False], reading [ECHO] returns
    [False]. *)
Lemma C10_counterexample :
  let w := world_of_config (line "SQLITE_DB_NAME" "'catalog.db'") in
  let w' := snd (config_manager "SQLITE_DB_NAME" (VStr "None") w) in
  config_file w' = Some (line "SQLITE_DB_NAME" "None")
  /\ fst (config_manager "SQLITE_DB_NAME" VNone w') = Ok VNone
  /\ spec_lookup "ECHO" (line "ENGINE_ECHO" "False") = None
  /\ fst (config_manager "ECHO" VNone (world_of_config (line "ENGINE_ECHO" "False")))
     = Ok (VBool false).
Proof. repeat split. Qed.

(** C10, amended: for every parameter name, [config_manager(name, None)] is
    a read.  It opens and reads the file and does nothing else: nothing is
    written, and the files and the memo are left as they are.  Without a
    file it raises [FileNotFoundError].  When the text [name = ] occurs in
    the file at the start of lines only, it returns the decoded value of the
    first line named [name] (raising what the decoding raises), or [None]
    when no line is named [name]. *)
Theorem C10_None_argument_is_a_read (name : string) (w : world) :
  plain_name name = true -> contains_char ch_newline name = false ->
  snd (config_manager name VNone w) = add_events w [EvConfigOpen]
  /\ (config_file w = None ->
      fst (config_manager name VNone w) = Raise FileNotFoundError)
  /\ (forall data,
        config_file w = Some data ->
        occurs_off_start (name ++ " = ") true data = false ->
        fst (config_manager name VNone w)
        = match spec_lookup name data with
          | Some value => decode (VStr value)
          | None => Ok VNone
          end).
Proof.
  intros _ Hn. rewrite config_manager_get. cbn [fst snd].
  split; [reflexivity|]. split; [now intros ->|].
  intros data -> H.
  rewrite <- (search_param_spec_lookup name data Hn H).
  now destruct (search_param name data) as [[[pre value] post]|].
Qed.

(** The stored name of the database is read, not replaced by [None]. *)
Lemma C10_None_argument_is_a_read_witness :
  let data := line "ENGINE_ECHO" "False"
              ++ line "SQLITE_DB_NAME" "'electrical_product_catalog.db'" in
  let w := world_of_config data in
  config_file (snd (config_manager "SQLITE_DB_NAME" VNone w)) = Some data
  /\ fst (config_manager "SQLITE_DB_NAME" VNone w)
     = Ok (VStr "electrical_product_catalog.db").
Proof.
  intros data w.
  destruct (C10_None_argument_is_a_read "SQLITE_DB_NAME" w eq_refl eq_refl)
    as (H1 & _ & H3).
  split.
  - exact (f_equal config_file H1).
  - exact (H3 data eq_refl eq_refl).
Defined.

(** C6: the search is not anchored at the start of a line.  In a file whose
    only line is [ENGINE_ECHO = False], no line is named [ECHO], and yet
    reading [ECHO] returns [False], the value of [ENGINE_ECHO], where the
    claim and the docstring say [None]. *)
Theorem C6_get_returns_value_of_longer_name :
  let data := line "ENGINE_ECHO" "False" in
  plain_name "ECHO" = true
  /\ spec_lookup "ECHO" data = None
  /\ spec_lookup "ENGINE_ECHO" data = Some "False"
  /\ fst (config_get "ECHO" (world_of_config data)) = Ok (VBool false).
Proof. repeat split. Qed.

(** C7: for the same reason a write to a name that no line has is not a
    no-op: setting [ECHO] in a file whose only line is
    [ENGINE_ECHO = False] rewrites the value of [ENGINE_ECHO]. *)
Theorem C7_set_rewrites_line_of_longer_name :
  let data := line "ENGINE_ECHO" "False" in
  plain_name "ECHO" = true
  /\ spec_lookup "ECHO" data = None
  /\ config_set "ECHO" (VBool true) (world_of_config data)
     = (Ok VNone,
        add_events (world_of_config (line "ENGINE_ECHO" "True"))
          [EvConfigOpen; EvConfigWrite (line "ENGINE_ECHO" "True");
           EvLog WARNING "Config params changed: now ECHO = True!"]).
Proof. repeat split. Qed.

(** ** The connection resolver *)

Lemma legacy_config_manager_get (name : string) (w : world) :
  Legacy.config_manager name VNone w
  = (match config_file w with
     | None => Raise FileNotFoundError
     | Some data =>
         match search_param name data with
         | Some (_, value, _) => decode (VStr value)
         | None => Ok VNone
         end
     end,
     add_events w [EvConfigOpen]).
Proof.
  unfold Legacy.config_manager; run_config.
  destruct (config_file w) as [data|]; [|reflexivity].
  destruct (search_param name data) as [[[pre value] post]|]; [|reflexivity].
  rewrite TypesManager_logged_no_flags, call_silent.
  now rewrite TypesManager_no_flags.
Qed.

Arguments Legacy.render : simpl never.

Lemma legacy_config_manager_set (name : string) (v : value) (w : world)
    (data pre value post txt : string) :
  config_file w = Some data ->
  search_param name data = Some (pre, value, post) ->
  v <> VNone -> Legacy.render v = Ok txt ->
  Legacy.config_manager name v w
  = (Ok VNone,
     add_events (with_config w (pre ++ line name txt ++ post))
       [EvConfigOpen; EvConfigWrite (pre ++ line name txt ++ post);
        EvLog WARNING ("Config params changed: now " ++ name ++ " = " ++ txt ++ "!")]).
Proof.
  intros Hc H Hv Hr. unfold Legacy.config_manager. prove_config_set name data H Hr.
Qed.

(** Once the attribute is set, [db_access] returns it and touches
    nothing. *)
Lemma db_access_memoized (ROOT_DIR SQLITE_DB_NAME : string) (fuel : nat)
    (w : world) (url : string) :
  engine_string w = Some url ->
  Legacy.db_access ROOT_DIR SQLITE_DB_NAME fuel w = (Ok url, w).
Proof. intros H. destruct fuel; simpl; now rewrite H. Qed.

Arguments Legacy.config_manager : simpl never.
Arguments config_manager : simpl never.
Arguments decode : simpl never.

Ltac run_monad :=
  repeat progress
    (cbn -[String.append];
     try unfold mbind; try unfold try_except; try unfold try_finally).

Ltac legacy_get :=
  match goal with
  | |- context [Legacy.config_manager ?name VNone ?w] =>
      rewrite (legacy_config_manager_get name w); cbn -[String.append]
  end.

Ltac legacy_set Hs :=
  match goal with
  | |- context [Legacy.config_manager ?name (VStr ?s) ?w] =>
      erewrite (legacy_config_manager_set name (VStr s) w);
      [|reflexivity|exact Hs|discriminate|reflexivity]
  end.

(** The first resolution without credentials and with the unset sentinel
    stored: the MySQL attempt fails on the missing credentials, the SQLite
    branch writes its tag into the file, and the attribute is set. *)
Lemma db_access_fallback (ROOT_DIR SQLITE_DB_NAME : string) (fuel : nat)
    (w : world) (data pre value post : string) :
  credentials_file w = None ->
  engine_string w = None ->
  config_file w = Some data ->
  search_param "DB_EXISTING_CONNECTION" data = Some (pre, value, post) ->
  decode (VStr value) = Ok (VBool false) ->
  let url := "sqlite:///" ++ ROOT_DIR ++ "/" ++ SQLITE_DB_NAME in
  let data' := pre ++ line "DB_EXISTING_CONNECTION" "'SQLite'" ++ post in
  Legacy.db_access ROOT_DIR SQLITE_DB_NAME (S fuel) w
  = (Ok url,
     {| config_file := Some data';
        credentials_file := None;
        sqlite_db_file := sqlite_db_file w;
        engine_string := Some url;
        events :=
          (events w ++
           [EvCredIsFile; EvConfigOpen;
            EvLog WARNING "Existing connection not found!";
            EvLog INFO "Accessing MySQL database...";
            EvLog INFO "Credentials initializing..."; EvCredOpen;
            EvLog WARNING "Credentials file for MySQL database not found!";
            EvLog INFO "Accessing SQLite database...";
            EvLog INFO "Connected to SQLite database."; EvConfigOpen;
            EvConfigOpen; EvConfigWrite data';
            EvLog WARNING
              "Config params changed: now DB_EXISTING_CONNECTION = 'SQLite'!"])%list |}).
Proof.
  intros Hcr Hes Hcf Hs Hd url data'.
  destruct w as [cf cr sq es ev]; simpl in *; subst.
  unfold Legacy.db_access; run_monad.
  legacy_get; rewrite Hs, Hd; run_monad.
  legacy_get; rewrite Hs, Hd; run_monad.
  legacy_set Hs.
  cbn -[String.append]. now rewrite <- !app_assoc.
Qed.

(** C2: without a credentials file and with the unset sentinel [False]
    stored under [DB_EXISTING_CONNECTION], the first call of [db_access]
    returns the SQLite connection string, has written the tag ['SQLite']
    into the file (only the value of that parameter changes, and the
    parameter now reads as ['SQLite']), and has set the memo; every later
    call returns the same string and leaves the world as it is: no file is
    opened, read or tested again. *)
Theorem C2_fallback_is_persisted_and_memoized
    (ROOT_DIR SQLITE_DB_NAME : string) (fuel : nat)
    (w : world) (data pre value post : string) :
  credentials_file w = None ->
  engine_string w = None ->
  config_file w = Some data ->
  search_param "DB_EXISTING_CONNECTION" data = Some (pre, value, post) ->
  decode (VStr value) = Ok (VBool false) ->
  let url := "sqlite:///" ++ ROOT_DIR ++ "/" ++ SQLITE_DB_NAME in
  exists w',
    Legacy.db_access ROOT_DIR SQLITE_DB_NAME (S fuel) w = (Ok url, w')
    /\ config_file w = Some (pre ++ line "DB_EXISTING_CONNECTION" value ++ post)
    /\ config_file w' = Some (pre ++ line "DB_EXISTING_CONNECTION" "'SQLite'" ++ post)
    /\ fst (Legacy.config_manager "DB_EXISTING_CONNECTION" VNone w') = Ok (VStr "SQLite")
    /\ engine_string w' = Some url
    /\ forall fuel', Legacy.db_access ROOT_DIR SQLITE_DB_NAME fuel' w' = (Ok url, w').
Proof.
  intros Hcr Hes Hcf Hs Hd url.
  eexists. split; [now apply (db_access_fallback _ _ _ _ _ _ _ _ Hcr Hes Hcf Hs Hd)|].
  split; [|split; [reflexivity|split; [|split; [reflexivity|]]]].
  - rewrite Hcf. f_equal. now apply search_param_Some in Hs.
  - rewrite legacy_config_manager_get. cbn [fst config_file].
    now rewrite (search_param_after_set _ _ _ _ _ "'SQLite'" Hs).
  - intros fuel'. now apply db_access_memoized.
Qed.

(** The scenario of the specification: the file stores [False], there are
    no credentials. *)
Lemma C2_fallback_is_persisted_and_memoized_witness :
  let w := world_of_config (line "DB_EXISTING_CONNECTION" "False"
                              ++ line "ENGINE_ECHO" "False") in
  exists w',
    Legacy.db_access "/app" "catalog.db" 1 w = (Ok "sqlite:////app/catalog.db", w')
    /\ config_file w' = Some (line "DB_EXISTING_CONNECTION" "'SQLite'"
                                ++ line "ENGINE_ECHO" "False")
    /\ forall fuel', Legacy.db_access "/app" "catalog.db" fuel' w'
                     = (Ok "sqlite:////app/catalog.db", w').
Proof.
  intros w.
  destruct (C2_fallback_is_persisted_and_memoized "/app" "catalog.db" 0 w
              (line "DB_EXISTING_CONNECTION" "False" ++ line "ENGINE_ECHO" "False")
              "" "False" (line "ENGINE_ECHO" "False")
              eq_refl eq_refl eq_refl eq_refl eq_refl)
    as (w' & H1 & _ & H3 & _ & _ & H6).
  exists w'. split; [exact H1|split; [exact H3|exact H6]].
Defined.

(** C3: a stored value that is no key of [connection_types] makes the
    lookup raise [KeyError], which the handler of [FileNotFoundError] does
    not catch: [db_access] raises at once, the stored value is not reset and
    there is no second attempt. *)
Theorem C3_invalid_state_is_not_reset (ROOT_DIR SQLITE_DB_NAME : string) (fuel : nat) :
  let w := world_of_config (line "DB_EXISTING_CONNECTION" "'Oracle'") in
  fst (Legacy.config_manager "DB_EXISTING_CONNECTION" VNone w) = Ok (VStr "Oracle")
  /\ Legacy.connection_types (VStr "Oracle") = Raise KeyError
  /\ Legacy.db_access ROOT_DIR SQLITE_DB_NAME (S fuel) w
     = (Raise KeyError, add_events w [EvCredIsFile; EvConfigOpen]).
Proof. repeat split. Qed.

(** One call of [db_access] with the attribute unset. *)
Lemma db_access_unfold (ROOT_DIR SQLITE_DB_NAME : string) (fuel : nat) (w : world) :
  engine_string w = None ->
  Legacy.db_access ROOT_DIR SQLITE_DB_NAME (S fuel) w
  = (try_except
       (is_file <~ Legacy.credentials_is_file ;;
        s <~ (if is_file then Legacy.run_access ROOT_DIR SQLITE_DB_NAME Legacy.mysql_access
              else v <~ Legacy.config_manager "DB_EXISTING_CONNECTION" VNone ;;
                   a <~ lift (Legacy.connection_types v) ;;
                   Legacy.run_access ROOT_DIR SQLITE_DB_NAME a) ;;
        Legacy.set_engine_string s)
       is_FileNotFoundError
       (fun _ =>
          Legacy.config_manager "DB_EXISTING_CONNECTION" (VBool false) ;;;
          log WARNING
            ("The config 'DB_EXISTING_CONNECTION' parameter has been reset. "
               ++ "Retrying database connection...") ;;;
          Legacy.db_access ROOT_DIR SQLITE_DB_NAME fuel ;;;
          ret tt) ;;;
     Legacy.get_engine_string) w.
Proof. intros H. cbn [Legacy.db_access]. now rewrite H. Qed.

(** The retry for any file: a stored ['MySQL'] without a credentials file
    raises [FileNotFoundError], the handler stores [False] and calls
    [db_access] again, which falls back to SQLite. *)
Lemma db_access_retry (ROOT_DIR SQLITE_DB_NAME : string) (fuel : nat)
    (w : world) (data pre value post : string) :
  credentials_file w = None ->
  engine_string w = None ->
  config_file w = Some data ->
  search_param "DB_EXISTING_CONNECTION" data = Some (pre, value, post) ->
  decode (VStr value) = Ok (VStr "MySQL") ->
  let url := "sqlite:///" ++ ROOT_DIR ++ "/" ++ SQLITE_DB_NAME in
  let data1 := pre ++ line "DB_EXISTING_CONNECTION" "False" ++ post in
  let data2 := pre ++ line "DB_EXISTING_CONNECTION" "'SQLite'" ++ post in
  Legacy.db_access ROOT_DIR SQLITE_DB_NAME (S (S fuel)) w
  = (Ok url,
     {| config_file := Some data2;
        credentials_file := None;
        sqlite_db_file := sqlite_db_file w;
        engine_string := Some url;
        events :=
          (events w ++
           [EvCredIsFile; EvConfigOpen; EvCredOpen; EvConfigOpen;
            EvConfigWrite data1;
            EvLog WARNING "Config params changed: now DB_EXISTING_CONNECTION = False!";
            EvLog WARNING
              ("The config 'DB_EXISTING_CONNECTION' parameter has been reset. "
                 ++ "Retrying database connection...");
            EvCredIsFile; EvConfigOpen;
            EvLog WARNING "Existing connection not found!";
            EvLog INFO "Accessing MySQL database...";
            EvLog INFO "Credentials initializing..."; EvCredOpen;
            EvLog WARNING "Credentials file for MySQL database not found!";
            EvLog INFO "Accessing SQLite database...";
            EvLog INFO "Connected to SQLite database."; EvConfigOpen;
            EvConfigOpen; EvConfigWrite data2;
            EvLog WARNING
              "Config params changed: now DB_EXISTING_CONNECTION = 'SQLite'!"])%list |}).
Proof.
  intros Hcr Hes Hcf Hs Hd url data1 data2.
  destruct w as [cf cr sq es ev]; simpl in Hcr, Hes, Hcf; subst.
  rewrite db_access_unfold by reflexivity.
  remember (S fuel) as n eqn:En.
  repeat progress
    (cbn -[String.append Legacy.db_access];
     try unfold mbind; try unfold try_except).
  legacy_get; rewrite Hs, Hd.
  repeat progress
    (cbn -[String.append Legacy.db_access];
     try unfold mbind; try unfold try_except).
  erewrite (legacy_config_manager_set "DB_EXISTING_CONNECTION" (VBool false));
    [|reflexivity|exact Hs|discriminate|reflexivity].
  repeat progress
    (cbn -[String.append Legacy.db_access];
     try unfold mbind; try unfold try_except).
  subst n.
  erewrite db_access_fallback;
    [|reflexivity|reflexivity|reflexivity
     |apply (search_param_after_set _ _ _ _ _ "False" Hs); [discriminate|reflexivity]
     |reflexivity].
  cbn -[String.append]. subst url data1 data2. now rewrite <- !app_assoc.
Qed.

(** The retry that the code has: a stored ['MySQL'] without a credentials
    file raises [FileNotFoundError], the stored value is reset to [False]
    and the second attempt falls back to SQLite. *)
Lemma db_access_retry_after_FileNotFoundError
    (ROOT_DIR SQLITE_DB_NAME : string) (fuel : nat) :
  let w := world_of_config (line "DB_EXISTING_CONNECTION" "'MySQL'") in
  let (r, w') := Legacy.db_access ROOT_DIR SQLITE_DB_NAME (S (S fuel)) w in
  r = Ok ("sqlite:///" ++ ROOT_DIR ++ "/" ++ SQLITE_DB_NAME)
  /\ config_file w' = Some (line "DB_EXISTING_CONNECTION" "'SQLite'")
  /\ In (EvConfigWrite (line "DB_EXISTING_CONNECTION" "False")) (events w').
Proof.
  intros w.
  rewrite (db_access_retry ROOT_DIR SQLITE_DB_NAME fuel w
             (line "DB_EXISTING_CONNECTION" "'MySQL'") "" "'MySQL'" ""
             eq_refl eq_refl eq_refl eq_refl eq_refl).
  split; [reflexivity|split; [reflexivity|]].
  cbn [events]. apply in_or_app. right. do 4 right. left. reflexivity.
Qed.

(** ** The transaction scope *)

Lemma session_op_Ok (ev : event) (w : world) :
  session_op ev None w = (Ok tt, add_events w [ev]).
Proof. reflexivity. Qed.

Lemma session_op_Raise (ev : event) (e : exn) (w : world) :
  session_op ev (Some e) w = (Raise e, add_events w [ev]).
Proof. reflexivity. Qed.

Lemma add_events_app (w : world) (l1 l2 : list event) :
  add_events (add_events w l1) l2 = add_events w (l1 ++ l2).
Proof. unfold add_events; simpl. now rewrite app_assoc. Qed.

(** Whatever happens inside the [try], the [finally] closes the session:
    the last thing that the scope does is [close]. *)
Lemma session_scope_closes (sb : session_behaviour) (logs : bool) (body : M unit)
    (w : world) :
  on_session sb = None ->
  exists w', events (snd (session_scope sb logs body w)) = (events w' ++ [EvClose])%list.
Proof.
  intros Hs. unfold session_scope. unfold mbind at 1. rewrite Hs, session_op_Ok.
  unfold try_finally.
  destruct (try_except _ _ _ _) as [r w'].
  exists w'. now destruct (on_close sb).
Qed.

Section Scope.

Variables (sb : session_behaviour) (logs : bool) (body : M unit).
Variables (w w1 w2 : world) (r : result unit).

Hypothesis session_created : on_session sb = None.
Hypothesis prologue_done : scope_prologue sb (add_events w [EvSession]) = (Ok tt, w1).
Hypothesis body_done : body w1 = (r, w2).

Lemma session_scope_try :
  session_scope sb logs body w
  = try_finally
      (try_except
         (fun _ => match r with
                   | Ok _ => session_op EvCommit (on_commit sb) w2
                   | Raise e => (Raise e, w2)
                   end)
         is_OperationalError
         (fun err =>
            session_op EvRollback (on_rollback sb) ;;;
            (if logs then log ERROR (exn_name err) else ret tt) ;;;
            raise err))
      (session_op EvClose (on_close sb)) w1.
Proof.
  unfold session_scope. unfold mbind at 1.
  rewrite session_created, session_op_Ok.
  unfold try_finally, try_except. unfold mbind at 1.
  rewrite prologue_done. unfold mbind at 1. rewrite body_done.
  now destruct r as [[]|e].
Qed.

Lemma session_scope_operational_failure :
  r = Raise OperationalError -> on_rollback sb = None -> on_close sb = None ->
  session_scope sb logs body w
  = (Raise OperationalError,
     add_events w2
       ([EvRollback] ++ (if logs then [EvLog ERROR "OperationalError"] else [])
        ++ [EvClose])).
Proof.
  intros E Hr Hc. rewrite session_scope_try, E.
  unfold try_finally, try_except, mbind; cbn [is_OperationalError].
  rewrite Hr, Hc, !session_op_Ok.
  destruct logs; cbn; unfold add_events; cbn; now rewrite <- !app_assoc.
Qed.

Lemma session_scope_other_failure (e : exn) :
  r = Raise e -> is_OperationalError e = false -> on_close sb = None ->
  session_scope sb logs body w = (Raise e, add_events w2 [EvClose]).
Proof.
  intros E He Hc. rewrite session_scope_try, E.
  unfold try_finally, try_except. rewrite He, Hc. now rewrite session_op_Ok.
Qed.

Lemma session_scope_commit :
  r = Ok tt -> on_commit sb = None -> on_close sb = None ->
  session_scope sb logs body w = (Ok tt, add_events w2 [EvCommit; EvClose]).
Proof.
  intros E Hm Hc. rewrite session_scope_try, E.
  unfold try_finally, try_except. rewrite Hm, Hc, !session_op_Ok.
  now rewrite add_events_app.
Qed.

End Scope.

(** C9: once the session exists, [session_scope] closes it on every path,
    whatever the prologue, the unit of work, the commit and the rollback do;
    and when the unit of work is reached: an [OperationalError] of the unit
    of work is followed by a rollback, an optional log record and the
    close, and is raised again; any other exception is followed by the
    close alone, without a rollback, and leaves the scope; a clean unit of
    work is followed by the commit and the close. *)
Theorem C9_session_scope_exit_paths (sb : session_behaviour) (logs : bool)
    (body : M unit) (w : world) :
  on_session sb = None ->
  (exists w', events (snd (session_scope sb logs body w))
              = (events w' ++ [EvClose])%list)
  /\ forall w1 w2 r,
       scope_prologue sb (add_events w [EvSession]) = (Ok tt, w1) ->
       body w1 = (r, w2) ->
       (r = Raise OperationalError -> on_rollback sb = None -> on_close sb = None ->
        session_scope sb logs body w
        = (Raise OperationalError,
           add_events w2
             ([EvRollback] ++ (if logs then [EvLog ERROR "OperationalError"] else [])
              ++ [EvClose])))
       /\ (forall e, r = Raise e -> is_OperationalError e = false ->
           on_close sb = None ->
           session_scope sb logs body w = (Raise e, add_events w2 [EvClose]))
       /\ (r = Ok tt -> on_commit sb = None -> on_close sb = None ->
           session_scope sb logs body w = (Ok tt, add_events w2 [EvCommit; EvClose])).
Proof.
  intros Hs. split; [now apply session_scope_closes|].
  intros w1 w2 r Hp Hb. split; [|split].
  - now apply session_scope_operational_failure with (w1 := w1).
  - intros e. now apply session_scope_other_failure with (w1 := w1).
  - now apply session_scope_commit with (w1 := w1).
Qed.

(** The three paths on a session that works, with SQLite as the stored
    backend. *)
Lemma C9_session_scope_exit_paths_witness :
  let sb := {| on_session := None; on_execute := None; on_commit := None;
               on_rollback := None; on_close := None |} in
  let w := world_of_config (line "DB_EXISTING_CONNECTION" "'SQLite'") in
  let w1 := add_events w [EvSession; EvConfigOpen; EvExecutePragma] in
  session_scope sb true (raise OperationalError) w
  = (Raise OperationalError,
     add_events w1 [EvRollback; EvLog ERROR "OperationalError"; EvClose])
  /\ session_scope sb true (raise KeyError) w = (Raise KeyError, add_events w1 [EvClose])
  /\ session_scope sb true (ret tt) w = (Ok tt, add_events w1 [EvCommit; EvClose]).
Proof.
  intros sb w w1. split; [|split].
  - exact (proj1 (proj2 (C9_session_scope_exit_paths sb true (raise OperationalError) w
                           eq_refl) w1 w1 (Raise OperationalError) eq_refl eq_refl)
             eq_refl eq_refl eq_refl).
  - exact (proj1 (proj2 (proj2 (C9_session_scope_exit_paths sb true (raise KeyError) w
                           eq_refl) w1 w1 (Raise KeyError) eq_refl eq_refl))
             KeyError eq_refl eq_refl eq_refl).
  - exact (proj2 (proj2 (proj2 (C9_session_scope_exit_paths sb true (ret tt) w
                           eq_refl) w1 w1 (Ok tt) eq_refl eq_refl))
             eq_refl eq_refl eq_refl).
Defined.

(** ** Numbers and their digits *)

Lemma N_to_uint_nonnil (n : N) : N.to_uint n <> Nil.
Proof.
  destruct n as [|p]; simpl; [discriminate|apply DecimalPos.Unsigned.to_uint_nonnil].
Qed.

Lemma digits_of_N_eq (n : N) :
  digits_of_N n = NilEmpty.string_of_uint (N.to_uint n).
Proof.
  unfold digits_of_N, NilZero.string_of_uint.
  destruct (N.to_uint n) eqn:E; try reflexivity.
  now destruct (N_to_uint_nonnil n).
Qed.

Lemma string_of_uint_digits (d : uint) :
  string_forallb is_digit (NilEmpty.string_of_uint d) = true.
Proof. induction d; simpl; auto. Qed.

Lemma digits_of_N_digits (n : N) : string_forallb is_digit (digits_of_N n) = true.
Proof. rewrite digits_of_N_eq. apply string_of_uint_digits. Qed.

Lemma digits_of_N_nonempty (n : N) : digits_of_N n <> "".
Proof.
  rewrite digits_of_N_eq. assert (H := N_to_uint_nonnil n).
  destruct (N.to_uint n); simpl; congruence.
Qed.

Lemma N_of_digits_Some (s : string) (n : N) :
  N_of_digits s = Some n <->
  s <> "" /\ exists d, NilEmpty.uint_of_string s = Some d /\ N.of_uint d = n.
Proof.
  unfold N_of_digits. destruct s as [|c s].
  - split; [discriminate|now intros [[] _]].
  - destruct (NilEmpty.uint_of_string (String c s)) as [d|]; simpl.
    + split.
      * intros [= <-]. split; [discriminate|now exists d].
      * now intros (_ & d' & [= <-] & <-).
    + split; [discriminate|now intros (_ & d' & [=] & _)].
Qed.

Lemma N_of_digits_digits (n : N) : N_of_digits (digits_of_N n) = Some n.
Proof.
  apply N_of_digits_Some. split; [apply digits_of_N_nonempty|].
  exists (N.to_uint n). rewrite digits_of_N_eq. split.
  - apply NilEmpty.usu.
  - apply DecimalN.Unsigned.of_to.
Qed.

(** Leading zeros do not change the number. *)
Lemma N_of_digits_zeros (k : nat) (s : string) (n : N) :
  N_of_digits s = Some n -> N_of_digits (zeros k ++ s) = Some n.
Proof.
  intros H. induction k as [|k IH]; [exact H|].
  apply N_of_digits_Some in IH as (_ & d & Hd & Hn).
  apply N_of_digits_Some. split; [discriminate|].
  exists (D0 d). simpl. rewrite Hd. now split.
Qed.

(** The digits of a number other than zero do not start with a zero. *)
Lemma digits_of_N_no_leading_zero (n : N) :
  n <> 0%N -> starts_with (Ascii.eqb "0") (digits_of_N n) = false.
Proof.
  intros Hn. rewrite digits_of_N_eq. destruct n as [|p]; [congruence|]. simpl.
  assert (Hu : unorm (Pos.to_uint p) = Pos.to_uint p).
  { rewrite <- (DecimalPos.Unsigned.to_of (Pos.to_uint p)).
    now rewrite DecimalPos.Unsigned.of_to. }
  assert (Hz := DecimalPos.Unsigned.to_uint_nonzero p).
  assert (Hh : nzhead (Pos.to_uint p) = Pos.to_uint p).
  { unfold unorm in Hu. destruct (nzhead (Pos.to_uint p)) eqn:E; congruence. }
  assert (H0 := nzhead_nonzero (Pos.to_uint p)). rewrite Hh in H0.
  destruct (Pos.to_uint p) as [|d|d|d|d|d|d|d|d|d|d]; try reflexivity.
  now destruct (H0 d).
Qed.

Lemma str_int_eq (z : Z) :
  str_int z = sign_str (z <? 0) ++ digits_of_N (Z.abs_N z).
Proof.
  unfold str_int, digits_of_N. now destruct z.
Qed.

Lemma length_zeros (k : nat) : String.length (zeros k) = k.
Proof. induction k; simpl; congruence. Qed.

Lemma zeros_digits (k : nat) : string_forallb is_digit (zeros k) = true.
Proof. induction k; simpl; auto. Qed.

Lemma take_drop (k : nat) (s : string) : take k s ++ drop k s = s.
Proof.
  revert s; induction k as [|k IH]; intros [|c s]; simpl; try reflexivity.
  now rewrite IH.
Qed.

Lemma length_drop (k : nat) (s : string) :
  String.length (drop k s) = (String.length s - k)%nat.
Proof.
  revert s; induction k as [|k IH]; intros [|c s]; simpl; auto.
Qed.

(** ** Integers: [literal_eval] reads [str(z)] back as [z] *)

Lemma digit_char_class (c : ascii) :
  is_digit c = true ->
  is_ident_start c = false /\ is_quote_char c = false /\ is_blank c = false
  /\ is_space c = false /\ Ascii.eqb c "." = false /\ Ascii.eqb c "-" = false
  /\ Ascii.eqb c "+" = false /\ Ascii.eqb c "_" = false /\ to_lower c = c
  /\ Ascii.eqb c "D" = false /\ Ascii.eqb c ch_quote = false
  /\ Ascii.eqb c "i" = false /\ Ascii.eqb c "n" = false /\ Ascii.eqb c "s" = false.
Proof.
  destruct c as [[] [] [] [] [] [] [] []]; try discriminate; intros _;
    repeat split; reflexivity.
Qed.

Lemma lstrip_keeps (f : ascii -> bool) (s : string) :
  starts_with f s = false -> lstrip f s = s.
Proof.
  unfold lstrip. destruct s as [|c s]; simpl; [reflexivity|]. now intros ->.
Qed.

Lemma span_all (f : ascii -> bool) (s : string) :
  string_forallb f s = true -> span f s = (s, "").
Proof.
  intros H. rewrite <- (append_nil_r s) at 1. now apply span_app.
Qed.

(** A run of digits, with nothing after it, is one integer token. *)
Lemma lex_step_digits (ds : string) (n : N) :
  string_forallb is_digit ds = true -> N_of_digits ds = Some n ->
  (n <> 0%N -> starts_with (Ascii.eqb "0") ds = false) ->
  lex_step ds = Tok (TInt n) "".
Proof.
  intros Hd Hn Hz. destruct ds as [|c ds]; [discriminate|].
  assert (Hc : is_digit c = true) by (simpl in Hd; now apply andb_prop in Hd).
  destruct (digit_char_class c Hc) as (Hi & _).
  unfold lex_step. rewrite Hi, Hc. cbn [orb].
  unfold lex_number. rewrite (span_all _ _ Hd). cbn -[N_of_digits].
  rewrite Hn. destruct (N.eqb_spec n 0) as [->|Hne]; [reflexivity|].
  generalize (Hz Hne). cbn. now intros ->.
Qed.

Lemma lex_digits (ds : string) (n : N) (fuel : nat) :
  string_forallb is_digit ds = true -> N_of_digits ds = Some n ->
  (n <> 0%N -> starts_with (Ascii.eqb "0") ds = false) ->
  lex (S (S fuel)) ds = LexOk [TInt n].
Proof.
  intros Hd Hn Hz.
  assert (Hs := lex_step_digits ds n Hd Hn Hz).
  destruct ds as [|c ds]; [discriminate|].
  assert (Hc : is_digit c = true) by (simpl in Hd; now apply andb_prop in Hd).
  destruct (digit_char_class c Hc) as (_ & _ & Hb & _).
  cbn [lex]. rewrite lstrip_keeps by exact Hb. now rewrite Hs.
Qed.

Lemma literal_eval_digits (n : N) :
  literal_eval (digits_of_N n) = LitOk (VInt (Z.of_N n)).
Proof.
  assert (Hd := digits_of_N_digits n). assert (Hn := N_of_digits_digits n).
  assert (Hz := digits_of_N_no_leading_zero n). assert (He := digits_of_N_nonempty n).
  unfold literal_eval.
  destruct (digits_of_N n) as [|c ds] eqn:E; [congruence|].
  assert (Hc : is_digit c = true) by (simpl in Hd; now apply andb_prop in Hd).
  destruct (digit_char_class c Hc) as (_ & _ & _ & Hsp & _).
  cbn [starts_with]. rewrite Hsp.
  cbn [String.length]. now rewrite (lex_digits _ n _ Hd Hn Hz).
Qed.

Lemma lex_minus (fuel : nat) (rest : string) :
  lex (S fuel) (String "-" rest)
  = match lex fuel rest with
    | LexOk ts => LexOk (TOp "-" :: ts)
    | LexRaise e => LexRaise e
    end.
Proof. reflexivity. Qed.

Lemma literal_eval_str_int (z : Z) : literal_eval (str_int z) = LitOk (VInt z).
Proof.
  rewrite str_int_eq. destruct z as [|p|p]; cbn [Z.ltb Z.compare sign_str].
  - apply literal_eval_digits.
  - change (Z.pos p) with (Z.of_N (Z.abs_N (Z.pos p))) at 2. apply literal_eval_digits.
  - assert (Hd := digits_of_N_digits (Z.abs_N (Z.neg p))).
    assert (Hn := N_of_digits_digits (Z.abs_N (Z.neg p))).
    assert (Hz := digits_of_N_no_leading_zero (Z.abs_N (Z.neg p))).
    assert (He := digits_of_N_nonempty (Z.abs_N (Z.neg p))).
    unfold literal_eval.
    destruct (digits_of_N (Z.abs_N (Z.neg p))) as [|c ds] eqn:E; [congruence|].
    cbn [String.append starts_with String.length].
    change (is_space "-") with false. cbv iota.
    rewrite lex_minus, (lex_digits _ _ _ Hd Hn Hz). reflexivity.
Qed.

(** A text without the first character of a pattern has no match. *)
Lemma re_search_absent (c : ascii) (prefix : string) (stop : ascii)
    (suffix s : string) :
  contains_char c s = false ->
  re_search (String c prefix) stop suffix s = None.
Proof.
  induction s as [|a s IH]; simpl; [reflexivity|].
  intros [Ha Hs]%orb_false_elim.
  unfold match_here. cbn [strip_prefix].
  rewrite Ascii.eqb_sym, Ha. now rewrite IH.
Qed.

Lemma search_decimal_literal_absent (s : string) :
  contains_char "D" s = false -> search_decimal_literal s = None.
Proof.
  intros H. unfold search_decimal_literal.
  change "Decimal('" with (String "D" "ecimal('").
  now rewrite re_search_absent.
Qed.

Lemma digits_without (c : ascii) (s : string) :
  is_digit c = false -> string_forallb is_digit s = true ->
  contains_char c s = false.
Proof.
  intros Hc Hs. apply contains_char_false.
  apply string_forallb_impl with (f := is_digit); [|exact Hs].
  intros a Ha. destruct (Ascii.eqb_spec a c) as [->|]; [congruence|reflexivity].
Qed.

Lemma decode_str_int (z : Z) : decode (VStr (str_int z)) = Ok (VInt z).
Proof.
  unfold decode, type_parser.
  rewrite search_decimal_literal_absent, literal_eval_str_int; [reflexivity|].
  rewrite str_int_eq, contains_char_app.
  rewrite (digits_without "D" _ eq_refl (digits_of_N_digits _)).
  now destruct (z <? 0).
Qed.

(** ** Decimals: [Decimal] reads [str(d)] back as [d] *)

Lemma sign_digit_char_class (c : ascii) :
  sign_digit_char c = true ->
  plain_char c = true /\ to_lower c = c /\ number_char c = true.
Proof.
  destruct c as [[] [] [] [] [] [] [] []]; try discriminate; intros _;
    repeat split; reflexivity.
Qed.

Lemma number_char_class (c : ascii) :
  number_char c = true ->
  plain_char c = true /\ Ascii.eqb c ch_quote = false
  /\ Ascii.eqb c ch_newline = false.
Proof.
  destruct c as [[] [] [] [] [] [] [] []]; try discriminate; intros _;
    repeat split; reflexivity.
Qed.

Lemma digit_is_sign_digit (c : ascii) : is_digit c = true -> sign_digit_char c = true.
Proof. unfold sign_digit_char. now intros ->. Qed.

Lemma string_map_app (f : ascii -> ascii) (a b : string) :
  string_map f (a ++ b) = string_map f a ++ string_map f b.
Proof. induction a; simpl; congruence. Qed.

Lemma string_map_id (f : ascii -> ascii) (g : ascii -> bool) (s : string) :
  (forall c, g c = true -> f c = c) ->
  string_forallb g s = true -> string_map f s = s.
Proof.
  intros H; induction s as [|c s IH]; simpl; [reflexivity|].
  intros [Hc Hs]%andb_prop. now rewrite (H c Hc), IH.
Qed.

Lemma remove_char_absent (c : ascii) (s : string) :
  contains_char c s = false -> remove_char c s = s.
Proof.
  induction s as [|a s IH]; simpl; [reflexivity|].
  intros [Ha Hs]%orb_false_elim. now rewrite Ha, IH.
Qed.

Lemma rstrip_keeps (f : ascii -> bool) (s : string) :
  string_forallb (fun c => negb (f c)) s = true -> rstrip f s = s.
Proof.
  induction s as [|c s IH]; simpl; [reflexivity|].
  intros [Hc Hs]%andb_prop. rewrite (IH Hs).
  apply negb_true_iff in Hc. rewrite Hc. now rewrite andb_false_r.
Qed.

(** The cleaning of [Decimal_of_string] leaves a text of plain characters
    as it is. *)
Lemma clean_plain (s : string) :
  string_forallb plain_char s = true -> remove_char "_" (strip s) = s.
Proof.
  intros H.
  assert (Hs : string_forallb (fun c => negb (is_space c)) s = true).
  { apply string_forallb_impl with (f := plain_char); [|exact H].
    unfold plain_char. now intros c [-> _]%andb_prop. }
  assert (Hu : contains_char "_" s = false).
  { apply contains_char_false.
    apply string_forallb_impl with (f := plain_char); [|exact H].
    unfold plain_char. now intros c [_ ->]%andb_prop. }
  unfold strip. rewrite lstrip_keeps.
  - rewrite rstrip_keeps by exact Hs. now apply remove_char_absent.
  - destruct s as [|c s]; [reflexivity|]. simpl in Hs |- *.
    apply andb_prop in Hs as [Hc _]. now apply negb_true_iff in Hc.
Qed.

Lemma sign_str_chars (neg : bool) : string_forallb sign_digit_char (sign_str neg) = true.
Proof. now destruct neg. Qed.

Lemma digits_sign_digit (s : string) :
  string_forallb is_digit s = true -> string_forallb sign_digit_char s = true.
Proof. apply string_forallb_impl, digit_is_sign_digit. Qed.

Lemma str_int_chars (z : Z) : string_forallb sign_digit_char (str_int z) = true.
Proof.
  rewrite str_int_eq, string_forallb_app, sign_str_chars.
  apply digits_sign_digit, digits_of_N_digits.
Qed.

Lemma str_signed_chars (z : Z) : string_forallb sign_digit_char (str_signed z) = true.
Proof.
  unfold str_signed. destruct (z <? 0); [apply str_int_chars|].
  simpl. apply str_int_chars.
Qed.

Lemma Z_of_signed_digits_str_signed (z : Z) :
  Z_of_signed_digits (str_signed z) = Some z.
Proof.
  unfold str_signed, Z_of_signed_digits. rewrite str_int_eq.
  destruct (Z.ltb_spec z 0) as [Hz|Hz]; cbn [sign_str String.append parse_sign];
    cbn [Ascii.eqb Bool.eqb]; rewrite N_of_digits_digits; f_equal.
  - rewrite N2Z.inj_abs_N. lia.
  - rewrite N2Z.inj_abs_N. lia.
Qed.

Lemma parse_sign_number (neg : bool) (r : string) :
  starts_with is_digit r = true -> parse_sign (sign_str neg ++ r) = (neg, r).
Proof.
  intros H. destruct neg; [reflexivity|].
  destruct r as [|c r]; [discriminate|]. simpl in H |- *.
  destruct (digit_char_class c H) as (_ & _ & _ & _ & _ & -> & -> & _).
  reflexivity.
Qed.

(** [parse_decimal] reads a numeric string in lower case. *)
Lemma parse_decimal_num_string (neg : bool) (ip fd : string) (hf : bool)
    (ex : option Z) (coef : N) :
  string_forallb is_digit ip = true -> ip <> "" ->
  string_forallb is_digit fd = true -> (hf = false -> fd = "") ->
  N_of_digits (ip ++ fd) = Some coef ->
  parse_decimal (num_string "e" neg ip fd hf ex)
  = Some (DFin neg coef
            (match ex with Some e => e | None => 0 end - Z.of_nat (String.length fd))).
Proof.
  intros Hip Hne Hfd Hhf Hn.
  set (expo := match ex with None => "" | Some e => "e" ++ str_signed e end).
  set (rest := (if hf then "." ++ fd else "") ++ expo).
  assert (Hexpo : starts_with is_digit expo = false) by (subst expo; now destruct ex).
  assert (Hrest : starts_with is_digit rest = false).
  { subst rest. destruct hf; [reflexivity|]. exact Hexpo. }
  unfold parse_decimal, num_string. fold expo. fold rest.
  destruct ip as [|c ip']; [congruence|].
  assert (Hc : is_digit c = true) by (simpl in Hip; now apply andb_prop in Hip).
  rewrite parse_sign_number by exact Hc.
  destruct (digit_char_class c Hc)
    as (_ & _ & _ & _ & _ & _ & _ & _ & _ & _ & _ & Hi & Hnn & Hs).
  cbn [String.append String.eqb strip_prefix].
  rewrite Hi, (Ascii.eqb_sym "n" c), Hnn, (Ascii.eqb_sym "s" c), Hs.
  cbn [andb orb].
  change (String c (ip' ++ rest)) with (String c ip' ++ rest).
  rewrite (span_app _ _ _ Hip Hrest).
  assert (Hfrac :
    match rest with
    | String c0 r' => if Ascii.eqb c0 "." then span is_digit r' else ("", rest)
    | "" => ("", rest)
    end = (fd, expo)).
  { subst rest. destruct hf.
    - cbn [String.append Ascii.eqb Bool.eqb]. now apply span_app.
    - rewrite (Hhf eq_refl). cbn [String.append].
      subst expo. now destruct ex. }
  rewrite Hfrac, Hn.
  subst expo. destruct ex as [e|]; [|reflexivity].
  cbn [String.append Ascii.eqb Bool.eqb]. now rewrite Z_of_signed_digits_str_signed.
Qed.

(** The cleaning and the lowering turn the printed form into the form that
    [parse_decimal] reads. *)
Lemma clean_num_string (neg : bool) (ip fd : string) (hf : bool) (ex : option Z) :
  string_forallb is_digit ip = true -> string_forallb is_digit fd = true ->
  string_map to_lower (remove_char "_" (strip (num_string "E" neg ip fd hf ex)))
  = num_string "e" neg ip fd hf ex.
Proof.
  intros Hip Hfd.
  assert (Hlow : forall s, string_forallb sign_digit_char s = true ->
                           string_map to_lower s = s).
  { intros s. apply string_map_id. intros c Hc. now apply sign_digit_char_class. }
  assert (Hfrac : string_forallb sign_digit_char (if hf then "." ++ fd else "") = true).
  { destruct hf; [|reflexivity]. simpl. now apply digits_sign_digit. }
  rewrite clean_plain.
  - unfold num_string. rewrite !string_map_app.
    rewrite (Hlow _ (sign_str_chars neg)), (Hlow _ (digits_sign_digit _ Hip)), (Hlow _ Hfrac).
    destruct ex as [e|]; [|reflexivity].
    rewrite string_map_app, (Hlow _ (str_signed_chars e)). reflexivity.
  - apply string_forallb_impl with (f := number_char).
    { intros c Hc. now apply number_char_class. }
    assert (Hsd : forall s, string_forallb sign_digit_char s = true ->
                            string_forallb number_char s = true).
    { intros s. apply string_forallb_impl. intros c Hc. now apply sign_digit_char_class. }
    unfold num_string. rewrite !string_forallb_app.
    rewrite (Hsd _ (sign_str_chars neg)), (Hsd _ (digits_sign_digit _ Hip)), (Hsd _ Hfrac).
    destruct ex as [e|]; [|reflexivity].
    rewrite string_forallb_app, (Hsd _ (str_signed_chars e)). reflexivity.
Qed.

Lemma num_string_chars (neg : bool) (ip fd : string) (hf : bool) (ex : option Z) :
  string_forallb is_digit ip = true -> string_forallb is_digit fd = true ->
  string_forallb number_char (num_string "E" neg ip fd hf ex) = true.
Proof.
  intros Hip Hfd.
  assert (Hsd : forall s, string_forallb sign_digit_char s = true ->
                          string_forallb number_char s = true).
  { intros s. apply string_forallb_impl. intros c Hc. now apply sign_digit_char_class. }
  assert (Hfrac : string_forallb sign_digit_char (if hf then "." ++ fd else "") = true).
  { destruct hf; [|reflexivity]. simpl. now apply digits_sign_digit. }
  unfold num_string. rewrite !string_forallb_app.
  rewrite (Hsd _ (sign_str_chars neg)), (Hsd _ (digits_sign_digit _ Hip)), (Hsd _ Hfrac).
  destruct ex as [e|]; [|reflexivity].
  rewrite string_forallb_app, (Hsd _ (str_signed_chars e)). reflexivity.
Qed.

Lemma forallb_take_drop (f : ascii -> bool) (k : nat) (s : string) :
  string_forallb f s = true ->
  string_forallb f (take k s) = true /\ string_forallb f (drop k s) = true.
Proof.
  intros H. rewrite <- (take_drop k s), string_forallb_app in H.
  now apply andb_prop in H.
Qed.

Lemma take_nonempty (k : nat) (s : string) :
  (0 < k)%nat -> s <> "" -> take k s <> "".
Proof. destruct k, s; simpl; try lia; congruence. Qed.

(** [str_decimal] prints a finite decimal as a numeric string whose digits
    and exponent give the coefficient and the exponent back. *)
Lemma str_decimal_finite_form (neg : bool) (coef : N) (exp : Z) :
  exists ip fd hf ex,
    str_decimal (DFin neg coef exp) = num_string "E" neg ip fd hf ex
    /\ string_forallb is_digit ip = true /\ ip <> ""
    /\ string_forallb is_digit fd = true /\ (hf = false -> fd = "")
    /\ N_of_digits (ip ++ fd) = Some coef
    /\ match ex with Some e => e | None => 0 end - Z.of_nat (String.length fd) = exp.
Proof.
  unfold str_decimal, num_string.
  assert (Hd := digits_of_N_digits coef). assert (Hne := digits_of_N_nonempty coef).
  assert (Hn := N_of_digits_digits coef).
  set (digits := digits_of_N coef) in *.
  assert (Hlen : 1 <= Z.of_nat (String.length digits)).
  { destruct digits; [congruence|]. simpl String.length. lia. }
  set (len := Z.of_nat (String.length digits)) in *.
  set (leftdigits := exp + len).
  destruct ((exp <=? 0) && (-6 <? leftdigits)) eqn:HA.
  - apply andb_prop in HA as [HA1%Z.leb_le HA2%Z.ltb_lt].
    rewrite Z.eqb_refl.
    destruct (Z.leb_spec leftdigits 0) as [H1|H1].
    + exists "0", (zeros (Z.to_nat (- leftdigits)) ++ digits), true, None.
      split; [reflexivity|]. split; [reflexivity|]. split; [discriminate|].
      split; [now rewrite string_forallb_app, zeros_digits|].
      split; [discriminate|]. split.
      * apply (N_of_digits_zeros (S (Z.to_nat (- leftdigits))) digits coef Hn).
      * rewrite length_append, length_zeros, Nat2Z.inj_add, Z2Nat.id by lia.
        fold len. unfold leftdigits. lia.
    + destruct (Z.leb_spec len leftdigits) as [H2|H2].
      * exists digits, "", false, None.
        replace (leftdigits - len) with 0 by (unfold leftdigits; lia).
        cbn [Z.to_nat zeros]. rewrite !append_nil_r.
        split; [reflexivity|]. split; [exact Hd|]. split; [exact Hne|].
        split; [reflexivity|]. split; [reflexivity|]. split; [exact Hn|].
        simpl. unfold leftdigits in H2. lia.
      * exists (take (Z.to_nat leftdigits) digits), (drop (Z.to_nat leftdigits) digits),
          true, None.
        destruct (forallb_take_drop is_digit (Z.to_nat leftdigits) digits Hd) as [Ht Hr].
        split; [reflexivity|]. split; [exact Ht|].
        split; [apply take_nonempty; [lia|exact Hne]|].
        split; [exact Hr|]. split; [discriminate|].
        split; [now rewrite take_drop|].
        rewrite length_drop, Nat2Z.inj_sub by lia.
        rewrite Z2Nat.id by lia. fold len. unfold leftdigits. lia.
  - assert (HB : 0 < exp \/ leftdigits <= -6).
    { apply andb_false_iff in HA as [H%Z.leb_gt|H%Z.ltb_ge]; lia. }
    change (1 <=? 0) with false. cbv iota.
    destruct (Z.eqb_spec leftdigits 1) as [E|E]; [unfold leftdigits in E; lia|].
    destruct (Z.leb_spec len 1) as [H2|H2].
    + exists digits, "", false, (Some (leftdigits - 1)).
      replace (1 - len) with 0 by lia.
      cbn [Z.to_nat zeros]. rewrite !append_nil_r.
      split; [reflexivity|]. split; [exact Hd|]. split; [exact Hne|].
      split; [reflexivity|]. split; [reflexivity|]. split; [exact Hn|].
      simpl. unfold leftdigits. lia.
    + exists (take 1 digits), (drop 1 digits), true, (Some (leftdigits - 1)).
      change (Z.to_nat 1) with 1%nat.
      destruct (forallb_take_drop is_digit 1 digits Hd) as [Ht Hr].
      split; [reflexivity|]. split; [exact Ht|].
      split; [apply take_nonempty; [lia|exact Hne]|].
      split; [exact Hr|]. split; [discriminate|].
      split; [now rewrite take_drop|].
      rewrite length_drop, Nat2Z.inj_sub by lia. fold len. unfold leftdigits. lia.
Qed.

Lemma Decimal_of_string_str_decimal (d : decimal) :
  Decimal_of_string (str_decimal d) = Some d.
Proof.
  destruct d as [neg coef exp|neg|neg sig p].
  - destruct (str_decimal_finite_form neg coef exp)
      as (ip & fd & hf & ex & -> & Hip & Hne & Hfd & Hhf & Hn & He).
    unfold Decimal_of_string. rewrite clean_num_string by assumption.
    rewrite (parse_decimal_num_string neg ip fd hf ex coef) by assumption.
    now rewrite He.
  - now destruct neg.
  - unfold Decimal_of_string, str_decimal.
    assert (Hpay : forall s, string_forallb number_char s = true ->
                             remove_char "_" (strip s) = s).
    { intros s Hs. apply clean_plain.
      apply string_forallb_impl with (f := number_char); [|exact Hs].
      intros c Hc. now apply number_char_class. }
    assert (Hlow : string_map to_lower (digits_of_N p) = digits_of_N p).
    { apply string_map_id with (g := sign_digit_char).
      - intros c Hc. now apply sign_digit_char_class.
      - apply digits_sign_digit, digits_of_N_digits. }
    assert (Hnum : string_forallb number_char (digits_of_N p) = true).
    { apply string_forallb_impl with (f := sign_digit_char).
      - intros c Hc. now apply sign_digit_char_class.
      - apply digits_sign_digit, digits_of_N_digits. }
    assert (Hpd := N_of_digits_digits p). assert (Hpn := digits_of_N_nonempty p).
    destruct (N.eqb_spec p 0) as [->|Hp].
    + now destruct neg, sig.
    + rewrite Hpay.
      2:{ rewrite !string_forallb_app, Hnum. now destruct neg, sig. }
      rewrite !string_map_app, Hlow.
      unfold parse_decimal.
      destruct (digits_of_N p) as [|c ds] eqn:E; [congruence|].
      destruct neg, sig; cbn [sign_str];
        repeat match goal with
               | |- context [string_map to_lower ?s] =>
                   let v := eval vm_compute in (string_map to_lower s) in
                   change (string_map to_lower s) with v
               end;
        cbn -[N_of_digits]; now rewrite Hpd.
Qed.

Lemma str_decimal_chars (d : decimal) :
  string_forallb number_char (str_decimal d) = true.
Proof.
  destruct d as [neg coef exp|neg|neg sig p].
  - destruct (str_decimal_finite_form neg coef exp)
      as (ip & fd & hf & ex & -> & Hip & _ & Hfd & _).
    now apply num_string_chars.
  - now destruct neg.
  - unfold str_decimal. rewrite !string_forallb_app.
    assert (Hnum : string_forallb number_char (digits_of_N p) = true).
    { apply string_forallb_impl with (f := sign_digit_char).
      - intros c Hc. now apply sign_digit_char_class.
      - apply digits_sign_digit, digits_of_N_digits. }
    destruct (p =? 0)%N; [|rewrite Hnum]; now destruct neg, sig.
Qed.

Lemma str_decimal_nonempty (d : decimal) : str_decimal d <> "".
Proof.
  destruct d as [neg coef exp|neg|neg sig p].
  - destruct (str_decimal_finite_form neg coef exp)
      as (ip & fd & hf & ex & -> & _ & Hne & _).
    unfold num_string. destruct neg; [discriminate|].
    destruct ip; [congruence|discriminate].
  - now destruct neg.
  - now destruct neg, sig.
Qed.

(** The text that [to_string] prints for a decimal is read back by
    [decode] as the same decimal. *)
Lemma decode_decimal_literal (d : decimal) :
  decode (VStr ("Decimal('" ++ str_decimal d ++ "')")) = Ok (VDecimal d).
Proof.
  unfold decode, type_parser, search_decimal_literal.
  assert (Hq : contains_char ch_quote (str_decimal d) = false).
  { apply contains_char_false.
    apply string_forallb_impl with (f := number_char); [|apply str_decimal_chars].
    intros c Hc. destruct (number_char_class c Hc) as (_ & -> & _). reflexivity. }
  assert (Hm := match_here_intro "Decimal('" ch_quote ")" (str_decimal d) ""
                  (str_decimal_nonempty d) Hq).
  change (String ch_quote ")") with "')" in Hm.
  rewrite append_nil_r in Hm.
  assert (Hs : re_search "Decimal('" ch_quote "')" ("Decimal('" ++ str_decimal d ++ "')")
               = Some ("", str_decimal d, "")).
  { apply (re_search_intro _ _ _ "" _ _ ""); [|exact Hm].
    intros a b Hab Hb. destruct a, b; simpl in Hab; congruence. }
  rewrite Hs. now rewrite Decimal_of_string_str_decimal.
Qed.

(** ** The round trip *)

Lemma str_float_without_D (f : pyfloat) : contains_char "D" (str_float f) = false.
Proof.
  destruct f as [neg m e|neg|]; [|now destruct neg|reflexivity].
  unfold str_float, str_float_exp.
  assert (Hd := digits_of_N_digits m).
  set (digits := digits_of_N m) in *.
  assert (HD : forall s, string_forallb is_digit s = true -> contains_char "D" s = false).
  { intros s Hs. now apply digits_without. }
  assert (Ht := fun k => HD _ (proj1 (forallb_take_drop is_digit k digits Hd))).
  assert (Hr := fun k => HD _ (proj2 (forallb_take_drop is_digit k digits Hd))).
  assert (Hz := fun k => HD _ (zeros_digits k)).
  assert (Ha := fun n => HD _ (digits_of_N_digits n)).
  assert (Hs : contains_char "D" (sign_str neg) = false) by now destruct neg.
  repeat match goal with
         | |- context [if ?b then _ else _] => destruct b
         end;
    rewrite ?contains_char_app, ?Hs, ?Ht, ?Hr, ?Hz, ?Ha, ?(HD _ Hd); cbn;
    rewrite ?contains_char_app, ?Hs, ?Ht, ?Hr, ?Hz, ?Ha, ?(HD _ Hd); reflexivity.
Qed.

(** ** Floats: [literal_eval] reads [repr(f)] back as [f] *)

Lemma floor_log2_scale (num den c : Z) :
  0 < num -> 0 < den -> 0 < c ->
  floor_log2 (num * c) (den * c) = floor_log2 num den.
Proof.
  intros Hn Hd Hc. unfold floor_log2.
  replace (den * c <=? num * c) with (den <=? num).
  2:{ destruct (Z.leb_spec den num), (Z.leb_spec (den * c) (num * c)); try reflexivity; nia. }
  rewrite Z.div_mul_cancel_r by lia.
  replace (- (den * c)) with (- den * c) by ring.
  now rewrite Z.div_mul_cancel_r by lia.
Qed.

Lemma round_fraction_scale (num den c : Z) :
  0 <= num -> 0 < den -> 0 < c ->
  round_fraction (num * c) (den * c) = round_fraction num den.
Proof.
  intros Hn Hd Hc. unfold round_fraction.
  destruct (Z.eqb_spec num 0) as [->|Hn0]; [reflexivity|].
  destruct (Z.eqb_spec (num * c) 0) as [E|_]; [nia|].
  rewrite floor_log2_scale by lia.
  set (e := Z.max (floor_log2 num den - 52) (-1074)).
  set (a := if 0 <=? e then num else num * 2 ^ (- e)).
  set (b := if 0 <=? e then den * 2 ^ e else den).
  assert (Ha : (if 0 <=? e then num * c else num * c * 2 ^ (- e)) = a * c).
  { subst a. destruct (0 <=? e); ring. }
  assert (Hb : (if 0 <=? e then den * c * 2 ^ e else den * c) = b * c).
  { subst b. destruct (0 <=? e); ring. }
  assert (Hbpos : 0 < b).
  { subst b. destruct (Z.leb_spec 0 e); [|lia].
    apply Z.mul_pos_pos; [lia|]. apply Z.pow_pos_nonneg; lia. }
  rewrite Ha, Hb.
  rewrite Z.div_mul_cancel_r by lia.
  rewrite Z.mul_mod_distr_r by lia.
  set (q := a / b). set (r := a mod b).
  replace (b * c <? 2 * (r * c)) with (b <? 2 * r).
  2:{ destruct (Z.ltb_spec b (2 * r)), (Z.ltb_spec (b * c) (2 * (r * c)));
        try reflexivity; nia. }
  replace (b * c =? 2 * (r * c)) with (b =? 2 * r).
  2:{ destruct (Z.eqb_spec b (2 * r)), (Z.eqb_spec (b * c) (2 * (r * c)));
        try reflexivity; nia. }
  reflexivity.
Qed.

(** The rounding depends on the value of the fraction only. *)
Lemma round_fraction_value (n1 d1 n2 d2 : Z) :
  0 <= n1 -> 0 < d1 -> 0 <= n2 -> 0 < d2 -> n1 * d2 = n2 * d1 ->
  round_fraction n1 d1 = round_fraction n2 d2.
Proof.
  intros H1 H2 H3 H4 E.
  rewrite <- (round_fraction_scale n1 d1 d2) by lia.
  rewrite <- (round_fraction_scale n2 d2 d1) by lia.
  rewrite E. f_equal. ring.
Qed.

Lemma floor_log2_binary (M exp : Z) :
  0 < M ->
  floor_log2 (if 0 <=? exp then M * 2 ^ exp else M)
             (if 0 <=? exp then 1 else 2 ^ (- exp))
  = Z.log2 M + exp.
Proof.
  intros HM. unfold floor_log2.
  destruct (Z.leb_spec 0 exp) as [He|He].
  - assert (0 < 2 ^ exp) by (apply Z.pow_pos_nonneg; lia).
    destruct (Z.leb_spec 1 (M * 2 ^ exp)); [|nia].
    rewrite Z.div_1_r, Z.log2_mul_pow2 by lia. lia.
  - set (k := - exp). assert (Hk : 0 < k) by lia.
    assert (Hp : 0 < 2 ^ k) by (apply Z.pow_pos_nonneg; lia).
    assert (HL := Z.log2_spec M HM). set (L := Z.log2 M) in *.
    assert (HL0 : 0 <= L) by apply Z.log2_nonneg.
    destruct (Z.leb_spec (2 ^ k) M) as [Hle|Hlt].
    + rewrite <- Z.shiftr_div_pow2 by lia. rewrite Z.log2_shiftr by lia.
      fold L. assert (k <= L) by (apply Z.log2_le_pow2; lia). lia.
    + assert (HLk : L < k).
      { destruct (Z.lt_ge_cases L k) as [|Hge]; [assumption|].
        assert (2 ^ k <= 2 ^ L) by (apply Z.pow_le_mono_r; lia). lia. }
      set (d := - 2 ^ k / M).
      assert (Hd1 := Z.mul_div_le (- 2 ^ k) M HM).
      assert (Hd2 := Z.mul_succ_div_gt (- 2 ^ k) M HM). fold d in Hd1, Hd2.
      assert (E1 : 2 ^ k = 2 ^ L * 2 ^ (k - L)).
      { rewrite <- Z.pow_add_r by lia. f_equal. lia. }
      assert (E2 : 2 ^ k = 2 ^ Z.succ L * 2 ^ Z.pred (k - L)).
      { rewrite <- Z.pow_add_r by lia. f_equal. lia. }
      assert (P1 : 0 < 2 ^ (k - L)) by (apply Z.pow_pos_nonneg; lia).
      assert (P2 : 0 < 2 ^ Z.pred (k - L)) by (apply Z.pow_pos_nonneg; lia).
      rewrite (Z.log2_up_unique (- d) (k - L)); [lia|lia|].
      split; nia.
Qed.

Lemma round_binary_exact (M exp : Z) :
  0 < M -> M < 2 ^ 53 -> -1074 <= exp -> exp <= 971 ->
  (2 ^ 52 <= M \/ exp = -1074) ->
  round_fraction (if 0 <=? exp then M * 2 ^ exp else M)
                 (if 0 <=? exp then 1 else 2 ^ (- exp))
  = Some (Z.to_N M, exp).
Proof.
  intros HM Hlt He1 He2 Hn. unfold round_fraction.
  rewrite floor_log2_binary by exact HM.
  assert (HL : Z.log2 M <= 52).
  { assert (Z.log2 M < 53) by (apply Z.log2_lt_pow2; lia). lia. }
  assert (He : Z.max (Z.log2 M + exp - 52) (-1074) = exp).
  { destruct Hn as [Hn| ->].
    - assert (52 <= Z.log2 M) by (apply Z.log2_le_pow2; lia). lia.
    - lia. }
  rewrite He.
  assert (Hnum : ((if 0 <=? exp then M * 2 ^ exp else M) =? 0) = false).
  { destruct (Z.leb_spec 0 exp); apply Z.eqb_neq; [|lia].
    assert (0 < 2 ^ exp) by (apply Z.pow_pos_nonneg; lia). nia. }
  rewrite Hnum.
  assert (Ha : (if 0 <=? exp
                then (if 0 <=? exp then M * 2 ^ exp else M)
                else (if 0 <=? exp then M * 2 ^ exp else M) * 2 ^ (- exp))
               = M * (if 0 <=? exp then 2 ^ exp else 2 ^ (- exp))).
  { now destruct (0 <=? exp). }
  assert (Hb : (if 0 <=? exp
                then (if 0 <=? exp then 1 else 2 ^ (- exp)) * 2 ^ exp
                else (if 0 <=? exp then 1 else 2 ^ (- exp)))
               = (if 0 <=? exp then 2 ^ exp else 2 ^ (- exp))).
  { destruct (0 <=? exp); [ring|reflexivity]. }
  rewrite Ha, Hb.
  set (p := if 0 <=? exp then 2 ^ exp else 2 ^ (- exp)).
  assert (Hp : 0 < p).
  { subst p. destruct (Z.leb_spec 0 exp); apply Z.pow_pos_nonneg; lia. }
  rewrite Z.div_mul, Z.mod_mul by lia.
  replace (p <? 2 * 0) with false by (symmetry; apply Z.ltb_ge; lia).
  replace (p =? 2 * 0) with false by (symmetry; apply Z.eqb_neq; lia).
  cbn [orb andb].
  replace (M =? 2 ^ 53) with false by (symmetry; apply Z.eqb_neq; lia).
  replace (971 <? exp) with false by (symmetry; apply Z.ltb_ge; lia).
  reflexivity.
Qed.

Lemma canonical_inv (b : binary64) :
  canonical b = true ->
  Z.of_N (b_mant b) < 2 ^ 53 /\ -1074 <= b_exp b /\ b_exp b <= 971
  /\ (2 ^ 52 <= Z.of_N (b_mant b) \/ b_exp b = -1074).
Proof.
  unfold canonical. intros [[[H1 H2]%andb_prop H3]%andb_prop H4]%andb_prop.
  apply Z.ltb_lt in H1. apply Z.leb_le in H2, H3.
  apply orb_prop in H4 as [H4|H4]; [apply Z.leb_le in H4|apply Z.eqb_eq in H4]; auto.
Qed.

(** The exact decimal expansion of a float reads as the float. *)
Lemma exact_decimal_reads (n : bool) (mant : N) (exp : Z) :
  canonical (B64 n mant exp) = true -> mant <> 0%N ->
  round_decimal (fst (exact_decimal mant exp)) (snd (exact_decimal mant exp))
  = Some (mant, exp).
Proof.
  intros Hc Hm. apply canonical_inv in Hc as (H1 & H2 & H3 & H4). cbn in H1, H2, H3, H4.
  assert (HM : 0 < Z.of_N mant) by lia.
  rewrite <- (N2Z.id mant) at 3.
  rewrite <- (round_binary_exact (Z.of_N mant) exp HM H1 H2 H3 H4).
  unfold round_decimal, exact_decimal, decimal_fraction.
  destruct (Z.leb_spec 0 exp) as [He|He]; cbn [fst snd Z.leb Z.compare].
  - f_equal.
    rewrite N2Z.inj_mul, N2Z.inj_pow, Z2N.id by lia. cbn. ring.
  - replace (0 <=? exp) with false by (symmetry; apply Z.leb_gt; lia).
    cbn [fst snd].
    assert (P5 : 0 < 5 ^ (- exp)) by (apply Z.pow_pos_nonneg; lia).
    assert (P2 : 0 < 2 ^ (- exp)) by (apply Z.pow_pos_nonneg; lia).
    apply round_fraction_value.
    + rewrite N2Z.inj_mul, N2Z.inj_pow, Z2N.id by lia. cbn. nia.
    + apply Z.pow_pos_nonneg; lia.
    + lia.
    + exact P2.
    + rewrite N2Z.inj_mul, N2Z.inj_pow, Z2N.id by lia.
      change 10 with (2 * 5). rewrite Z.pow_mul_l. cbn. ring.
Qed.

Lemma shortest_from_reads (n0 : bool) (fuel : nat) (mant : N) (exp k n : Z) :
  canonical (B64 n0 mant exp) = true -> mant <> 0%N ->
  reads_as mant exp (shortest_from fuel mant exp k n) = true.
Proof.
  intros Hc Hm. revert n. induction fuel as [|fuel IH]; intros n.
  - cbn [shortest_from]. unfold reads_as.
    rewrite (exact_decimal_reads n0 mant exp Hc Hm).
    now rewrite N.eqb_refl, Z.eqb_refl.
  - cbn [shortest_from]. destruct (binary_fraction mant exp) as [num den].
    set (s := k - n + 1). set (lo := floor_scaled num den s).
    destruct (reads_as mant exp (strip_trailing_zeros 20 (Z.to_N lo) s)) eqn:E1;
      destruct (reads_as mant exp (strip_trailing_zeros 20 (Z.to_N (lo + 1)) s)) eqn:E2;
      cbn [andb orb negb]; try destruct (nearer_low num den lo s);
      cbn [andb orb negb]; auto.
Qed.

Lemma reads_as_inv (mant : N) (exp : Z) (c : N * Z) :
  reads_as mant exp c = true -> round_decimal (fst c) (snd c) = Some (mant, exp).
Proof.
  unfold reads_as. destruct (round_decimal (fst c) (snd c)) as [[m e]|]; [|discriminate].
  intros [H1 H2]%andb_prop. apply N.eqb_eq in H1. apply Z.eqb_eq in H2. now subst.
Qed.

(** The decimal that [repr] prints for a float reads as the float. *)
Lemma float_of_decimal_shortest (b : binary64) :
  canonical b = true ->
  float_of_decimal (fst (shortest_decimal (b_mant b) (b_exp b)))
                   (snd (shortest_decimal (b_mant b) (b_exp b)))
  = float_of_binary (B64 false (b_mant b) (b_exp b)).
Proof.
  destruct b as [n mant exp]. cbn [b_mant b_exp]. intros Hc.
  unfold float_of_decimal.
  destruct (N.eqb_spec mant 0) as [->|Hm].
  - apply canonical_inv in Hc. cbn in Hc. destruct Hc as (_ & _ & _ & [H| ->]); [lia|].
    reflexivity.
  - assert (H : round_decimal (fst (shortest_decimal mant exp))
                              (snd (shortest_decimal mant exp)) = Some (mant, exp)).
    { apply reads_as_inv. unfold shortest_decimal.
      destruct (N.eqb_spec mant 0); [congruence|].
      destruct (binary_fraction mant exp). now apply (shortest_from_reads n). }
    now rewrite H.
Qed.

Lemma float_of_decimal_scaled (m : N) (j : Z) :
  0 <= j ->
  float_of_decimal (m * 10 ^ Z.to_N (j + 1)) (-1) = float_of_decimal m j.
Proof.
  intros Hj. unfold float_of_decimal, round_decimal, decimal_fraction.
  replace (0 <=? j) with true by (symmetry; apply Z.leb_le; lia).
  cbn [Z.leb Z.compare fst snd Z.opp].
  assert (P : 0 < 10 ^ j) by (apply Z.pow_pos_nonneg; lia).
  rewrite (round_fraction_value _ (10 ^ 1) (Z.of_N m * 10 ^ j) 1); [reflexivity|..].
  - lia.
  - lia.
  - nia.
  - lia.
  - rewrite N2Z.inj_mul, N2Z.inj_pow, Z2N.id by lia.
    rewrite Z.pow_add_r by lia. cbn. ring.
Qed.

Lemma uint_of_string_app (s t : string) (d d' : uint) :
  NilEmpty.uint_of_string s = Some d -> NilEmpty.uint_of_string t = Some d' ->
  NilEmpty.uint_of_string (s ++ t) = Some (Decimal.app d d').
Proof.
  revert d. induction s as [|c s IH]; intros d Hs Ht.
  - simpl in Hs. injection Hs as <-. exact Ht.
  - cbn [String.append NilEmpty.uint_of_string] in *.
    destruct (NilEmpty.uint_of_string s) as [u|] eqn:E; [|discriminate].
    rewrite (IH u eq_refl Ht).
    unfold uint_of_char in *.
    destruct c as [[] [] [] [] [] [] [] []]; try discriminate;
      injection Hs as <-; f_equal; apply DecimalFacts.to_list_inj;
      rewrite !DecimalFacts.app_spec; cbn [DecimalFacts.to_list];
      now rewrite DecimalFacts.app_spec.
Qed.

Lemma uint_of_string_zeros (k : nat) :
  NilEmpty.uint_of_string (zeros k) = Some (Nat.iter k D0 Nil).
Proof.
  induction k as [|k IH]; [reflexivity|]. cbn [zeros NilEmpty.uint_of_string].
  now rewrite IH.
Qed.

Lemma iter_mul10 (k : nat) (z : Z) : Nat.iter k (Z.mul 10) z = z * 10 ^ Z.of_nat k.
Proof.
  induction k as [|k IH]; [cbn; ring|].
  rewrite Nat2Z.inj_succ, Z.pow_succ_r by lia.
  change (Nat.iter (S k) (Z.mul 10) z) with (10 * Nat.iter k (Z.mul 10) z).
  rewrite IH. ring.
Qed.

(** Zeros after the digits multiply the number by a power of ten. *)
Lemma N_of_digits_trailing_zeros (k : nat) (s : string) (n : N) :
  N_of_digits s = Some n -> N_of_digits (s ++ zeros k) = Some (n * 10 ^ N.of_nat k)%N.
Proof.
  intros H. apply N_of_digits_Some in H as (Hne & d & Hd & Hn).
  apply N_of_digits_Some. split.
  - destruct s; [congruence|discriminate].
  - exists (Decimal.app d (Nat.iter k D0 Nil)). split.
    + apply uint_of_string_app; [exact Hd|apply uint_of_string_zeros].
    + apply N2Z.inj. assert (E := DecimalZ.of_uint_iter_D0 d k).
      unfold Z.of_uint in E. unfold N.of_uint in *. rewrite E, iter_mul10, Hn.
      rewrite N2Z.inj_mul, N2Z.inj_pow, nat_N_Z. reflexivity.
Qed.


Lemma str_float_exp_form (z : Z) :
  exists dd, str_float_exp z = (if z <? 0 then "-" else "+") ++ dd
             /\ string_forallb is_digit dd = true /\ dd <> ""
             /\ N_of_digits dd = Some (Z.abs_N z).
Proof.
  unfold str_float_exp.
  assert (Hd := digits_of_N_digits (Z.abs_N z)).
  assert (Hn := N_of_digits_digits (Z.abs_N z)).
  assert (He := digits_of_N_nonempty (Z.abs_N z)).
  destruct (String.length (digits_of_N (Z.abs_N z)) <? 2)%nat.
  - exists ("0" ++ digits_of_N (Z.abs_N z)). repeat split.
    + cbn [String.append string_forallb]. exact Hd.
    + discriminate.
    + exact (N_of_digits_zeros 1 _ _ Hn).
  - exists (digits_of_N (Z.abs_N z)). repeat split; assumption.
Qed.

Lemma exp_part_tail (z : Z) :
  (let '(has_exp, ex, r3) :=
     let (neg, r'') := parse_sign (str_float_exp z) in
     let (ed, r3) := span is_digit r'' in
     match N_of_digits ed with
     | Some n => (true, if neg then - Z.of_N n else Z.of_N n, r3)
     | None => (false, 0, String "e" (str_float_exp z))
     end in (has_exp, ex, r3)) = (true, z, "").
Proof.
  destruct (str_float_exp_form z) as (dd & -> & Hd & Hne & Hn).
  assert (Hp : parse_sign ((if z <? 0 then "-" else "+") ++ dd) = (z <? 0, dd)).
  { destruct (z <? 0); reflexivity. }
  rewrite Hp, (span_all _ _ Hd), Hn.
  destruct (Z.ltb_spec z 0); f_equal; f_equal; lia.
Qed.

(** A float literal with nothing after it is one float token. *)
Lemma lex_number_float (ip fd : string) (hf : bool) (ex : option Z) (M : N) :
  string_forallb is_digit ip = true -> ip <> "" ->
  string_forallb is_digit fd = true -> (hf = false -> fd = "") ->
  (hf = false -> ex <> None) ->
  N_of_digits (ip ++ fd) = Some M ->
  lex_number (ip ++ (if hf then "." ++ fd else "") ++ exp_part ex)
  = Tok (TFloat (float_of_decimal M
                   (match ex with Some z => z | None => 0 end
                    - Z.of_nat (String.length fd)))) "".
Proof.
  intros Hip Hne Hfd Hhf Hex HM. unfold lex_number.
  assert (Hsp : span is_digit (ip ++ (if hf then "." ++ fd else "") ++ exp_part ex)
                = (ip, (if hf then "." ++ fd else "") ++ exp_part ex)).
  { apply span_app; [exact Hip|]. destruct hf; [reflexivity|].
    destruct ex as [z|]; [reflexivity|]. now destruct (Hex eq_refl). }
  rewrite Hsp. destruct hf.
  - cbn [String.append]. change (Ascii.eqb "." ".") with true. cbv iota.
    assert (Hs2 : span is_digit (fd ++ exp_part ex) = (fd, exp_part ex)).
    { apply span_app; [exact Hfd|]. now destruct ex. }
    rewrite Hs2. destruct ex as [z|].
    + cbn [exp_part String.append]. change (Ascii.eqb (to_lower "e") "e") with true.
      cbv iota. assert (E := exp_part_tail z).
      destruct (parse_sign (str_float_exp z)) as [neg r''].
      destruct (span is_digit r'') as [ed r3].
      destruct (N_of_digits ed); [|discriminate]. inversion E; clear E.
      subst. cbn [starts_with orb]. unfold float_of_literal. now rewrite HM.
    + cbn [exp_part starts_with orb]. unfold float_of_literal. now rewrite HM.
  - rewrite (Hhf eq_refl) in *. destruct ex as [z|]; [|now destruct (Hex eq_refl)].
    cbn [exp_part String.append]. change (Ascii.eqb "e" ".") with false. cbv iota.
    change (Ascii.eqb (to_lower "e") "e") with true. cbv iota.
    assert (E := exp_part_tail z).
    destruct (parse_sign (str_float_exp z)) as [neg r''].
    destruct (span is_digit r'') as [ed r3].
    destruct (N_of_digits ed); [|discriminate]. inversion E; clear E.
    subst. cbn [starts_with orb]. unfold float_of_literal. now rewrite HM.
Qed.

Lemma literal_eval_float (neg : bool) (ip fd : string) (hf : bool) (ex : option Z)
    (M : N) :
  string_forallb is_digit ip = true -> ip <> "" ->
  string_forallb is_digit fd = true -> (hf = false -> fd = "") ->
  (hf = false -> ex <> None) ->
  N_of_digits (ip ++ fd) = Some M ->
  let f := float_of_decimal M (match ex with Some z => z | None => 0 end
                               - Z.of_nat (String.length fd)) in
  literal_eval (sign_str neg ++ ip ++ (if hf then "." ++ fd else "") ++ exp_part ex)
  = LitOk (VFloat (if neg then float_neg f else f)).
Proof.
  intros Hip Hne Hfd Hhf Hex HM f.
  assert (Hn := lex_number_float ip fd hf ex M Hip Hne Hfd Hhf Hex HM). fold f in Hn.
  set (body := ip ++ (if hf then "." ++ fd else "") ++ exp_part ex) in *.
  destruct ip as [|c ip']; [congruence|].
  assert (Hc : is_digit c = true) by (simpl in Hip; now apply andb_prop in Hip).
  destruct (digit_char_class c Hc) as (Hi & _ & Hb & Hsp & _).
  assert (Hbody : exists r, body = String c r) by (now eexists).
  destruct Hbody as [r Hr].
  assert (Hlen : (2 <= String.length body)%nat).
  { subst body. cbn [String.append String.length]. rewrite length_append.
    destruct hf; [cbn [String.append String.length]; lia|].
    destruct ex as [z|]; [cbn; lia|now destruct (Hex eq_refl)]. }
  assert (Hstep : lex_step body = Tok (TFloat f) "").
  { rewrite Hr. unfold lex_step. rewrite Hi, Hc. cbn [orb]. now rewrite <- Hr. }
  assert (Hlex : forall fuel, lex (S (S fuel)) body = LexOk [TFloat f]).
  { intros fuel. rewrite Hr in *. cbn [lex].
    rewrite lstrip_keeps by exact Hb. now rewrite Hstep. }
  unfold literal_eval. destruct neg; cbn [sign_str String.append].
  - change (starts_with is_space (String "-" body)) with false. cbv iota.
    cbn [String.length]. rewrite lex_minus.
    destruct (String.length body) as [|[|n]] eqn:EL; try lia.
    now rewrite Hlex.
  - rewrite Hr at 1. cbn [starts_with]. rewrite Hsp.
    destruct (String.length body) as [|[|n]] eqn:EL; try lia.
    now rewrite Hlex.
Qed.

Lemma zeros_snoc (k : nat) : zeros k ++ "0" = zeros (S k).
Proof. induction k as [|k IH]; [reflexivity|]. cbn [zeros String.append]. now rewrite IH. Qed.

Lemma length_take (k : nat) (s : string) :
  String.length (take k s) = Nat.min k (String.length s).
Proof.
  revert s; induction k as [|k IH]; intros [|c s]; simpl; auto.
Qed.

(** The shape of [repr(f)] for a finite float: a sign, digits, a fraction
    and an exponent, whose value is that of the digits [m] and the exponent
    [e] of [f]. *)
Lemma str_float_form (neg : bool) (m : N) (e : Z) :
  exists (ip fd : string) (hf : bool) (ex : option Z) (M : N),
    str_float (FFin neg m e)
    = sign_str neg ++ ip ++ (if hf then "." ++ fd else "") ++ exp_part ex
    /\ string_forallb is_digit ip = true /\ ip <> ""
    /\ string_forallb is_digit fd = true
    /\ (hf = false -> fd = "") /\ (hf = false -> ex <> None)
    /\ N_of_digits (ip ++ fd) = Some M
    /\ float_of_decimal M (match ex with Some z => z | None => 0 end
                           - Z.of_nat (String.length fd))
       = float_of_decimal m e.
Proof.
  unfold str_float.
  assert (Hd := digits_of_N_digits m). assert (Hn := N_of_digits_digits m).
  assert (Hne := digits_of_N_nonempty m).
  set (digits := digits_of_N m) in *.
  assert (Hlen : (0 < String.length digits)%nat).
  { destruct digits; [congruence|simpl; lia]. }
  set (n := Z.of_nat (String.length digits)).
  set (decpt := n + e).
  destruct ((-4 <? decpt) && (decpt <=? 16)) eqn:Hfix.
  - destruct (Z.leb_spec decpt 0) as [H0|H0].
    + exists "0", (zeros (Z.to_nat (- decpt)) ++ digits), true, None, m.
      split; [cbn [exp_part String.append]; now rewrite ?append_nil_r, ?append_assoc|].
      split; [reflexivity|]. split; [discriminate|].
      split; [rewrite string_forallb_app, zeros_digits; exact Hd|].
      split; [discriminate|]. split; [discriminate|].
      split; [exact (N_of_digits_zeros (S (Z.to_nat (- decpt))) _ _ Hn)|].
      f_equal. rewrite length_append, length_zeros, Nat2Z.inj_add, Z2Nat.id by lia.
      subst decpt n. lia.
    + destruct (Z.leb_spec n decpt) as [H1|H1].
      * exists (digits ++ zeros (Z.to_nat (decpt - n))), "0", true, None,
          (m * 10 ^ Z.to_N (e + 1))%N.
        split; [cbn [exp_part String.append]; now rewrite ?append_nil_r, ?append_assoc|].
        split; [rewrite string_forallb_app, zeros_digits, Hd; reflexivity|].
        split; [destruct digits; [congruence|discriminate]|].
        split; [reflexivity|]. split; [discriminate|]. split; [discriminate|].
        split.
        { rewrite append_assoc, zeros_snoc.
          rewrite (N_of_digits_trailing_zeros _ _ _ Hn). do 3 f_equal.
          apply N2Z.inj. rewrite nat_N_Z, Z2N.id, Nat2Z.inj_succ, Z2Nat.id by lia.
          subst decpt. lia. }
        cbn [String.length]. change (0 - Z.of_nat 1) with (-1).
        apply float_of_decimal_scaled. subst decpt. lia.
      * exists (take (Z.to_nat decpt) digits), (drop (Z.to_nat decpt) digits), true,
          None, m.
        destruct (forallb_take_drop is_digit (Z.to_nat decpt) digits Hd) as [Ht Hdr].
        split; [cbn [exp_part String.append]; now rewrite ?append_nil_r, ?append_assoc|].
        split; [exact Ht|]. split; [apply take_nonempty; [lia|exact Hne]|].
        split; [exact Hdr|]. split; [discriminate|]. split; [discriminate|].
        split; [now rewrite take_drop|].
        f_equal. rewrite length_drop. subst decpt n. lia.
  - exists (take 1 digits), (drop 1 digits), (1 <? n), (Some (decpt - 1)), m.
    destruct (forallb_take_drop is_digit 1 digits Hd) as [Ht Hdr].
    split; [reflexivity|].
    split; [exact Ht|]. split; [apply take_nonempty; [lia|exact Hne]|].
    split; [exact Hdr|].
    assert (Hone : (1 <? n) = false -> drop 1 digits = "").
    { intros H. apply Z.ltb_ge in H.
      assert (L : String.length (drop 1 digits) = 0%nat) by (rewrite length_drop; lia).
      now destruct (drop 1 digits). }
    split; [exact Hone|]. split; [discriminate|].
    split; [now rewrite take_drop|].
    f_equal. rewrite length_drop. subst decpt n. lia.
Qed.

Arguments float_of_decimal : simpl never.
Arguments float_of_binary : simpl never.

(** [literal_eval] reads what [repr] prints for the digits [m] and the
    exponent [e] as the float nearest to [m * 10^e]. *)
Lemma literal_eval_str_float (neg : bool) (m : N) (e : Z) :
  literal_eval (str_float (FFin neg m e))
  = LitOk (VFloat (if neg then float_neg (float_of_decimal m e)
                   else float_of_decimal m e)).
Proof.
  destruct (str_float_form neg m e)
    as (ip & fd & hf & ex & M & -> & H1 & H2 & H3 & H4 & H5 & H6 & H7).
  rewrite (literal_eval_float neg ip fd hf ex M H1 H2 H3 H4 H5 H6).
  now rewrite H7.
Qed.

(** The float of a canonical binary64 number comes back from its [repr]. *)
Lemma literal_eval_float_of_binary (b : binary64) :
  canonical b = true ->
  literal_eval (str_float (float_of_binary b)) = LitOk (VFloat (float_of_binary b)).
Proof.
  intros Hc. assert (H := float_of_decimal_shortest b Hc).
  unfold float_of_binary in *. cbn [b_mant b_exp b_neg] in *.
  destruct (shortest_decimal (b_mant b) (b_exp b)) as [m e]. cbn [fst snd] in H.
  rewrite literal_eval_str_float, H. now destruct (b_neg b).
Qed.

(** C1, as stated, fails on a text: the text [1] is encoded as the text
    [1], which is decoded as the integer [1]. *)
Lemma C1_counterexample :
  round_trip (VStr "1") = Ok (VInt 1) /\ round_trip (VStr "1") <> Ok (VStr "1").
Proof. split; [reflexivity|discriminate]. Qed.

(** C1, amended: [decode(encode(v, as_string=True))] returns [v] for every
    boolean, integer, decimal and [None], for every finite float, and for
    every text that [decode] retains as it is.  The value that comes back
    is the same value (for a decimal: the same sign, digits and exponent;
    for a float: the same float, the sign of zero included). *)
Theorem C1_round_trip (v : value) : reads_back v -> round_trip v = Ok v.
Proof.
  unfold round_trip, encode, TypesManager, types_converting, retype.
  destruct v as [|b|z|f|d|s]; intros H.
  - reflexivity.
  - now destruct b.
  - cbn -[str_int]. apply decode_str_int.
  - cbn -[str_float]. destruct H as (b & Hc & ->). unfold decode, type_parser.
    rewrite (search_decimal_literal_absent _ (str_float_without_D _)).
    now rewrite (literal_eval_float_of_binary b Hc).
  - cbn -[str_decimal String.append]. apply decode_decimal_literal.
  - simpl in H. unfold decode in H. cbn [isinstance_str]. rewrite H. cbn. exact H.
Qed.

(** The values of the configuration file of the tests come back. *)
Lemma C1_round_trip_witness :
  round_trip (VStr "SQLite") = Ok (VStr "SQLite")
  /\ round_trip (VFloat (FFin false 4 (-1))) = Ok (VFloat (FFin false 4 (-1)))
  /\ round_trip (VFloat (FFin true 30000000000000004 (-17)))
     = Ok (VFloat (FFin true 30000000000000004 (-17)))
  /\ round_trip (VDecimal (DFin false 4 (-1))) = Ok (VDecimal (DFin false 4 (-1)))
  /\ round_trip (VInt 3) = Ok (VInt 3).
Proof.
  split; [|split; [|split; [|split]]].
  - exact (C1_round_trip (VStr "SQLite") eq_refl).
  - apply (C1_round_trip (VFloat (FFin false 4 (-1)))).
    exists (B64 false 7205759403792794 (-54)). split; vm_compute; reflexivity.
  - apply (C1_round_trip (VFloat (FFin true 30000000000000004 (-17)))).
    exists (B64 true 5404319552844596 (-54)). split; vm_compute; reflexivity.
  - exact (C1_round_trip (VDecimal (DFin false 4 (-1))) I).
  - exact (C1_round_trip (VInt 3) I).
Defined.

(** The floats that do not come back: [repr] prints an infinity as the name
    [inf], which [decode] retains as a text. *)
Lemma round_trip_inf : round_trip (VFloat (FInf false)) = Ok (VStr "inf").
Proof. reflexivity. Qed.

Lemma round_trip_nan : round_trip (VFloat FNaN) = Ok (VStr "nan").
Proof. reflexivity. Qed.

(** * Further properties of the codec *)

(** X1: a text that [decode] reads as a value that is not a text is encoded,
    under every combination of the flags, exactly as that value is: the
    entry point normalises a string before it formats it. *)
Theorem X1_encode_text_as_its_value (s : string) (v : value) (d st q : bool) :
  decode (VStr s) = Ok v -> isinstance_str v = false ->
  encode (VStr s) d st q = encode v d st q.
Proof.
  unfold decode, encode, TypesManager, types_converting. cbn [isinstance_str].
  now intros -> ->.
Qed.

(** The text [1.5] and the float [1.5] both give [Decimal('1.5')]. *)
Lemma X1_encode_text_as_its_value_witness :
  encode (VStr "1.5") true true false = encode (VFloat (FFin false 15 (-1))) true true false
  /\ encode (VStr "1.5") true true false = Ok (VStr "Decimal('1.5')").
Proof.
  split; [|reflexivity].
  exact (X1_encode_text_as_its_value "1.5" (VFloat (FFin false 15 (-1))) true true false
           eq_refl eq_refl).
Defined.

(** X2: the combination of the decimal coercion and the quoting without the
    stringification never returns a value: it raises [TypeError] (the
    coercion failed, or the quoting met a decimal), or, for a string that
    [decode] rejects, the exception of [decode]. *)
Theorem X2_decimal_then_quote_always_raises (v : value) :
  encode v true false true = Raise TypeError
  \/ exists s e, v = VStr s /\ decode (VStr s) = Raise e
                 /\ encode v true false true = Raise e.
Proof.
  unfold encode, decode, TypesManager, types_converting.
  destruct v as [|b|z|f|d|s]; cbn [isinstance_str bind];
    try (left; reflexivity).
  - left. unfold to_decimal. now destruct (Decimal_of_string (str_float f)).
  - destruct (type_parser (VStr s)) as [x|e] eqn:E.
    + left. cbn [bind]. destruct x as [|b|z|f|d|t]; try reflexivity.
      * unfold to_decimal. now destruct (Decimal_of_string (str_float f)).
      * unfold to_decimal. now destruct (Decimal_of_string t).
    + right. now exists s, e.
Qed.

(** X3: with the stringification flag, whatever the other flags are, a value
    that [encode] returns is a text. *)
Theorem X3_as_string_returns_text (v : value) (d q : bool) (r : value) :
  encode v d true q = Ok r -> isinstance_str r = true.
Proof.
  unfold encode, TypesManager, types_converting.
  intros H. apply bind_Ok_inv in H as (x & Hx & Hr).
  assert (Hs : isinstance_str x = true).
  { apply bind_Ok_inv in Hx as (v0 & _ & Hx).
    assert (Hts : forall y z, to_string y = Ok z -> isinstance_str z = true).
    { intros y z. unfold to_string. destruct (type_of y) eqn:Ty; intros [= <-]; auto.
      now destruct y. }
    assert (Hqt : forall y z, quote y = Ok z -> isinstance_str z = true).
    { intros y z. unfold quote. destruct y; try discriminate.
      destruct (contains_char ch_quote s); now intros [= <-]. }
    destruct d, q.
    - apply bind_Ok_inv in Hx as (v1 & _ & Hx).
      apply bind_Ok_inv in Hx as (v2 & _ & Hx). eauto.
    - apply bind_Ok_inv in Hx as (v1 & _ & Hx). eauto.
    - apply bind_Ok_inv in Hx as (v1 & _ & Hx). eauto.
    - eauto. }
  destruct x; try discriminate. now injection Hr as <-.
Qed.

Lemma X3_as_string_returns_text_witness :
  isinstance_str (VStr "Decimal('1')") = true.
Proof.
  exact (X3_as_string_returns_text (VBool true) true false (VStr "Decimal('1')") eq_refl).
Defined.

Lemma str_float_without (c : ascii) (f : pyfloat) :
  is_digit c = false -> contains_char c "-+.einfa0" = false ->
  contains_char c (str_float f) = false.
Proof.
  intros Hc Hk.
  assert (Kc : forall a : ascii, contains_char a "-+.einfa0" = true -> Ascii.eqb a c = false).
  { intros a Ha. destruct (Ascii.eqb_spec a c) as [->|]; [congruence|reflexivity]. }
  assert (K1 := Kc "-"%char eq_refl). assert (K2 := Kc "+"%char eq_refl).
  assert (K3 := Kc "."%char eq_refl). assert (K4 := Kc "e"%char eq_refl).
  assert (K5 := Kc "i"%char eq_refl). assert (K6 := Kc "n"%char eq_refl).
  assert (K7 := Kc "f"%char eq_refl). assert (K8 := Kc "a"%char eq_refl).
  assert (K9 := Kc "0"%char eq_refl).
  destruct f as [neg m e|neg|].
  2:{ destruct neg; cbn [str_float sign_str String.append contains_char];
      now rewrite ?K1, ?K5, ?K6, ?K7. }
  2:{ cbn [str_float contains_char]. now rewrite K6, K8. }
  unfold str_float, str_float_exp.
  assert (Hd := digits_of_N_digits m).
  set (digits := digits_of_N m) in *.
  assert (HD : forall s, string_forallb is_digit s = true -> contains_char c s = false).
  { intros s Hs. now apply digits_without. }
  assert (Ht := fun k => HD _ (proj1 (forallb_take_drop is_digit k digits Hd))).
  assert (Hr := fun k => HD _ (proj2 (forallb_take_drop is_digit k digits Hd))).
  assert (Hz := fun k => HD _ (zeros_digits k)).
  assert (Ha := fun n => HD _ (digits_of_N_digits n)).
  assert (Hs : contains_char c (sign_str neg) = false).
  { destruct neg; cbn [sign_str contains_char]; now rewrite ?K1. }
  repeat match goal with
         | |- context [if ?b then _ else _] => destruct b
         end;
    repeat (rewrite ?contains_char_app, ?Hs, ?Ht, ?Hr, ?Hz, ?Ha, ?(HD _ Hd);
            cbn [contains_char String.append orb];
            rewrite ?K1, ?K2, ?K3, ?K4, ?K9; cbn [orb]);
    reflexivity.
Qed.

Lemma str_int_without_quote (z : Z) : contains_char ch_quote (str_int z) = false.
Proof.
  rewrite str_int_eq, contains_char_app.
  rewrite (digits_without ch_quote _ eq_refl (digits_of_N_digits _)).
  now destruct (z <? 0).
Qed.

Lemma str_decimal_without_quote (d : decimal) :
  contains_char ch_quote (str_decimal d) = false.
Proof.
  apply contains_char_false.
  apply string_forallb_impl with (f := number_char); [|apply str_decimal_chars].
  intros c Hc. destruct (number_char_class c Hc) as (_ & -> & _). reflexivity.
Qed.

(** X4: the stringification followed by the quoting never fails on a value
    that is not a string: [None], a boolean, an integer and a float give
    their [str] between single quotes, and a decimal gives its literal
    [Decimal('...')] between double quotes, because the literal holds
    single quotes. *)
Theorem X4_quoted_string_of_value (v : value) :
  isinstance_str v = false ->
  encode v false true true
  = Ok (VStr match v with
             | VDecimal d =>
                 str1 ch_dquote ++ "Decimal('" ++ str_decimal d ++ "')" ++ str1 ch_dquote
             | _ => str1 ch_quote ++ py_str v ++ str1 ch_quote
             end).
Proof.
  unfold encode, TypesManager, types_converting, retype.
  destruct v as [|b|z|f|d|s]; intros Hv; try discriminate; try reflexivity.
  - now destruct b.
  - cbn -[str_int String.append]. now rewrite str_int_without_quote.
  - cbn -[str_float String.append].
    now rewrite (str_float_without ch_quote f eq_refl eq_refl).
  - cbn -[str_decimal String.append].
    replace (contains_char ch_quote ("Decimal('" ++ str_decimal d ++ "')")) with true.
    + now rewrite !append_assoc.
    + symmetry. rewrite contains_char_app. reflexivity.
Qed.

(** The samples of the docstring of [TypesManager]. *)
Lemma X4_quoted_string_of_value_witness :
  encode (VBool false) false true true = Ok (VStr "'False'")
  /\ encode VNone false true true = Ok (VStr "'None'").
Proof.
  split.
  - exact (X4_quoted_string_of_value (VBool false) eq_refl).
  - exact (X4_quoted_string_of_value VNone eq_refl).
Defined.

(** X5: a decimal literal whose content, a text of ASCII characters, is
    not a numeric string makes [decode], and so [encode] under every
    combination of the flags, raise [InvalidOperation]; the decimal coercion
    of a retained text of ASCII characters that is not a numeric string
    raises [TypeError] instead. *)
Theorem X5_malformed_decimal (g : string) :
  g <> "" -> contains_char ch_quote g = false -> ascii_text g = true ->
  Decimal_of_string g = None ->
  (forall d st q,
     encode (VStr ("Decimal('" ++ g ++ "')")) d st q = Raise InvalidOperation)
  /\ (decode (VStr g) = Ok (VStr g) ->
      forall st q, encode (VStr g) true st q = Raise TypeError).
Proof.
  intros Hg Hq Ha Hd. split.
  - intros d st q. unfold encode, TypesManager, types_converting, type_parser,
      search_decimal_literal. cbn [isinstance_str].
    assert (Hm := match_here_intro "Decimal('" ch_quote ")" g "" Hg Hq).
    change (String ch_quote ")") with "')" in Hm. rewrite append_nil_r in Hm.
    assert (Hs : re_search "Decimal('" ch_quote "')" ("Decimal('" ++ g ++ "')")
                 = Some ("", g, "")).
    { apply (re_search_intro _ _ _ "" _ _ ""); [|exact Hm].
      intros a b Hab Hb. destruct a, b; simpl in Hab; congruence. }
    now rewrite Hs, Hd, Ha.
  - intros Hr st q. unfold encode, TypesManager, types_converting.
    unfold decode in Hr. cbn [isinstance_str]. rewrite Hr. cbn [bind].
    unfold to_decimal. rewrite Hd. now destruct st, q.
Qed.

Lemma X5_malformed_decimal_witness :
  encode (VStr "Decimal('abc')") false false false = Raise InvalidOperation
  /\ encode (VStr "abc") true false false = Raise TypeError.
Proof.
  destruct (X5_malformed_decimal "abc" ltac:(discriminate) eq_refl eq_refl eq_refl)
    as [H1 H2].
  split; [exact (H1 false false false)|exact (H2 eq_refl false false)].
Defined.

(** X6: the search of the decimal literal is not anchored: a text that
    holds a decimal literal is decoded as that decimal, whatever stands
    after the literal, and whatever stands before it as long as it has no
    capital [D]. *)
Theorem X6_decimal_literal_inside_text (pre post : string) (d : decimal) :
  contains_char "D" pre = false ->
  decode (VStr (pre ++ "Decimal('" ++ str_decimal d ++ "')" ++ post)) = Ok (VDecimal d).
Proof.
  intros Hpre. unfold decode, type_parser, search_decimal_literal.
  assert (Hm := match_here_intro "Decimal('" ch_quote ")" (str_decimal d) post
                  (str_decimal_nonempty d) (str_decimal_without_quote d)).
  change (String ch_quote ")") with "')" in Hm.
  assert (Hs : re_search "Decimal('" ch_quote "')"
                 (pre ++ "Decimal('" ++ str_decimal d ++ "')" ++ post)
               = Some (pre, str_decimal d, post)).
  { apply re_search_intro; [|exact Hm].
    intros a b -> Hb. rewrite contains_char_app in Hpre.
    apply orb_false_elim in Hpre as [_ Hb'].
    destruct b as [|c b]; [congruence|]. simpl in Hb'.
    apply orb_false_elim in Hb' as [Hc _].
    unfold match_here. cbn [String.append strip_prefix].
    now rewrite Ascii.eqb_sym, Hc. }
  now rewrite Hs, Decimal_of_string_str_decimal.
Qed.

Lemma X6_decimal_literal_inside_text_witness :
  decode (VStr "about Decimal('1.5') volts") = Ok (VDecimal (DFin false 15 (-1))).
Proof.
  exact (X6_decimal_literal_inside_text "about " " volts" (DFin false 15 (-1)) eq_refl).
Defined.

(** X7: the decimal coercion is idempotent: what [encode] returns with the
    decimal flag alone is a decimal, and encoding it again with the same
    flag returns it unchanged. *)
Theorem X7_as_decimal_idempotent (v r : value) :
  encode v true false false = Ok r ->
  (exists d, r = VDecimal d) /\ encode r true false false = Ok r.
Proof.
  unfold encode, TypesManager, types_converting.
  intros H. apply bind_Ok_inv in H as (x & Hx & Hr).
  apply bind_Ok_inv in Hx as (v0 & _ & Hx).
  assert (Hd : exists d, x = VDecimal d).
  { unfold to_decimal in Hx. destruct v0 as [|b|z|f|d|s]; try discriminate;
      try (injection Hx as <-; eauto).
    - destruct (Decimal_of_string (str_float f)); [injection Hx as <-; eauto|discriminate].
    - destruct (Decimal_of_string s); [injection Hx as <-; eauto|discriminate]. }
  destruct Hd as (d & ->). injection Hr as <-.
  split; [now exists d|reflexivity].
Qed.

Lemma X7_as_decimal_idempotent_witness :
  encode (VDecimal (DFin false 4 (-1))) true false false = Ok (VDecimal (DFin false 4 (-1))).
Proof.
  exact (proj2 (X7_as_decimal_idempotent (VStr "0.4") (VDecimal (DFin false 4 (-1)))
                  eq_refl)).
Defined.

(** * Further properties of [config_manager] *)

Lemma re_search_occurs (prefix : string) (stop : ascii) (suffix s : string) :
  occurs prefix s = false -> re_search prefix stop suffix s = None.
Proof.
  induction s as [|c s IH]; simpl; unfold match_here.
  - destruct (strip_prefix prefix ""); [discriminate|reflexivity].
  - destruct (strip_prefix prefix (String c s)); [discriminate|].
    intros H. now rewrite IH.
Qed.

Lemma render_scalar (v : value) :
  scalar_kind v = true ->
  exists txt, render v = Ok txt /\ Legacy.render v = Ok txt
              /\ txt <> "" /\ contains_char ch_newline txt = false
              /\ decode (VStr txt) = Ok v.
Proof.
  destruct v as [|b|z|f|d|s]; try discriminate; intros _.
  - exists (if b then "True" else "False"). now destruct b.
  - exists (str_int z). repeat split.
    + rewrite str_int_eq. assert (H := digits_of_N_nonempty (Z.abs_N z)).
      destruct (z <? 0); [discriminate|exact H].
    + apply contains_char_false.
      apply string_forallb_impl with (f := sign_digit_char); [|apply str_int_chars].
      intros c Hc. destruct (sign_digit_char_class c Hc) as (_ & _ & Hn).
      destruct (number_char_class c Hn) as (_ & _ & ->). reflexivity.
    + apply decode_str_int.
  - exists ("Decimal('" ++ str_decimal d ++ "')"). repeat split.
    + discriminate.
    + rewrite !contains_char_app.
      replace (contains_char ch_newline (str_decimal d)) with false; [reflexivity|].
      symmetry. apply contains_char_false.
      apply string_forallb_impl with (f := number_char); [|apply str_decimal_chars].
      intros c Hc. destruct (number_char_class c Hc) as (_ & _ & ->). reflexivity.
    + apply decode_decimal_literal.
Qed.

(** X8: a write changes the text of the matched value and nothing else: the
    file was [pre ++ name = value ++ post] and becomes
    [pre ++ name = txt ++ post], where [txt] is the rendering of the new
    value; the call returns [None] and leaves the rest of the world as it
    is. *)
Theorem X8_set_changes_only_the_value (name : string) (v : value) (w : world)
    (data pre value post txt : string) :
  plain_name name = true ->
  config_file w = Some data ->
  search_param name data = Some (pre, value, post) ->
  v <> VNone -> render v = Ok txt ->
  data = pre ++ line name value ++ post
  /\ fst (config_manager name v w) = Ok VNone
  /\ config_file (snd (config_manager name v w)) = Some (pre ++ line name txt ++ post)
  /\ credentials_file (snd (config_manager name v w)) = credentials_file w
  /\ sqlite_db_file (snd (config_manager name v w)) = sqlite_db_file w
  /\ engine_string (snd (config_manager name v w)) = engine_string w.
Proof.
  intros _ Hc Hs Hv Hr.
  rewrite (config_manager_set name v w data pre value post txt Hc Hs Hv Hr).
  split; [now apply search_param_Some in Hs|]. now repeat split.
Qed.

(** The second step of the test of the repository: a new name of the
    database, between two other lines. *)
Lemma X8_set_changes_only_the_value_witness :
  let data := line "ENGINE_ECHO" "False"
              ++ line "SQLITE_DB_NAME" "'electrical_product_catalog.db'"
              ++ line "SYSTEM_PHASES" "3" in
  config_file (snd (config_manager "SQLITE_DB_NAME" (VStr "config_test.db")
                      (world_of_config data)))
  = Some (line "ENGINE_ECHO" "False" ++ line "SQLITE_DB_NAME" "'config_test.db'"
          ++ line "SYSTEM_PHASES" "3").
Proof.
  intros data.
  exact (proj1 (proj2 (proj2
    (X8_set_changes_only_the_value "SQLITE_DB_NAME" (VStr "config_test.db")
       (world_of_config data) data (line "ENGINE_ECHO" "False")
       "'electrical_product_catalog.db'" (line "SYSTEM_PHASES" "3") "'config_test.db'"
       eq_refl eq_refl eq_refl ltac:(discriminate) eq_refl)))).
Defined.

(** X9: a boolean, an integer or a decimal that is written is read back:
    after [config_manager(name, v)], [config_manager(name)] returns [v]. *)
Theorem X9_set_then_get_scalar (name : string) (v : value) (w : world)
    (data pre value post : string) :
  plain_name name = true ->
  config_file w = Some data ->
  search_param name data = Some (pre, value, post) ->
  scalar_kind v = true ->
  fst (config_manager name v w) = Ok VNone
  /\ fst (config_manager name VNone (snd (config_manager name v w))) = Ok v.
Proof.
  intros _ Hc Hs Hk.
  destruct (render_scalar v Hk) as (txt & Hr & _ & Hne & Hnl & Hd).
  assert (Hv : v <> VNone) by (destruct v; discriminate).
  rewrite (config_manager_set name v w data pre value post txt Hc Hs Hv Hr).
  split; [reflexivity|].
  rewrite config_manager_get. cbn [fst snd add_events with_config config_file].
  now rewrite (search_param_after_set _ _ _ _ _ txt Hs Hne Hnl).
Qed.

Lemma X9_set_then_get_scalar_witness :
  let w := world_of_config (line "SYSTEM_PHASES" "3"
                              ++ line "SYSTEM_VOLTAGE_IN_KILOVOLTS" "0.4") in
  fst (config_manager "SYSTEM_PHASES" VNone
         (snd (config_manager "SYSTEM_PHASES" (VInt 1) w))) = Ok (VInt 1)
  /\ fst (config_manager "SYSTEM_VOLTAGE_IN_KILOVOLTS" VNone
            (snd (config_manager "SYSTEM_VOLTAGE_IN_KILOVOLTS"
                    (VDecimal (DFin false 4 (-1))) w)))
     = Ok (VDecimal (DFin false 4 (-1))).
Proof.
  intros w. split.
  - exact (proj2 (X9_set_then_get_scalar "SYSTEM_PHASES" (VInt 1) w _ ""
                    "3" (line "SYSTEM_VOLTAGE_IN_KILOVOLTS" "0.4")
                    eq_refl eq_refl eq_refl eq_refl)).
  - exact (proj2 (X9_set_then_get_scalar "SYSTEM_VOLTAGE_IN_KILOVOLTS"
                    (VDecimal (DFin false 4 (-1))) w _ (line "SYSTEM_PHASES" "3")
                    "0.4" "" eq_refl eq_refl eq_refl eq_refl)).
Defined.

Lemma lex_quote (fuel : nat) (r : string) :
  lex (S fuel) (String ch_quote r)
  = match lex_string ch_quote r with
    | StepRaise e => LexRaise e
    | Tok t rest =>
        match lex fuel rest with
        | LexOk ts => LexOk (t :: ts)
        | LexRaise e => LexRaise e
        end
    end.
Proof. reflexivity. Qed.

Lemma control_char_class (c : ascii) :
  is_control c = false -> Ascii.eqb c ch_newline = false.
Proof.
  destruct c as [[] [] [] [] [] [] [] []]; try discriminate; reflexivity.
Qed.

(** The literal parser reads a quotable text between single quotes back as
    the text. *)
Lemma literal_eval_quoted (s : string) :
  quotable s = true ->
  literal_eval (str1 ch_quote ++ s ++ str1 ch_quote) = LitOk (VStr s).
Proof.
  unfold quotable. intros [[Hq Hb]%andb_prop Hc]%andb_prop.
  apply negb_true_iff in Hq, Hb.
  assert (Hbody : string_forallb
                    (fun c => negb (Ascii.eqb c ch_quote || Ascii.eqb c ch_newline)) s = true).
  { apply contains_char_false in Hq. revert Hq Hc. clear.
    induction s as [|c s IH]; simpl; [reflexivity|].
    intros [H1 H2]%andb_prop [H3 H4]%andb_prop.
    apply negb_true_iff in H1, H3.
    rewrite H1, (control_char_class c H3). simpl. auto. }
  unfold literal_eval.
  change (str1 ch_quote ++ s ++ str1 ch_quote) with (String ch_quote (s ++ str1 ch_quote)).
  change (starts_with is_space (String ch_quote (s ++ str1 ch_quote))) with false.
  cbv iota. cbn [String.length]. rewrite lex_quote.
  unfold lex_string, scan_string_body.
  rewrite (span_app _ s (str1 ch_quote) Hbody).
  2:{ cbn. reflexivity. }
  cbn [str1]. rewrite Ascii.eqb_refl, Hb, Hc.
  cbn [negb orb starts_with andb]. rewrite andb_false_r.
  reflexivity.
Qed.

(** A text between single quotes that holds no other single quote holds no
    decimal literal. *)
Lemma search_decimal_literal_quoted (s : string) :
  contains_char ch_quote s = false ->
  search_decimal_literal (str1 ch_quote ++ s ++ str1 ch_quote) = None.
Proof.
  intros Hq. unfold search_decimal_literal.
  destruct (re_search "Decimal('" ch_quote "')" (str1 ch_quote ++ s ++ str1 ch_quote))
    as [[[pre g] post]|] eqn:E; [|reflexivity].
  exfalso. apply re_search_Some in E as (E & Hg & _).
  destruct pre as [|c pre]; [discriminate|].
  cbn [str1 String.append] in E. injection E as _ E.
  set (rest := g ++ "')" ++ post) in *.
  assert (Hrest : rest <> "").
  { subst rest. destruct g; [congruence|discriminate]. }
  assert (E' : s ++ str1 ch_quote = (pre ++ "Decimal(") ++ String ch_quote rest)
    by (rewrite E, append_assoc; reflexivity).
  clear E. rename E' into E.
  destruct (Nat.le_gt_cases (String.length (pre ++ "Decimal(")) (String.length s)) as [L|L].
  - symmetry in E. apply append_eq_append in E as (x & Hs & Hx); [|exact L].
    destruct x as [|a x]; cbn [String.append] in Hx.
    + injection Hx as Hx. congruence.
    + injection Hx as <- _. subst s.
      rewrite !contains_char_app in Hq. cbn [contains_char] in Hq.
      rewrite Ascii.eqb_refl in Hq. cbn [orb] in Hq.
      now rewrite orb_true_r in Hq.
  - apply append_eq_append in E as (x & Hs & Hx); [|lia].
    destruct x as [|a x]; cbn [String.append] in Hx.
    + injection Hx as Hx. congruence.
    + injection Hx as _ Hx. destruct x; discriminate.
Qed.

Lemma decode_quoted (s : string) :
  quotable s = true -> decode (VStr (str1 ch_quote ++ s ++ str1 ch_quote)) = Ok (VStr s).
Proof.
  intros H. unfold decode, type_parser.
  rewrite search_decimal_literal_quoted, literal_eval_quoted; auto.
  unfold quotable in H. apply andb_prop in H as [[Hq _]%andb_prop _].
  now apply negb_true_iff in Hq.
Qed.

Lemma render_retained_text (s : string) :
  decode (VStr s) = Ok (VStr s) -> contains_char ch_quote s = false ->
  render (VStr s) = Ok (str1 ch_quote ++ s ++ str1 ch_quote)
  /\ Legacy.render (VStr s) = Ok (str1 ch_quote ++ s ++ str1 ch_quote).
Proof.
  intros Hd Hq. unfold render, Legacy.render.
  rewrite TypesManager_no_flags. cbn [isinstance_str type_of].
  unfold decode in Hd. rewrite Hd. cbn [bind type_of].
  unfold TypesManager, types_converting. cbn [isinstance_str].
  rewrite Hd. cbn [bind quote]. rewrite Hq. split; reflexivity.
Qed.

(** X10: a text is read back after it is written when [decode] retains it
    as it is and it can stand between single quotes: it is written between
    single quotes, and [config_manager(name)] returns it without the
    quotes. *)
Theorem X10_set_then_get_text (name s : string) (w : world)
    (data pre value post : string) :
  plain_name name = true ->
  config_file w = Some data ->
  search_param name data = Some (pre, value, post) ->
  decode (VStr s) = Ok (VStr s) -> quotable s = true ->
  config_file (snd (config_manager name (VStr s) w))
  = Some (pre ++ line name (str1 ch_quote ++ s ++ str1 ch_quote) ++ post)
  /\ fst (config_manager name VNone (snd (config_manager name (VStr s) w))) = Ok (VStr s).
Proof.
  intros _ Hc Hs Hd Hq.
  assert (Hq' : contains_char ch_quote s = false).
  { unfold quotable in Hq. apply andb_prop in Hq as [[Hq _]%andb_prop _].
    now apply negb_true_iff in Hq. }
  assert (Hnl : contains_char ch_newline (str1 ch_quote ++ s ++ str1 ch_quote) = false).
  { rewrite !contains_char_app. cbn [str1 contains_char orb].
    replace (contains_char ch_newline s) with false; [reflexivity|].
    symmetry. apply contains_char_false.
    unfold quotable in Hq. apply andb_prop in Hq as [_ Hctl].
    apply string_forallb_impl with (f := fun c => negb (is_control c)); [|exact Hctl].
    intros c Hc'. apply negb_true_iff in Hc'. now rewrite (control_char_class c Hc'). }
  destruct (render_retained_text s Hd Hq') as [Hr _].
  rewrite (config_manager_set name (VStr s) w data pre value post _ Hc Hs
             ltac:(discriminate) Hr).
  split; [reflexivity|].
  rewrite config_manager_get. cbn [fst snd add_events with_config config_file].
  assert (Hne : str1 ch_quote ++ s ++ str1 ch_quote <> "") by (cbn; discriminate).
  rewrite (search_param_after_set _ _ _ _ _ _ Hs Hne Hnl).
  now apply decode_quoted.
Qed.

(** The test of the repository: the name of the database is set and read
    back. *)
Lemma X10_set_then_get_text_witness :
  let w := world_of_config (line "SQLITE_DB_NAME" "'electrical_product_catalog.db'") in
  fst (config_manager "SQLITE_DB_NAME" VNone
         (snd (config_manager "SQLITE_DB_NAME" (VStr "config_test.db") w)))
  = Ok (VStr "config_test.db").
Proof.
  intros w.
  exact (proj2 (X10_set_then_get_text "SQLITE_DB_NAME" "config_test.db" w _ ""
                  "'electrical_product_catalog.db'" ""
                  eq_refl eq_refl eq_refl eq_refl eq_refl)).
Defined.

Lemma read_config_run (w : world) (data : string) :
  config_file w = Some data -> read_config w = (Ok data, add_events w [EvConfigOpen]).
Proof. intros H. unfold read_config, mbind, emit, add_events. cbn. now rewrite H. Qed.

(** When the new value cannot be rendered, the exception leaves
    [config_manager] before the file is written; the only records are those
    that the handlers of the codec wrote. *)
Lemma config_manager_render_fails (name : string) (v : value) (w : world)
    (data pre value post : string) (e : exn) :
  config_file w = Some data ->
  search_param name data = Some (pre, value, post) ->
  render v = Raise e ->
  config_manager name v w
  = (Raise e,
     add_events w (EvConfigOpen :: map (EvLog ERROR) (fst (render_logged v)))).
Proof.
  intros Hc H Hr. unfold config_manager. unfold mbind at 1.
  rewrite (read_config_run w data Hc), H.
  assert (Hv : v <> VNone) by (intros ->; vm_compute in Hr; discriminate).
  assert (E : (txt <~ call (render_logged v) ;;
               write_config (replace_first (name ++ " = " ++ value)
                               (name ++ " = " ++ txt) data) ;;;
               log WARNING ("Config params changed: now " ++ name ++ " = " ++ txt ++ "!") ;;;
               ret VNone) (add_events w [EvConfigOpen])
              = (Raise e,
                 add_events w
                   (EvConfigOpen :: map (EvLog ERROR) (fst (render_logged v))))).
  { unfold mbind at 1. rewrite call_run, render_logged_snd, Hr.
    now rewrite add_events_app. }
  destruct v; try congruence; exact E.
Qed.

Lemma legacy_config_manager_render_fails (name : string) (v : value) (w : world)
    (data pre value post : string) (e : exn) :
  config_file w = Some data ->
  search_param name data = Some (pre, value, post) ->
  Legacy.render v = Raise e ->
  Legacy.config_manager name v w
  = (Raise e,
     add_events w (EvConfigOpen :: map (EvLog ERROR) (fst (Legacy.render_logged v)))).
Proof.
  intros Hc H Hr. unfold Legacy.config_manager. unfold mbind at 1.
  rewrite (read_config_run w data Hc), H.
  assert (Hv : v <> VNone) by (intros ->; vm_compute in Hr; discriminate).
  assert (E : (txt <~ call (Legacy.render_logged v) ;;
               write_config (replace_first (name ++ " = " ++ value)
                               (name ++ " = " ++ txt) data) ;;;
               log WARNING ("Config params changed: now " ++ name ++ " = " ++ txt ++ "!") ;;;
               ret VNone) (add_events w [EvConfigOpen])
              = (Raise e,
                 add_events w
                   (EvConfigOpen
                    :: map (EvLog ERROR) (fst (Legacy.render_logged v))))).
  { unfold mbind at 1. rewrite call_run, legacy_render_logged_snd, Hr.
    now rewrite add_events_app. }
  destruct v; try congruence; exact E.
Qed.

(** Quoting a text that reads as a value other than a text: [__quote]
    writes its record and raises [TypeError]. *)
Lemma quoting_text_of_literal (s : string) (v : value) :
  decode (VStr s) = Ok v -> isinstance_str v = false ->
  TypesManager_logged (VStr s) false false true
  = (["Cannot quoting (" ++ py_str v ++ ", " ++ type_repr v
        ++ "), use also 'to_string' option."],
     Raise TypeError).
Proof.
  intros Hd Hv. unfold decode in Hd.
  unfold TypesManager_logged, types_converting_logged.
  cbn [isinstance_str type_parser_logged silent]. rewrite Hd.
  destruct v; try discriminate; reflexivity.
Qed.

(** A text that reads as a literal is rendered as the literal's value. *)
Lemma render_text_of_literal (s : string) (v : value) :
  decode (VStr s) = Ok v -> isinstance_str v = false ->
  render_logged (VStr s) = render_logged v.
Proof.
  intros Hd Hv. unfold render_logged. rewrite !TypesManager_logged_no_flags.
  rewrite !TypesManager_no_flags.
  cbn [isinstance_str type_of]. unfold decode in Hd. rewrite Hd.
  destruct v; try discriminate; reflexivity.
Qed.



(** X12: a name whose text followed by [ = ] occurs nowhere in the file is
    left alone: reading it returns [None], and setting it to any value
    returns [None] without writing, logging or raising. *)
Theorem X12_absent_name_is_a_no_op (name : string) (v : value) (w : world)
    (data : string) :
  plain_name name = true ->
  config_file w = Some data ->
  occurs (name ++ " = ") data = false ->
  config_manager name v w = (Ok VNone, add_events w [EvConfigOpen]).
Proof.
  intros _ Hc Ho. apply config_manager_no_match with (data := data); [exact Hc|].
  unfold search_param. now apply re_search_occurs.
Qed.

Lemma X12_absent_name_is_a_no_op_witness :
  let w := world_of_config (line "ENGINE_ECHO" "False") in
  config_manager "SYSTEM_PHASES" (VInt 1) w = (Ok VNone, add_events w [EvConfigOpen]).
Proof.
  intros w.
  exact (X12_absent_name_is_a_no_op "SYSTEM_PHASES" (VInt 1) w
           (line "ENGINE_ECHO" "False") eq_refl eq_refl eq_refl).
Defined.

(** X13: setting a parameter to the text of a literal is the same call as
    setting it to the literal's value: when [decode] reads the text [s] as a
    value [v] that is neither a text nor [None], [config_manager(name, s)]
    and [config_manager(name, v)] have the same result and the same effect
    on every state of the files. *)
Theorem X13_text_of_literal_sets_the_literal (name s : string) (v : value)
    (w : world) :
  decode (VStr s) = Ok v -> isinstance_str v = false -> v <> VNone ->
  config_manager name (VStr s) w = config_manager name v w.
Proof.
  intros Hd Hv Hn. assert (Hr := render_text_of_literal s v Hd Hv).
  unfold config_manager, mbind. destruct (read_config w) as [[data|e] w1]; [|reflexivity].
  destruct (search_param name data) as [[[pre value] post]|]; [|now destruct v].
  destruct v; try congruence; try discriminate; now rewrite Hr.
Qed.

(** The settings window passes the text of a combo box. *)
Lemma X13_text_of_literal_sets_the_literal_witness :
  let w := world_of_config (line "SYSTEM_PHASES" "1") in
  config_manager "SYSTEM_PHASES" (VStr "3") w
  = config_manager "SYSTEM_PHASES" (VInt 3) w.
Proof.
  intros w.
  exact (X13_text_of_literal_sets_the_literal "SYSTEM_PHASES" "3" (VInt 3) w
           eq_refl eq_refl ltac:(discriminate)).
Defined.

(** X14: a new value is decoded twice before it is quoted: a text whose
    decoding is a text [t] that itself reads as a value [v] other than a
    text (the quoted digit ['1'], say) is refused: [__quote] writes its
    error record about [v] and raises [TypeError], and the file is left as
    it was. *)
Theorem X14_quoted_literal_is_refused (name s t : string) (v : value) (w : world)
    (data pre value post : string) :
  plain_name name = true ->
  config_file w = Some data ->
  search_param name data = Some (pre, value, post) ->
  decode (VStr s) = Ok (VStr t) -> decode (VStr t) = Ok v ->
  isinstance_str v = false ->
  config_manager name (VStr s) w
  = (Raise TypeError,
     add_events w
       [EvConfigOpen;
        EvLog ERROR ("Cannot quoting (" ++ py_str v ++ ", " ++ type_repr v
                       ++ "), use also 'to_string' option.")]).
Proof.
  intros _ Hc Hs Hd1 Hd2 Hv.
  assert (Hl : render_logged (VStr s)
               = (["Cannot quoting (" ++ py_str v ++ ", " ++ type_repr v
                     ++ "), use also 'to_string' option."],
                  Raise TypeError)).
  { unfold render_logged.
    rewrite TypesManager_logged_no_flags, TypesManager_no_flags.
    cbn [isinstance_str]. unfold decode in Hd1. rewrite Hd1.
    cbn [lbind fst snd type_of app].
    now rewrite (quoting_text_of_literal t v Hd2 Hv). }
  rewrite (config_manager_render_fails name (VStr s) w data pre value post TypeError
             Hc Hs); [now rewrite Hl|].
  now rewrite <- render_logged_snd, Hl.
Qed.

Lemma X14_quoted_literal_is_refused_witness :
  let w := world_of_config (line "SYSTEM_PHASES" "3") in
  config_manager "SYSTEM_PHASES" (VStr "'1'") w
  = (Raise TypeError,
     add_events w
       [EvConfigOpen;
        EvLog ERROR "Cannot quoting (1, <class 'int'>), use also 'to_string' option."]).
Proof.
  intros w.
  exact (X14_quoted_literal_is_refused "SYSTEM_PHASES" "'1'" "1" (VInt 1) w
           (line "SYSTEM_PHASES" "3") "" "3" ""
           eq_refl eq_refl eq_refl eq_refl eq_refl eq_refl).
Defined.

(** X15: the earlier [config_manager] (ShortCircuitCalc/tools/tools.py)
    has the same round trip: a boolean, an integer or a decimal that is
    written is read back; and it writes the same file as the later one. *)
Theorem X15_legacy_set_then_get_scalar (name : string) (v : value) (w : world)
    (data pre value post : string) :
  plain_name name = true ->
  config_file w = Some data ->
  search_param name data = Some (pre, value, post) ->
  scalar_kind v = true ->
  Legacy.config_manager name v w = config_manager name v w
  /\ fst (Legacy.config_manager name VNone (snd (Legacy.config_manager name v w)))
     = Ok v.
Proof.
  intros _ Hc Hs Hk.
  destruct (render_scalar v Hk) as (txt & Hr & Hr' & Hne & Hnl & Hd).
  assert (Hv : v <> VNone) by (destruct v; discriminate).
  rewrite (legacy_config_manager_set name v w data pre value post txt Hc Hs Hv Hr').
  rewrite (config_manager_set name v w data pre value post txt Hc Hs Hv Hr).
  split; [reflexivity|].
  rewrite legacy_config_manager_get. cbn [fst snd add_events with_config config_file].
  now rewrite (search_param_after_set _ _ _ _ _ txt Hs Hne Hnl).
Qed.

(** The test of the repository: [ENGINE_ECHO] is set to [False] and read
    back. *)
Lemma X15_legacy_set_then_get_scalar_witness :
  let w := world_of_config (line "ENGINE_ECHO" "True") in
  fst (Legacy.config_manager "ENGINE_ECHO" VNone
         (snd (Legacy.config_manager "ENGINE_ECHO" (VBool false) w)))
  = Ok (VBool false).
Proof.
  intros w.
  exact (proj2 (X15_legacy_set_then_get_scalar "ENGINE_ECHO" (VBool false) w _ ""
                  "True" "" eq_refl eq_refl eq_refl eq_refl)).
Defined.

(** X16: the earlier [config_manager] quotes a text after one decoding
    only, so a text that reads as a value [v] other than a text (a number,
    say) is refused there: [__quote] writes its error record about [v] and
    raises [TypeError], and the file is kept, where the later
    [config_manager] writes the number. *)
Theorem X16_legacy_refuses_text_of_literal (name s : string) (v : value) (w : world)
    (data pre value post : string) :
  plain_name name = true ->
  config_file w = Some data ->
  search_param name data = Some (pre, value, post) ->
  decode (VStr s) = Ok v -> isinstance_str v = false ->
  Legacy.config_manager name (VStr s) w
  = (Raise TypeError,
     add_events w
       [EvConfigOpen;
        EvLog ERROR ("Cannot quoting (" ++ py_str v ++ ", " ++ type_repr v
                       ++ "), use also 'to_string' option.")]).
Proof.
  intros _ Hc Hs Hd Hv.
  assert (Hl : Legacy.render_logged (VStr s)
               = (["Cannot quoting (" ++ py_str v ++ ", " ++ type_repr v
                     ++ "), use also 'to_string' option."],
                  Raise TypeError)).
  { unfold Legacy.render_logged. cbn [type_of].
    now rewrite (quoting_text_of_literal s v Hd Hv). }
  rewrite (legacy_config_manager_render_fails name (VStr s) w data pre value post
             TypeError Hc Hs); [now rewrite Hl|].
  now rewrite <- legacy_render_logged_snd, Hl.
Qed.

Lemma X16_legacy_refuses_text_of_literal_witness :
  let w := world_of_config (line "SYSTEM_PHASES" "3") in
  Legacy.config_manager "SYSTEM_PHASES" (VStr "1") w
  = (Raise TypeError,
     add_events w
       [EvConfigOpen;
        EvLog ERROR "Cannot quoting (1, <class 'int'>), use also 'to_string' option."]).
Proof.
  intros w.
  exact (X16_legacy_refuses_text_of_literal "SYSTEM_PHASES" "1" (VInt 1) w
           (line "SYSTEM_PHASES" "3") "" "3" ""
           eq_refl eq_refl eq_refl eq_refl eq_refl).
Defined.

(** ** The connection resolver, further properties *)

Lemma eq_str_true (v : value) (s : string) : eq_str v s = true -> v = VStr s.
Proof.
  destruct v; try discriminate. simpl. now intros ->%String.eqb_eq.
Qed.

Lemma legacy_connection_types_raises (v : value) (e : exn) :
  Legacy.connection_types v = Raise e -> is_FileNotFoundError e = false.
Proof.
  unfold Legacy.connection_types.
  destruct v as [|b|z|f|d|s]; cbn;
    repeat match goal with
           | |- context [match ?x with _ => _ end] => destruct x
           end;
    intros H; try discriminate; injection H as <-; reflexivity.
Qed.

Lemma decode_quoted_MySQL : decode (VStr "'MySQL'") = Ok (VStr "MySQL").
Proof. reflexivity. Qed.

(** X17: the earlier [db_access] prefers MySQL whatever is stored: when the
    credentials file is there and can be loaded, the first call returns the
    MySQL string made of the three fields, sets the memo, leaves no SQLite
    database file behind, and the stored backend reads ['MySQL']
    afterwards. *)
Theorem X17_legacy_credentials_give_MySQL (ROOT_DIR SQLITE_DB_NAME : string)
    (fuel : nat) (w : world) (c : credentials) (v : value)
    (data pre value post : string) :
  credentials_file w = Some (Ok c) ->
  engine_string w = None ->
  config_file w = Some data ->
  search_param "DB_EXISTING_CONNECTION" data = Some (pre, value, post) ->
  decode (VStr value) = Ok v ->
  let url := "mysql+pymysql://" ++ login c ++ ":" ++ password c ++ "@localhost/"
               ++ db_name c ++ "?charset=utf8mb4" in
  let out := Legacy.db_access ROOT_DIR SQLITE_DB_NAME (S fuel) w in
  fst out = Ok url
  /\ engine_string (snd out) = Some url
  /\ sqlite_db_file (snd out) = false
  /\ fst (Legacy.config_manager "DB_EXISTING_CONNECTION" VNone (snd out))
     = Ok (VStr "MySQL").
Proof.
  intros Hcr Hes Hcf Hs Hd url out.
  destruct out as [r w'] eqn:E. subst out. revert E.
  destruct w as [cf cr sq es ev]; simpl in Hcr, Hes, Hcf; subst.
  unfold Legacy.db_access; run_monad.
  destruct sq; run_monad; legacy_get; rewrite Hs, Hd; run_monad;
    destruct (eq_str v "MySQL") eqn:Ev; run_monad;
    try legacy_set Hs; cbn -[String.append line];
    intros E; injection E as <- <-; cbn -[String.append line];
    (split; [reflexivity|split; [reflexivity|split; [reflexivity|]]]);
    rewrite legacy_config_manager_get; cbn [fst snd config_file];
    first [ rewrite Hs, Hd; f_equal; now apply eq_str_true
          | match goal with
            | |- context [search_param ?n ?d] =>
                replace (search_param n d) with (Some (pre, "'MySQL'", post));
                [ reflexivity
                | symmetry;
                  exact (search_param_after_set "DB_EXISTING_CONNECTION" data pre
                           value post "'MySQL'" Hs ltac:(discriminate) eq_refl) ]
            end ].
Qed.

Lemma X17_legacy_credentials_give_MySQL_witness :
  let w := {| config_file := Some (line "DB_EXISTING_CONNECTION" "'SQLite'");
              credentials_file :=
                Some (Ok {| login := "root"; password := "pw"; db_name := "catalog" |});
              sqlite_db_file := true;
              engine_string := None;
              events := [] |} in
  let out := Legacy.db_access "/app" "catalog.db" 1 w in
  fst out = Ok "mysql+pymysql://root:pw@localhost/catalog?charset=utf8mb4"
  /\ sqlite_db_file (snd out) = false.
Proof.
  intros w out.
  destruct (X17_legacy_credentials_give_MySQL "/app" "catalog.db" 0 w
              {| login := "root"; password := "pw"; db_name := "catalog" |}
              (VStr "SQLite")
              (line "DB_EXISTING_CONNECTION" "'SQLite'") "" "'SQLite'" ""
              eq_refl eq_refl eq_refl eq_refl eq_refl)
    as (H1 & _ & H3 & _).
  exact (conj H1 H3).
Defined.

(** X18: in the earlier [db_access], without a credentials file, any
    stored value that is no key of [connection_types] makes the first call
    raise the exception of the lookup ([KeyError], or [TypeError] for a key
    that cannot be hashed): nothing is written, the memo stays unset, and
    the only accesses are the test for the credentials file and one read of
    the configuration. *)
Theorem X18_legacy_unknown_backend_raises (ROOT_DIR SQLITE_DB_NAME : string)
    (fuel : nat) (w : world) (v : value) (e : exn) (data pre value post : string) :
  credentials_file w = None ->
  engine_string w = None ->
  config_file w = Some data ->
  search_param "DB_EXISTING_CONNECTION" data = Some (pre, value, post) ->
  decode (VStr value) = Ok v ->
  Legacy.connection_types v = Raise e ->
  Legacy.db_access ROOT_DIR SQLITE_DB_NAME (S fuel) w
  = (Raise e, add_events w [EvCredIsFile; EvConfigOpen]).
Proof.
  intros Hcr Hes Hcf Hs Hd Hk.
  assert (He := legacy_connection_types_raises v e Hk).
  destruct w as [cf cr sq es ev]; simpl in Hcr, Hes, Hcf; subst.
  unfold Legacy.db_access; run_monad.
  legacy_get; rewrite Hs, Hd; run_monad. rewrite Hk; run_monad. rewrite He.
  unfold add_events; cbn. now rewrite <- !app_assoc.
Qed.

Lemma X18_legacy_unknown_backend_raises_witness :
  let w := world_of_config (line "DB_EXISTING_CONNECTION" "'mysql'") in
  Legacy.db_access "/app" "catalog.db" 1 w
  = (Raise KeyError, add_events w [EvCredIsFile; EvConfigOpen]).
Proof.
  intros w.
  exact (X18_legacy_unknown_backend_raises "/app" "catalog.db" 0 w
           (VStr "mysql") KeyError
           (line "DB_EXISTING_CONNECTION" "'mysql'") "" "'mysql'" ""
           eq_refl eq_refl eq_refl eq_refl eq_refl eq_refl).
Defined.

(** X19: the retry of the earlier [db_access], for any file: with ['MySQL']
    stored and no credentials file, the first call resets the stored value
    to [False] (the file is written with [False] in between), calls itself
    once, and falls back to SQLite: it returns the SQLite string, sets the
    memo, and the stored backend reads ['SQLite'] afterwards. *)
Theorem X19_legacy_retry_falls_back (ROOT_DIR SQLITE_DB_NAME : string) (fuel : nat)
    (w : world) (data pre value post : string) :
  credentials_file w = None ->
  engine_string w = None ->
  config_file w = Some data ->
  search_param "DB_EXISTING_CONNECTION" data = Some (pre, value, post) ->
  decode (VStr value) = Ok (VStr "MySQL") ->
  let url := "sqlite:///" ++ ROOT_DIR ++ "/" ++ SQLITE_DB_NAME in
  let out := Legacy.db_access ROOT_DIR SQLITE_DB_NAME (S (S fuel)) w in
  fst out = Ok url
  /\ engine_string (snd out) = Some url
  /\ config_file (snd out)
     = Some (pre ++ line "DB_EXISTING_CONNECTION" "'SQLite'" ++ post)
  /\ In (EvConfigWrite (pre ++ line "DB_EXISTING_CONNECTION" "False" ++ post))
        (events (snd out))
  /\ fst (Legacy.config_manager "DB_EXISTING_CONNECTION" VNone (snd out))
     = Ok (VStr "SQLite").
Proof.
  intros Hcr Hes Hcf Hs Hd url out. subst out.
  rewrite (db_access_retry ROOT_DIR SQLITE_DB_NAME fuel w data pre value post
             Hcr Hes Hcf Hs Hd).
  cbn [fst snd engine_string config_file events].
  split; [reflexivity|split; [reflexivity|split; [reflexivity|split]]].
  - apply in_or_app. right. cbn [In]. auto 10.
  - rewrite legacy_config_manager_get. cbn [fst config_file].
    now rewrite (search_param_after_set _ _ _ _ _ "'SQLite'" Hs).
Qed.

Lemma X19_legacy_retry_falls_back_witness :
  let w := world_of_config (line "ENGINE_ECHO" "False"
                              ++ line "DB_EXISTING_CONNECTION" "'MySQL'") in
  let out := Legacy.db_access "/app" "catalog.db" 2 w in
  fst out = Ok "sqlite:////app/catalog.db"
  /\ config_file (snd out)
     = Some (line "ENGINE_ECHO" "False" ++ line "DB_EXISTING_CONNECTION" "'SQLite'").
Proof.
  intros w out.
  destruct (X19_legacy_retry_falls_back "/app" "catalog.db" 0 w
              (line "ENGINE_ECHO" "False" ++ line "DB_EXISTING_CONNECTION" "'MySQL'")
              (line "ENGINE_ECHO" "False") "'MySQL'" ""
              eq_refl eq_refl eq_refl eq_refl eq_refl)
    as (H1 & _ & H3 & _).
  exact (conj H1 H3).
Defined.

(** ** The connection resolver of [shortcircuitcalc/tools/tools.py] *)

Lemma mbind_Ok_inv {A B : Type} (m : M A) (k : A -> M B) (w w' : world) (b : B) :
  mbind m k w = (Ok b, w') ->
  exists a w1, m w = (Ok a, w1) /\ k a w1 = (Ok b, w').
Proof.
  unfold mbind. destruct (m w) as [[a|e] w1]; [|discriminate].
  intros H. now exists a, w1.
Qed.

Ltac current_get :=
  match goal with
  | |- context [config_manager ?name VNone ?w] =>
      rewrite (config_manager_get name w); cbn -[String.append line]
  end.

(** X20: the later [db_access] never raises: every exception of the
    resolution is caught and logged.  It returns either what the attribute
    holds after the call, or [None] with the attribute left unset. *)
Theorem X20_db_access_never_raises (ROOT_DIR : string)
    (attr : option (option string)) (w : world) :
  exists (r : option string) (attr' : option (option string)),
    fst (Current.db_access ROOT_DIR attr w) = Ok (r, attr')
    /\ (attr' = Some r \/ (attr = None /\ r = None /\ attr' = None)).
Proof.
  destruct attr as [s|].
  - exists s, (Some s). split; [reflexivity|now left].
  - unfold Current.db_access, try_except.
    match goal with |- context [match ?m w with _ => _ end] =>
      destruct (m w) as [[[r a]|e] w1] eqn:E end.
    + exists r, a. split; [reflexivity|left].
      apply mbind_Ok_inv in E as (v & w2 & _ & E).
      apply mbind_Ok_inv in E as (k & w3 & _ & E).
      apply mbind_Ok_inv in E as (s & w4 & _ & E).
      unfold ret in E. now injection E as <- <- _.
    + exists None, None. split; [reflexivity|right; auto].
Qed.

(** X21: with ['MySQL'] stored and no credentials file, the later
    [db_access] logs the error, returns [None] and sets the attribute to
    [None]: the file is not changed, and every later call returns [None] at
    once without looking for the credentials again. *)
Theorem X21_MySQL_without_credentials (ROOT_DIR : string) (w : world)
    (data pre value post : string) :
  credentials_file w = None ->
  config_file w = Some data ->
  search_param "DB_EXISTING_CONNECTION" data = Some (pre, value, post) ->
  decode (VStr value) = Ok (VStr "MySQL") ->
  Current.db_access ROOT_DIR None w
  = (Ok (None, Some None),
     add_events w
       [EvConfigOpen; EvLog INFO "Accessing MySQL database...";
        EvLog INFO "Credentials initializing..."; EvCredOpen;
        EvLog ERROR ("Credentials file for MySQL database not found! "
                       ++ "Try to choose another connection.")])
  /\ forall w', Current.db_access ROOT_DIR (Some None) w' = (Ok (None, Some None), w').
Proof.
  intros Hcr Hcf Hs Hd. split; [|reflexivity].
  destruct w as [cf cr sq es ev]; simpl in Hcr, Hcf; subst.
  unfold Current.db_access, Current.run_access, Current.run_mysql_access.
  run_monad. current_get. rewrite Hs, Hd. run_monad.
  unfold add_events; cbn. now rewrite <- !app_assoc.
Qed.

Lemma X21_MySQL_without_credentials_witness :
  let w := world_of_config (line "DB_EXISTING_CONNECTION" "'MySQL'") in
  fst (Current.db_access "/app" None w) = Ok (None, Some None).
Proof.
  intros w.
  exact (f_equal fst
           (proj1 (X21_MySQL_without_credentials "/app" w
                     (line "DB_EXISTING_CONNECTION" "'MySQL'") "" "'MySQL'" ""
                     eq_refl eq_refl eq_refl eq_refl))).
Defined.

(** X22: when the stored backend cannot be read or is no key of
    [connection_types] (the file is missing, the value does not parse, or
    it is anything but ['MySQL'] and ['SQLite'], the earlier sentinel
    [False] included), the later [db_access] logs the error and returns
    [None]: nothing is written and the attribute stays unset, so that the
    next call tries again.  The statement is for a stored text inside the
    modelled fragment of the literals. *)
Theorem X22_unknown_backend_returns_None (ROOT_DIR : string) (w : world) (e : exn) :
  (v <- fst (config_manager "DB_EXISTING_CONNECTION" VNone w) ;;
   Current.connection_types v) = Raise e ->
  e <> HostUnmodelled ->
  Current.db_access ROOT_DIR None w
  = (Ok (None, None),
     add_events w
       [EvConfigOpen;
        EvLog ERROR ("Something wrong with access to current database. "
                       ++ "Try to choose another connection and restart program.")]).
Proof.
  intros H _. unfold Current.db_access, try_except, mbind.
  rewrite config_manager_get in *. cbn [fst] in H.
  match type of H with
  | context [bind ?r _] => destruct r as [v|e']
  end; cbn [bind] in H.
  - unfold lift. rewrite H. cbn [Current.is_Exception].
    unfold log, emit, ret, add_events; cbn. now rewrite <- !app_assoc.
  - cbn [Current.is_Exception].
    unfold log, emit, ret, add_events; cbn. now rewrite <- !app_assoc.
Qed.

Lemma X22_unknown_backend_returns_None_witness :
  let w := world_of_config (line "DB_EXISTING_CONNECTION" "False") in
  fst (Current.db_access "/app" None w) = Ok (None, None).
Proof.
  intros w.
  exact (f_equal fst
           (X22_unknown_backend_returns_None "/app" w KeyError eq_refl
              ltac:(discriminate))).
Defined.

(** X23: with ['SQLite'] stored, the later [db_access] returns the SQLite
    string built from the stored database name and sets the attribute to
    it; it reads the configuration three times, writes nothing, and does
    not look at the credentials. *)
Theorem X23_SQLite_backend (ROOT_DIR : string) (w : world) (name : value)
    (data pre value post pre' value' post' : string) :
  config_file w = Some data ->
  search_param "DB_EXISTING_CONNECTION" data = Some (pre, value, post) ->
  decode (VStr value) = Ok (VStr "SQLite") ->
  search_param "SQLITE_DB_NAME" data = Some (pre', value', post') ->
  decode (VStr value') = Ok name ->
  let url := "sqlite:///" ++ ROOT_DIR ++ "/" ++ py_str name in
  Current.db_access ROOT_DIR None w
  = (Ok (Some url, Some (Some url)),
     add_events w
       [EvConfigOpen; EvLog INFO "Connected to SQLite database.";
        EvConfigOpen; EvConfigOpen]).
Proof.
  intros Hcf Hs Hd Hs' Hd' url.
  destruct w as [cf cr sq es ev]; simpl in Hcf; subst.
  unfold Current.db_access, Current.run_access, Current.run_sqlite_access.
  run_monad. current_get. rewrite Hs, Hd. run_monad.
  current_get. rewrite Hs, Hd. run_monad.
  current_get. rewrite Hs', Hd'. run_monad.
  unfold add_events; cbn. now rewrite <- !app_assoc.
Qed.

Lemma X23_SQLite_backend_witness :
  let w := world_of_config (line "DB_EXISTING_CONNECTION" "'SQLite'"
                              ++ line "SQLITE_DB_NAME" "'catalog.db'") in
  fst (Current.db_access "/app" None w)
  = Ok (Some "sqlite:////app/catalog.db", Some (Some "sqlite:////app/catalog.db")).
Proof.
  intros w.
  exact (f_equal fst
           (X23_SQLite_backend "/app" w (VStr "catalog.db")
              (line "DB_EXISTING_CONNECTION" "'SQLite'"
                 ++ line "SQLITE_DB_NAME" "'catalog.db'")
              "" "'SQLite'" (line "SQLITE_DB_NAME" "'catalog.db'")
              (line "DB_EXISTING_CONNECTION" "'SQLite'") "'catalog.db'" ""
              eq_refl eq_refl eq_refl eq_refl eq_refl)).
Defined.

(** X24: with ['MySQL'] stored and a credentials file that loads, the
    later [db_access] returns the MySQL string made of the three fields and
    sets the attribute to it; unlike the earlier [db_access] it leaves the
    SQLite database file and the configuration as they are. *)
Theorem X24_MySQL_backend (ROOT_DIR : string) (w : world) (c : credentials)
    (data pre value post : string) :
  credentials_file w = Some (Ok c) ->
  config_file w = Some data ->
  search_param "DB_EXISTING_CONNECTION" data = Some (pre, value, post) ->
  decode (VStr value) = Ok (VStr "MySQL") ->
  let url := "mysql+pymysql://" ++ login c ++ ":" ++ password c ++ "@localhost/"
               ++ db_name c ++ "?charset=utf8mb4" in
  Current.db_access ROOT_DIR None w
  = (Ok (Some url, Some (Some url)),
     add_events w
       [EvConfigOpen; EvLog INFO "Accessing MySQL database...";
        EvLog INFO "Credentials initializing..."; EvCredOpen;
        EvLog INFO "Connected to MySQL database."; EvConfigOpen]).
Proof.
  intros Hcr Hcf Hs Hd url.
  destruct w as [cf cr sq es ev]; simpl in Hcr, Hcf; subst.
  unfold Current.db_access, Current.run_access, Current.run_mysql_access.
  run_monad. current_get. rewrite Hs, Hd. run_monad.
  current_get. rewrite Hs, Hd. run_monad.
  unfold add_events; cbn. now rewrite <- !app_assoc.
Qed.

Lemma X24_MySQL_backend_witness :
  let w := {| config_file := Some (line "DB_EXISTING_CONNECTION" "'MySQL'");
              credentials_file :=
                Some (Ok {| login := "root"; password := "pw"; db_name := "catalog" |});
              sqlite_db_file := true;
              engine_string := None;
              events := [] |} in
  sqlite_db_file (snd (Current.db_access "/app" None w)) = true.
Proof.
  intros w.
  exact (f_equal (fun o => sqlite_db_file (snd o))
           (X24_MySQL_backend "/app" w
              {| login := "root"; password := "pw"; db_name := "catalog" |}
              (line "DB_EXISTING_CONNECTION" "'MySQL'") "" "'MySQL'" ""
              eq_refl eq_refl eq_refl eq_refl)).
Defined.

(** ** The transaction scope, further properties *)

(** X25: a commit that fails with [OperationalError] after a clean unit of
    work is handled as a failure of the unit of work: rollback, the optional
    log record, close, and the exception is raised again. *)
Theorem X25_failed_commit_rolls_back (sb : session_behaviour) (logs : bool)
    (body : M unit) (w w1 w2 : world) :
  on_session sb = None ->
  scope_prologue sb (add_events w [EvSession]) = (Ok tt, w1) ->
  body w1 = (Ok tt, w2) ->
  on_commit sb = Some OperationalError ->
  on_rollback sb = None -> on_close sb = None ->
  session_scope sb logs body w
  = (Raise OperationalError,
     add_events w2
       ([EvCommit; EvRollback] ++ (if logs then [EvLog ERROR "OperationalError"] else [])
        ++ [EvClose])).
Proof.
  intros Hs Hp Hb Hm Hr Hc.
  rewrite (session_scope_try sb logs body w w1 w2 (Ok tt) Hs Hp Hb).
  unfold try_finally, try_except, mbind. rewrite Hm, session_op_Raise.
  cbn [is_OperationalError]. rewrite Hr, Hc, !session_op_Ok.
  destruct logs; cbn; unfold add_events; cbn; now rewrite <- !app_assoc.
Qed.

Lemma X25_failed_commit_rolls_back_witness :
  let sb := {| on_session := None; on_execute := None;
               on_commit := Some OperationalError;
               on_rollback := None; on_close := None |} in
  let w := world_of_config (line "DB_EXISTING_CONNECTION" "'MySQL'") in
  session_scope sb false (ret tt) w
  = (Raise OperationalError,
     add_events w [EvSession; EvConfigOpen; EvCommit; EvRollback; EvClose]).
Proof.
  intros sb w.
  exact (X25_failed_commit_rolls_back sb false (ret tt) w
           (add_events w [EvSession; EvConfigOpen])
           (add_events w [EvSession; EvConfigOpen])
           eq_refl eq_refl eq_refl eq_refl eq_refl eq_refl).
Defined.

(** X26: what fails before the unit of work keeps it from running.  When
    [Session()] raises, nothing else happens: no rollback and no close.
    When the prologue raises (the configuration cannot be read, or the
    pragma fails), the outcome does not depend on the unit of work: an
    exception other than [OperationalError] is followed by the close alone,
    an [OperationalError] by the rollback, the optional log record and the
    close.  The statement is for a stored text inside the modelled fragment
    of the literals. *)
Theorem X26_failure_before_the_unit_of_work (sb : session_behaviour) (logs : bool)
    (body : M unit) (w w1 : world) (e : exn) :
  (on_session sb = Some e ->
   session_scope sb logs body w = (Raise e, add_events w [EvSession]))
  /\ (on_session sb = None ->
      scope_prologue sb (add_events w [EvSession]) = (Raise e, w1) ->
      e <> HostUnmodelled ->
      on_rollback sb = None -> on_close sb = None ->
      session_scope sb logs body w
      = (Raise e,
         add_events w1
           (if is_OperationalError e
            then [EvRollback] ++ (if logs then [EvLog ERROR (exn_name e)] else [])
                 ++ [EvClose]
            else [EvClose]))).
Proof.
  split.
  - intros Hs. unfold session_scope, mbind. now rewrite Hs, session_op_Raise.
  - intros Hs Hp _ Hr Hc. unfold session_scope. unfold mbind at 1.
    rewrite Hs, session_op_Ok. unfold try_finally, try_except.
    unfold mbind at 1. rewrite Hp.
    destruct (is_OperationalError e) eqn:He.
    + unfold mbind. rewrite Hr, Hc, !session_op_Ok.
      destruct logs; cbn; unfold add_events; cbn; now rewrite <- !app_assoc.
    + now rewrite Hc, session_op_Ok.
Qed.

(** Without a configuration file the scope closes the session and raises
    [FileNotFoundError]: the unit of work does not run. *)
Lemma X26_failure_before_the_unit_of_work_witness :
  let sb := {| on_session := None; on_execute := None; on_commit := None;
               on_rollback := None; on_close := None |} in
  let w := {| config_file := None; credentials_file := None;
              sqlite_db_file := false; engine_string := None; events := [] |} in
  session_scope sb true (emit EvCommit) w
  = (Raise FileNotFoundError, add_events w [EvSession; EvConfigOpen; EvClose]).
Proof.
  intros sb w.
  exact (proj2 (X26_failure_before_the_unit_of_work sb true (emit EvCommit) w
                  (add_events w [EvSession; EvConfigOpen]) FileNotFoundError)
           eq_refl eq_refl ltac:(discriminate) eq_refl eq_refl).
Defined.

(** X27: an exception raised while the scope cleans up replaces the one in
    flight.  When [close] raises, the scope raises that exception whatever
    happened before; when the rollback raises, its exception is raised
    instead of the [OperationalError] of the unit of work, no log record is
    written, and the session is still closed. *)
Theorem X27_cleanup_failure_replaces_the_exception (sb : session_behaviour)
    (logs : bool) (body : M unit) (w w1 w2 : world) (e : exn) :
  on_session sb = None ->
  (on_close sb = Some e -> fst (session_scope sb logs body w) = Raise e)
  /\ (scope_prologue sb (add_events w [EvSession]) = (Ok tt, w1) ->
      body w1 = (Raise OperationalError, w2) ->
      on_rollback sb = Some e -> on_close sb = None ->
      session_scope sb logs body w = (Raise e, add_events w2 [EvRollback; EvClose])).
Proof.
  intros Hs. split.
  - intros Hc. unfold session_scope. unfold mbind at 1.
    rewrite Hs, session_op_Ok. unfold try_finally.
    destruct (try_except _ _ _ _) as [r w']. now rewrite Hc, session_op_Raise.
  - intros Hp Hb Hr Hc.
    rewrite (session_scope_try sb logs body w w1 w2 _ Hs Hp Hb).
    unfold try_finally, try_except, mbind. cbn [is_OperationalError].
    rewrite Hr, Hc, session_op_Raise, session_op_Ok.
    now rewrite add_events_app.
Qed.

Lemma X27_cleanup_failure_replaces_the_exception_witness :
  let sb := {| on_session := None; on_execute := None; on_commit := None;
               on_rollback := Some (OtherError "InterfaceError");
               on_close := None |} in
  let w := world_of_config (line "DB_EXISTING_CONNECTION" "'MySQL'") in
  session_scope sb true (raise OperationalError) w
  = (Raise (OtherError "InterfaceError"),
     add_events w [EvSession; EvConfigOpen; EvRollback; EvClose]).
Proof.
  intros sb w.
  exact (proj2 (X27_cleanup_failure_replaces_the_exception sb true
                  (raise OperationalError) w
                  (add_events w [EvSession; EvConfigOpen])
                  (add_events w [EvSession; EvConfigOpen])
                  (OtherError "InterfaceError") eq_refl)
           eq_refl eq_refl eq_refl eq_refl).
Defined.

(** X28: the scope switches the foreign keys on exactly when the stored
    backend is the text ['SQLite']: when the configuration can be read and
    [execute] works, the scope behaves as the earlier [session_scope]
    (ShortCircuitCalc/tools/tools.py) does around a unit of work that reads
    the configuration once, executes the pragma only in that case, and then
    runs [body]. *)
Theorem X28_pragma_only_for_SQLite (sb : session_behaviour) (logs : bool)
    (body : M unit) (w : world) (v : value) (data pre value post : string) :
  on_session sb = None -> on_execute sb = None ->
  config_file w = Some data ->
  search_param "DB_EXISTING_CONNECTION" data = Some (pre, value, post) ->
  decode (VStr value) = Ok v ->
  session_scope sb logs body w
  = LegacyScope.session_scope sb logs
      (emit EvConfigOpen ;;;
       (if eq_str v "SQLite" then emit EvExecutePragma else ret tt) ;;;
       body) w.
Proof.
  intros Hs He Hcf Hsp Hd.
  unfold session_scope, LegacyScope.session_scope. unfold mbind at 1 3.
  rewrite Hs, session_op_Ok. unfold try_finally, try_except.
  unfold mbind at 1 4. unfold scope_prologue. unfold mbind at 1.
  rewrite config_manager_get. cbn [config_file add_events]. rewrite Hcf, Hsp, Hd.
  unfold mbind at 3. unfold emit at 1. cbn [events config_file credentials_file
    sqlite_db_file engine_string].
  unfold mbind at 2.
  destruct (eq_str v "SQLite"); [rewrite He|]; reflexivity.
Qed.

Lemma X28_pragma_only_for_SQLite_witness :
  let sb := {| on_session := None; on_execute := None; on_commit := None;
               on_rollback := None; on_close := None |} in
  let w := world_of_config (line "DB_EXISTING_CONNECTION" "'MySQL'") in
  session_scope sb true (ret tt) w
  = (Ok tt, add_events w [EvSession; EvConfigOpen; EvCommit; EvClose]).
Proof.
  intros sb w.
  exact (X28_pragma_only_for_SQLite sb true (ret tt) w (VStr "MySQL")
           (line "DB_EXISTING_CONNECTION" "'MySQL'") "" "'MySQL'" ""
           eq_refl eq_refl eq_refl eq_refl eq_refl).
Defined.

(** X29: the earlier [session_scope] does not look at the configuration:
    once the session exists, the unit of work runs first, and the scope
    leaves on one of three paths: commit and close after a clean unit of
    work; rollback, the optional log record and close after an
    [OperationalError], which is raised again; close alone after any other
    exception, which leaves the scope. *)
Theorem X29_legacy_scope_exit_paths (sb : session_behaviour) (logs : bool)
    (body : M unit) (w w2 : world) (r : result unit) :
  on_session sb = None ->
  body (add_events w [EvSession]) = (r, w2) ->
  on_commit sb = None -> on_rollback sb = None -> on_close sb = None ->
  LegacyScope.session_scope sb logs body w
  = (r,
     add_events w2
       (match r with
        | Ok _ => [EvCommit; EvClose]
        | Raise e =>
            if is_OperationalError e
            then [EvRollback] ++ (if logs then [EvLog ERROR (exn_name e)] else [])
                 ++ [EvClose]
            else [EvClose]
        end)).
Proof.
  intros Hs Hb Hm Hr Hc. unfold LegacyScope.session_scope. unfold mbind at 1.
  rewrite Hs, session_op_Ok. unfold try_finally, try_except.
  unfold mbind at 1. rewrite Hb. destruct r as [[]|e].
  - rewrite Hm, Hc, !session_op_Ok. now rewrite add_events_app.
  - destruct (is_OperationalError e) eqn:He.
    + unfold mbind. rewrite Hr, Hc, !session_op_Ok.
      destruct logs; cbn; unfold add_events; cbn; now rewrite <- !app_assoc.
    + now rewrite Hc, session_op_Ok.
Qed.

Lemma X29_legacy_scope_exit_paths_witness :
  let sb := {| on_session := None; on_execute := None; on_commit := None;
               on_rollback := None; on_close := None |} in
  let w := {| config_file := None; credentials_file := None;
              sqlite_db_file := false; engine_string := None; events := [] |} in
  LegacyScope.session_scope sb true (raise OperationalError) w
  = (Raise OperationalError,
     add_events w [EvSession; EvRollback; EvLog ERROR "OperationalError"; EvClose]).
Proof.
  intros sb w.
  exact (X29_legacy_scope_exit_paths sb true (raise OperationalError) w
           (add_events w [EvSession]) (Raise OperationalError)
           eq_refl eq_refl eq_refl eq_refl eq_refl).
Defined.

(** ** [logging_error] *)

(** X30: a function wrapped by [logging_error] never raises and returns
    [None] whatever the function returns: its effects are those of the
    function, followed by one error record when the function raised.
    Wrapping it a second time changes nothing. *)
Theorem X30_logging_error_swallows (A : Type) (func : M A) (w : world) :
  Current.logging_error func w
  = (Ok tt,
     match fst (func w) with
     | Ok _ => snd (func w)
     | Raise e => add_events (snd (func w)) [EvLog ERROR (exn_name e)]
     end)
  /\ Current.logging_error (Current.logging_error func) w
     = Current.logging_error func w.
Proof.
  assert (H : Current.logging_error func w
              = (Ok tt,
                 match fst (func w) with
                 | Ok _ => snd (func w)
                 | Raise e => add_events (snd (func w)) [EvLog ERROR (exn_name e)]
                 end)).
  { unfold Current.logging_error, try_except, mbind.
    destruct (func w) as [[a|e] w1]; reflexivity. }
  split; [exact H|].
  unfold Current.logging_error at 1. unfold try_except, mbind.
  now rewrite H.
Qed.
